(** * aireview-ui: the evaluation console (webapp/app.js, webapp/evaluate.js)

    A shallow embedding of the client-side logic of the review evaluation
    console: the progress calculator, the filter store, the seeded shuffle
    and the evaluation workspace, together with the properties the
    specification states about them. *)

From Stdlib Require Import ZArith QArith Qround Qpower Qabs Lia Lqa Ascii Sorted.
From stdpp Require Import base gmap sets list strings.

(** ** JavaScript numbers

    A JavaScript number is an IEEE-754 binary64 value.  The finite ones are
    rationals; every arithmetic operation computes the exact rational result
    and rounds it to the nearest representable value, ties to even.  Signed
    zero is not tracked: the code under study never divides by a computed
    zero and never inspects the sign of zero. *)

Module F64.

Local Open Scope Q_scope.

Inductive f64 : Type :=
| Fin (q : Q)
| PInf
| NInf
| NaN.

(** Exponent of the least positive (subnormal) value, 2^-1074. *)
Definition emin : Z := (-1074)%Z.

(** [Qlog2 x], for [0 < x], is the [k] with [2^k <= x < 2^(k+1)]. *)
Definition Qlog2 (x : Q) : Z :=
  let k := (Z.log2 (Qnum x) - Z.log2 (Z.pos (Qden x)))%Z in
  if Qle_bool (2 ^ k) x then k else (k - 1)%Z.

(** Exponent of the unit in the last place of the binade of [x]:
    53 significant bits, clamped at the subnormal exponent. *)
Definition ulp_exp (x : Q) : Z := Z.max (Qlog2 x - 52) emin.

(** Round to the nearest integer, ties to the even one. *)
Definition rne (s : Q) : Z :=
  let m := Qfloor s in
  match Qcompare (s - inject_Z m) (1 # 2) with
  | Lt => m
  | Gt => (m + 1)%Z
  | Eq => if Z.even m then m else (m + 1)%Z
  end.

Definition round_pos (x : Q) : Q :=
  let e := ulp_exp x in inject_Z (rne (x / 2 ^ e)) * 2 ^ e.

(** Rounding of an exact result to binary64; a magnitude that rounds to
    2^1024 or more overflows to an infinity.  Finite values are kept as
    reduced fractions, so that equal numbers are equal terms. *)
Definition round64 (x : Q) : f64 :=
  match Qcompare x 0 with
  | Eq => Fin 0
  | Gt => let y := round_pos x in
          if Qle_bool (2 ^ 1024) y then PInf else Fin (Qred y)
  | Lt => let y := round_pos (- x) in
          if Qle_bool (2 ^ 1024) y then NInf else Fin (Qred (- y))
  end.

(** The number denoted by an integer literal or computed from an integer. *)
Definition of_Z (z : Z) : f64 := round64 (inject_Z z).

Definition is_zero (x : f64) : bool :=
  match x with Fin q => Qeq_bool q 0 | _ => false end.

Definition is_neg (x : f64) : bool :=
  match x with Fin q => negb (Qle_bool 0 q) | NInf => true | _ => false end.

(** [x * y] *)
Definition mul (x y : f64) : f64 :=
  match x, y with
  | NaN, _ | _, NaN => NaN
  | Fin a, Fin b => round64 (a * b)
  | _, _ =>
      if is_zero x || is_zero y then NaN
      else if xorb (is_neg x) (is_neg y) then NInf else PInf
  end.

(** [x + y] *)
Definition add (x y : f64) : f64 :=
  match x, y with
  | NaN, _ | _, NaN => NaN
  | Fin a, Fin b => round64 (a + b)
  | PInf, NInf | NInf, PInf => NaN
  | PInf, _ | _, PInf => PInf
  | NInf, _ | _, NInf => NInf
  end.

(** [x / y] *)
Definition div (x y : f64) : f64 :=
  match x, y with
  | NaN, _ | _, NaN => NaN
  | Fin a, Fin b =>
      if Qeq_bool b 0 then
        (if Qeq_bool a 0 then NaN else if Qle_bool 0 a then PInf else NInf)
      else round64 (a / b)
  | Fin _, _ => Fin 0
  | _, Fin _ => if xorb (is_neg x) (is_neg y) then NInf else PInf
  | _, _ => NaN
  end.

(** [Math.floor] *)
Definition floor (x : f64) : f64 :=
  match x with Fin q => Fin (inject_Z (Qfloor q)) | _ => x end.

(** Truncation toward zero of a rational. *)
Definition Qtrunc (q : Q) : Z :=
  if Qle_bool 0 q then Qfloor q else Qceiling q.

(** The abstract operation ToInt32: truncate, reduce modulo 2^32 and read
    the result as a signed 32-bit integer; non-finite values give 0. *)
Definition ToInt32 (x : f64) : Z :=
  match x with
  | Fin q =>
      let n := (Qtrunc q mod 2 ^ 32)%Z in
      if (n <? 2 ^ 31)%Z then n else (n - 2 ^ 32)%Z
  | _ => 0%Z
  end.

(** [x & y]: both operands go through ToInt32; the result is an int32. *)
Definition bitand (x y : f64) : Z :=
  Z.land (ToInt32 x) (ToInt32 y).

(** A number used as an array index: a non-negative integer below 2^32 - 1
    names an element; any other number names an ordinary property. *)
Definition array_index (x : f64) : option nat :=
  match x with
  | Fin q =>
      let n := Qfloor q in
      if Qeq_bool q (inject_Z n) && (0 <=? n)%Z && (n <? 2 ^ 32 - 1)%Z
      then Some (Z.to_nat n) else None
  | _ => None
  end.

(** [- x] *)
Definition neg (x : f64) : f64 :=
  match x with
  | Fin q => Fin (- q)
  | PInf => NInf
  | NInf => PInf
  | NaN => NaN
  end.

(** Half a unit in the last place, relative to the value: 2^-53. *)
Definition eps : Q := 1 # 9007199254740992.

(** A number that is an infinity or an even integer of magnitude at least
    2^53: what integers beyond the exactly representable range round to. *)
Inductive big_even : f64 -> Prop :=
| big_even_pinf : big_even PInf
| big_even_ninf : big_even NInf
| big_even_fin (w : Z) :
    Z.even w = true -> (2 ^ 53 <= Z.abs w)%Z -> big_even (Fin (inject_Z w)).

End F64.

(** ** Deterministic shuffle (evaluate.js: seededRandom, shuffleWithSeed) *)

Module Shuffle.
Import F64.
Local Open Scope Z_scope.

(** The closure returned by [seededRandom(seed)] owns one variable, [state].
    A call updates it and returns [state / 0x7fffffff]:

      state = (state * 1103515245 + 12345) & 0x7fffffff;
      return state / 0x7fffffff;

    [rng_call] is one call: the new state and the returned number. *)
Definition next_state (state : f64) : f64 :=
  of_Z (bitand (add (mul state (of_Z 1103515245)) (of_Z 12345))
               (of_Z 2147483647)).

Definition rng_call (state : f64) : f64 * f64 :=
  let state' := next_state state in
  (state', div state' (of_Z 2147483647)).

(** [seededRandom(seed)]: the initial value of the closure's variable. *)
Definition seededRandom (seed : f64) : f64 := seed.

(** [Math.floor(rng() * (i + 1))], as the property key it is used for:
    [Some j] when it names the array element [j]. *)
Definition draw_index (r : f64) (i : nat) : option nat :=
  array_index (floor (mul r (of_Z (Z.of_nat i + 1)))).

Section Arrays.
Context {A : Type}.
(** The value [undefined], which reading past the end of an array gives. *)
Variable undefined : A.

(** [a[i]] *)
Definition js_get (a : list A) (i : nat) : A := default undefined (a !! i).

(** [a[i] = v]: in range the element is replaced; past the end the array
    grows, the gap reading as [undefined]. *)
Definition js_set (a : list A) (i : nat) (v : A) : list A :=
  if decide (i < length a)%nat then <[i:=v]> a
  else a ++ replicate (i - length a) undefined ++ [v].

(** [[a[i], a[j]] = [a[j], a[i]]]: both reads, then the write to [i], then
    the write to [j]. *)
Definition js_swap (a : list A) (i j : nat) : list A :=
  let vj := js_get a j in
  let vi := js_get a i in
  js_set (js_set a i vj) j vi.

(** The loop [for (let i = shuffled.length - 1; i > 0; i--)], entered with
    the loop variable at [i].  [None] means that the drawn key does not name
    an array element, where the walk would leave the array's elements. *)
Fixpoint shuffle_loop (i : nat) (state : f64) (shuffled : list A)
  : option (list A) :=
  match i with
  | O => Some shuffled
  | S i' =>
      let '(state', r) := rng_call state in
      match draw_index r i with
      | Some j => shuffle_loop i' state' (js_swap shuffled i j)
      | None => None
      end
  end.

(** [shuffleWithSeed(array, seed)]: the contents of the array returned. *)
Definition shuffleWithSeed (array : list A) (seed : f64) : option (list A) :=
  let state := seededRandom seed in
  let shuffled := array in
  shuffle_loop (length shuffled - 1) state shuffled.
End Arrays.

(** *** The same function on a store of array objects

    An array is an object: [shuffleWithSeed] allocates a new one, the copy
    [[...array]], swaps its elements in place and returns a reference to
    it.  The function above gives the contents of that new array. *)

Section Store.
Context {A : Type}.
Variable undefined : A.

Fixpoint shuffle_loop_store (i : nat) (state : f64) (shuffled : positive)
    (h : gmap positive (list A)) : option (gmap positive (list A)) :=
  match i with
  | O => Some h
  | S i' =>
      let '(state', r) := rng_call state in
      match draw_index r i with
      | Some j =>
          a ← h !! shuffled;
          shuffle_loop_store i' state' shuffled
            (<[shuffled := js_swap undefined a i j]> h)
      | None => None
      end
  end.

Definition shuffleWithSeed_store (h : gmap positive (list A))
    (array : positive) (seed : f64)
  : option (gmap positive (list A) * positive) :=
  contents ← h !! array;
  let state := seededRandom seed in
  let shuffled := fresh (dom h) in
  let h1 := <[shuffled := contents]> h in
  h2 ← shuffle_loop_store (length contents - 1) state shuffled h1;
  Some (h2, shuffled).

End Store.

(** Performing a list of swaps, as the loop does. *)
Definition apply_swaps {A : Type} (undefined : A)
    (swaps : list (nat * option nat)) (a : list A) : option (list A) :=
  foldl (fun acc sw =>
           a' ← acc; j ← sw.2; Some (js_swap undefined a' sw.1 j))
        (Some a) swaps.

(** The pairs [(i, j)] the loop swaps, in order; they depend on the seed and
    on the length only. *)
Fixpoint swap_indices (i : nat) (state : f64) : list (nat * option nat) :=
  match i with
  | O => []
  | S i' =>
      let '(state', r) := rng_call state in
      (i, draw_index r i) :: swap_indices i' state'
  end.

(** A number with an integer value or an infinite one: every seed given as
    an integer, and every later state. *)
Inductive integral : f64 -> Prop :=
| integral_fin (w : Z) : integral (Fin (inject_Z w))
| integral_pinf : integral PInf
| integral_ninf : integral NInf.

End Shuffle.

(** ** Data model: papers, reviews, metrics *)

Module Model.
Local Open Scope string_scope.

(** A review's [metrics] object; every review has one.  A numeric field is
    a number or absent; [source] and [comment] are strings or absent. *)
Record metrics : Type := Metrics {
  coverage : option Z;
  specificity : option Z;
  correctness : option Z;
  constructiveness : option Z;
  stance : option Z;
  source : option string;
  comment : option string
}.

(** The keys of the five star-rated metrics. *)
Inductive metric_key : Type :=
| Coverage | Specificity | Correctness | Constructiveness | Stance.

(** [metrics[key]] *)
Definition get_metric (key : metric_key) (m : metrics) : option Z :=
  match key with
  | Coverage => coverage m
  | Specificity => specificity m
  | Correctness => correctness m
  | Constructiveness => constructiveness m
  | Stance => stance m
  end.

(** [metrics[key] = value] *)
Definition set_metric (key : metric_key) (value : Z) (m : metrics) : metrics :=
  match key with
  | Coverage =>
      Metrics (Some value) (specificity m) (correctness m) (constructiveness m)
              (stance m) (source m) (comment m)
  | Specificity =>
      Metrics (coverage m) (Some value) (correctness m) (constructiveness m)
              (stance m) (source m) (comment m)
  | Correctness =>
      Metrics (coverage m) (specificity m) (Some value) (constructiveness m)
              (stance m) (source m) (comment m)
  | Constructiveness =>
      Metrics (coverage m) (specificity m) (correctness m) (Some value)
              (stance m) (source m) (comment m)
  | Stance =>
      Metrics (coverage m) (specificity m) (correctness m) (constructiveness m)
              (Some value) (source m) (comment m)
  end.

(** [metrics.source = value] *)
Definition set_source (value : string) (m : metrics) : metrics :=
  Metrics (coverage m) (specificity m) (correctness m) (constructiveness m)
          (stance m) (Some value) (comment m).

(** [metrics.comment = value] *)
Definition set_comment (value : string) (m : metrics) : metrics :=
  Metrics (coverage m) (specificity m) (correctness m) (constructiveness m)
          (stance m) (source m) (Some value).

Record harmonized : Type := Harmonized {
  model : string;
  harmonized_text : string
}.

Record review : Type := Review {
  text : string;
  reviewer : option string;
  harmonization : list harmonized;
  review_metrics : metrics
}.

(** A paper.  A missing [reviews] field is the empty list: the code treats
    the two alike. *)
Record paper : Type := Paper {
  title : string;
  abstract : option string;
  url : option string;
  evaluators : list string;
  primary_area : list string;
  keywords : list string;
  status : string;
  reviews : list review
}.

Definition with_metrics (m : metrics) (r : review) : review :=
  Review (text r) (reviewer r) (harmonization r) m.

Definition with_reviews (rs : list review) (p : paper) : paper :=
  Paper (title p) (abstract p) (url p) (evaluators p) (primary_area p)
        (keywords p) (status p) rs.

Definition with_status (st : string) (p : paper) : paper :=
  Paper (title p) (abstract p) (url p) (evaluators p) (primary_area p)
        (keywords p) st (reviews p).

End Model.

(** ** Progress calculator (calculateProgress, updatePaperStatus) *)

Module Progress.
Import Model.
Local Open Scope string_scope.

(** [metrics.key > 0]; an absent field compares false. *)
Definition positive_metric (v : option Z) : bool :=
  match v with
  | Some n => (0 <? n)%Z
  | None => false
  end.

(** [metrics.source && (metrics.source === 'ai' || ... === 'human' ||
    ... === '1' || ... === '2')], as the truth value it has. *)
Definition hasSource (m : metrics) : bool :=
  match source m with
  | Some s =>
      negb (String.eqb s EmptyString)
      && (String.eqb s "ai" || String.eqb s "human"
          || String.eqb s "1" || String.eqb s "2")
  | None => false
  end.

Definition hasAllMetrics (m : metrics) : bool :=
  positive_metric (coverage m) && positive_metric (specificity m)
  && positive_metric (correctness m) && positive_metric (constructiveness m)
  && positive_metric (stance m) && hasSource m.

Record progress : Type := mk_progress {
  completed : nat;
  total : nat
}.

(** The test applied to each review. *)
Definition is_complete (r : review) : bool := hasAllMetrics (review_metrics r).

(** The [forEach] that counts the complete reviews. *)
Definition count_completed (rs : list review) : nat :=
  foldl (fun completed r =>
           if hasAllMetrics (review_metrics r) then S completed else completed)
        0%nat rs.

Definition calculateProgress (p : paper) : progress :=
  match reviews p with
  | [] => mk_progress 0 0
  | rs => mk_progress (count_completed rs) (length rs)
  end.

(** The status [updatePaperStatus] chooses for a progress value. *)
Definition status_of (pr : progress) : string :=
  if (completed pr =? 0)%nat then "not_started"
  else if (completed pr <? total pr)%nat then "in_progress"
  else "completed".

(** [updatePaperStatus()], on the current paper. *)
Definition updatePaperStatus (p : paper) : paper :=
  with_status (status_of (calculateProgress p)) p.

(** *** Completeness in the words of the specification *)

(** A numeric metric is set: it is present and greater than 0. *)
Definition metric_set (v : option Z) : Prop :=
  exists n : Z, v = Some n /\ (0 < n)%Z.

(** The source is one of the four recognized values. *)
Definition source_recognized (v : option string) : Prop :=
  v = Some "ai" \/ v = Some "human" \/ v = Some "1" \/ v = Some "2".

Definition complete (r : review) : Prop :=
  metric_set (coverage (review_metrics r))
  /\ metric_set (specificity (review_metrics r))
  /\ metric_set (correctness (review_metrics r))
  /\ metric_set (constructiveness (review_metrics r))
  /\ metric_set (stance (review_metrics r))
  /\ source_recognized (source (review_metrics r)).

End Progress.

(** ** Filter store (app.js: filterPapers; evaluate.js: loadFilters,
    getFilteredPapers) *)

Module Filters.
Import Model.
Local Open Scope string_scope.

(** [String.prototype.toLowerCase].  Its table of case mappings is not
    part of the program; what is proved holds for every such function. *)
Class Lowercase : Type := toLowerCase : string -> string.

(** Lower-casing of the ASCII letters, for running the examples. *)
Definition ascii_lower (c : ascii) : ascii :=
  let n := nat_of_ascii c in
  if ((65 <=? n) && (n <=? 90))%nat then ascii_of_nat (n + 32) else c.

Fixpoint ascii_toLowerCase (s : string) : string :=
  match s with
  | EmptyString => EmptyString
  | String c s' => String (ascii_lower c) (ascii_toLowerCase s')
  end.

(** [s.includes(t)]: [t] occurs in [s] as a contiguous run. *)
Fixpoint includes (s t : string) : bool :=
  String.prefix t s
  || match s with
     | EmptyString => false
     | String _ s' => includes s' t
     end.

(** The filter state: five sets of strings. *)
Record filters : Type := FilterState {
  f_evaluators : gset string;
  f_areas : gset string;
  f_keywords : gset string;
  f_titleKeywords : gset string;
  f_statuses : gset string
}.

(** The object stored under the key [reviewFilters]; a field may be
    missing.  The items of the arrays are strings here, which is what
    [saveFilters] writes.  [Untyped] below models arrays that hold other
    values, on which the keyword filters throw, and agrees with this model
    on strings. *)
Record filtersData : Type := FiltersData {
  d_evaluators : option (list string);
  d_areas : option (list string);
  d_keywords : option (list string);
  d_titleKeywords : option (list string);
  d_statuses : option (list string)
}.

(** What [localStorage.getItem('reviewFilters')] and [JSON.parse] yield:
    nothing stored (or the empty string), a value on which parsing or
    reading the fields throws, or an object. *)
Inductive stored_filters : Type :=
| NoItem
| Unparsable
| Parsed (d : filtersData).

(** [new Set(field || [])] *)
Definition to_set (field : option (list string)) : gset string :=
  list_to_set (default [] field).

(** [loadFilters()]; [None] is the [null] it returns. *)
Definition loadFilters (saved : stored_filters) : option filters :=
  match saved with
  | NoItem => None
  | Unparsable => None
  | Parsed d =>
      Some (FilterState (to_set (d_evaluators d)) (to_set (d_areas d))
                        (to_set (d_keywords d)) (to_set (d_titleKeywords d))
                        (to_set (d_statuses d)))
  end.

(** [set.has(x)] and [set.size > 0] *)
Definition has (s : gset string) (x : string) : bool := bool_decide (x ∈ s).
Definition nonempty (s : gset string) : bool := (0 <? size s)%nat.

Section WithLowercase.
Context `{Lowercase}.

(** The constants [hasEvaluator], [hasArea], [hasKeyword] and [hasTitle]
    of the two filter functions. *)
Definition hasEvaluator (fs : filters) (paper : paper) : bool :=
  existsb (fun e => has (f_evaluators fs) e) (evaluators paper).

Definition hasArea (fs : filters) (paper : paper) : bool :=
  existsb (fun a => has (f_areas fs) a) (primary_area paper).

Definition hasKeyword (fs : filters) (paper : paper) : bool :=
  forallb (fun kw =>
             existsb (fun k => includes (toLowerCase k) (toLowerCase kw))
                     (keywords paper))
          (elements (f_keywords fs)).

Definition hasTitle (fs : filters) (paper : paper) : bool :=
  forallb (fun kw => includes (toLowerCase (title paper)) (toLowerCase kw))
          (elements (f_titleKeywords fs)).

(** app.js, [filterPapers]: the callback given to [allPapers.filter]. *)
Definition filterPapers_keep (fs : filters) (paper : paper) : bool :=
  if nonempty (f_evaluators fs) && negb (hasEvaluator fs paper) then false
  else if nonempty (f_areas fs) && negb (hasArea fs paper) then false
  else if nonempty (f_keywords fs) && negb (hasKeyword fs paper) then false
  else if nonempty (f_titleKeywords fs) && negb (hasTitle fs paper) then false
  else if nonempty (f_statuses fs) && negb (has (f_statuses fs) (status paper))
  then false
  else true.

Definition filterPapers (fs : filters) (allPapers : list paper) : list paper :=
  List.filter (filterPapers_keep fs) allPapers.

(** evaluate.js, [getFilteredPapers]: one round of the [forEach], which
    returns early or pushes the index. *)
Definition getFilteredPapers_visit (fs : filters) (indices : list nat)
    (entry : nat * paper) : list nat :=
  let '(index, paper) := entry in
  if nonempty (f_evaluators fs) && negb (hasEvaluator fs paper) then indices
  else if nonempty (f_areas fs) && negb (hasArea fs paper) then indices
  else if nonempty (f_keywords fs) && negb (hasKeyword fs paper) then indices
  else if nonempty (f_titleKeywords fs) && negb (hasTitle fs paper) then indices
  else if nonempty (f_statuses fs) && negb (has (f_statuses fs) (status paper))
  then indices
  else indices ++ [index].

Definition getFilteredPapers (saved : stored_filters) (allPapers : list paper)
  : list nat :=
  match loadFilters saved with
  | None => imap (fun index _ => index) allPapers
  | Some fs => foldl (getFilteredPapers_visit fs) [] (imap pair allPapers)
  end.

End WithLowercase.

(** *** The filter predicate in the words of the specification *)

(** [t] is a substring of [s]. *)
Definition substring_of (t s : string) : Prop :=
  exists pre post : string, s = pre ++ t ++ post.

Section SpecWithLowercase.
Context `{Lowercase}.

(** [t] is a substring of [s], case ignored. *)
Definition ci_substring_of (t s : string) : Prop :=
  substring_of (toLowerCase t) (toLowerCase s).

Definition passes_filter (fs : filters) (paper : paper) : Prop :=
  (f_evaluators fs <> ∅ ->
     exists e, e ∈ evaluators paper /\ e ∈ f_evaluators fs)
  /\ (f_areas fs <> ∅ ->
        exists a, a ∈ primary_area paper /\ a ∈ f_areas fs)
  /\ (f_keywords fs <> ∅ ->
        forall kw, kw ∈ f_keywords fs ->
          exists k, k ∈ keywords paper /\ ci_substring_of kw k)
  /\ (f_titleKeywords fs <> ∅ ->
        forall kw, kw ∈ f_titleKeywords fs -> ci_substring_of kw (title paper))
  /\ (f_statuses fs <> ∅ -> status paper ∈ f_statuses fs).

End SpecWithLowercase.

End Filters.

(** ** Evaluation workspace (evaluate.js) *)

Module Workspace.
Import F64 Shuffle Model Progress Filters.
Local Open Scope string_scope.

(** *** Configuration *)

Record config : Type := Config {
  showHarmonizedByDefault : bool;
  defaultHarmonizationModel : string;
  enableModelDropdown : bool;
  enableSplitView : bool;
  showReviewerType : bool;
  shuffleReviews : bool;
  shuffleSeed : Z
}.

(** The outcome of a [fetch] followed by [response.json()]: either step
    threw, or a value was obtained. *)
Inductive fetched (A : Type) : Type :=
| FetchFailed
| Fetched (a : A).
Arguments FetchFailed {A}.
Arguments Fetched {A} a.

(** The object assigned in the [catch] branch of [loadConfig]. *)
Definition default_config : config :=
  Config true "gpt-4o-mini" false false false false 42.

(** [loadConfig()]: the value of [appConfig] afterwards.  The body of the
    response may be [null], here [None]. *)
Definition loadConfig (response : fetched (option config)) : option config :=
  match response with
  | Fetched c => c
  | FetchFailed => Some default_config
  end.

(** *** Rendering the reviews *)

(** [appConfig && appConfig.flag] *)
Definition config_flag (flag : config -> bool) (appConfig : option config) : bool :=
  match appConfig with
  | Some c => flag c
  | None => false
  end.

(** [review.harmonization.findIndex(h => h.model === name)] *)
Fixpoint findIndex_model (name : string) (hs : list harmonized) : option nat :=
  match hs with
  | [] => None
  | h :: hs' =>
      if String.eqb (model h) name then Some 0%nat
      else S <$> findIndex_model name hs'
  end.

(** [mainText] of one review item. *)
Definition mainText (appConfig : option config) (review : review) : string :=
  let hasHarmonization := negb (bool_decide (harmonization review = [])) in
  if hasHarmonization && config_flag showHarmonizedByDefault appConfig then
    let defaultHarmonizationIndex :=
      match appConfig with
      | Some c =>
          default 0%nat
            (findIndex_model (defaultHarmonizationModel c) (harmonization review))
      | None => 0%nat
      end in
    match harmonization review !! defaultHarmonizationIndex with
    | Some h => harmonized_text h
    | None => EmptyString
    end
  else text review.

(** One [<details class="review-item">]: the review whose text it shows, the
    text of its main pane, and the index written into the [data-review]
    attribute of its star rows, its source buttons, its comment field and
    its clear button. *)
Record review_item : Type := ReviewItem {
  shown : review;
  main_text : string;
  data_review : nat;
  stars : list Z;
  comment_value : string
}.

(** [renderMetric]: the number of filled stars,
    [currentPaper.reviews[reviewIndex].metrics[key] || 0]; reading the
    metrics of a missing review throws. *)
Definition renderMetric (currentPaper : paper) (key : metric_key)
    (reviewIndex : nat) : option Z :=
  r ← reviews currentPaper !! reviewIndex;
  Some (default 0%Z (get_metric key (review_metrics r))).

(** The filled stars of the five rows of a review. *)
Definition filled_stars (r : review) : list Z :=
  (fun key => default 0%Z (get_metric key (review_metrics r)))
    <$> [Coverage; Specificity; Correctness; Constructiveness; Stance].

(** The value [setupCommentInputs] puts into the comment field:
    [metrics.comment || '']. *)
Definition comment_of (r : review) : string :=
  default EmptyString (comment (review_metrics r)).

(** The order in which [renderReviews] shows the reviews.  With shuffling
    configured the reviews are paired with their original indices, the pairs
    are shuffled with the seed [shuffleSeed + paperIndex], and the reviews
    are taken out again; [None] stands for an exception. *)
Definition reviewsToRender (appConfig : option config) (paperIndex : Z)
    (currentPaper : paper) : option (list review) :=
  match appConfig with
  | Some c =>
      if shuffleReviews c then
        let paperSeed := add (of_Z (shuffleSeed c)) (of_Z paperIndex) in
        let reviewsWithIndices :=
          imap (fun idx review => Some (review, idx)) (reviews currentPaper) in
        shuffled ← shuffleWithSeed None reviewsWithIndices paperSeed;
        mapM (fun item : option (review * nat) => fst <$> item) shuffled
      else Some (reviews currentPaper)
  | None => Some (reviews currentPaper)
  end.

(** The item built by the callback of [reviewsToRender.map]. *)
Definition render_item (appConfig : option config) (currentPaper : paper)
    (index : nat) (review : review) : option review_item :=
  filled ← mapM (fun key => renderMetric currentPaper key index)
                [Coverage; Specificity; Correctness; Constructiveness; Stance];
  r ← reviews currentPaper !! index;
  Some (ReviewItem review (mainText appConfig review) index filled (comment_of r)).

(** [renderReviews()]: the items of the reviews list. *)
Definition renderReviews (appConfig : option config) (paperIndex : Z)
    (currentPaper : paper) : option (list review_item) :=
  match reviews currentPaper with
  | [] => Some []
  | _ =>
      toRender ← reviewsToRender appConfig paperIndex currentPaper;
      mapM (fun entry : nat * review =>
              render_item appConfig currentPaper entry.1 entry.2)
           (imap pair toRender)
  end.

(** *** Handlers of the rating controls, on the current paper *)

(** [currentPaper.reviews[reviewIndex].metrics = m'], as an update of the
    paper. *)
Definition update_metrics (reviewIndex : nat) (f : metrics -> metrics)
    (p : paper) : option paper :=
  r ← reviews p !! reviewIndex;
  Some (with_reviews (<[reviewIndex := with_metrics (f (review_metrics r)) r]> (reviews p)) p).

(** Click on a star of the row with [data-review = reviewIndex]: set the
    metric, then [updatePaperStatus()]. *)
Definition clickStar (reviewIndex : nat) (metricKey : metric_key) (value : Z)
    (currentPaper : paper) : option paper :=
  updatePaperStatus <$> update_metrics reviewIndex (set_metric metricKey value) currentPaper.

(** Click on a source button ([data-value] is ['ai'] or ['human']). *)
Definition clickSource (reviewIndex : nat) (value : string)
    (currentPaper : paper) : option paper :=
  updatePaperStatus <$> update_metrics reviewIndex (set_source value) currentPaper.

(** The metrics object after the seven assignments of the clear handler. *)
Definition cleared (m : metrics) : metrics :=
  Metrics (Some 0%Z) (Some 0%Z) (Some 0%Z) (Some 0%Z) (Some 0%Z)
          (Some EmptyString) (Some EmptyString).

(** Click on the clear button with [data-review = reviewIndex]; [confirmed]
    is the answer to the confirmation dialog.  No handler is bound when the
    review does not exist. *)
Definition clickClear (reviewIndex : nat) (confirmed : bool)
    (currentPaper : paper) : option paper :=
  if confirmed then update_metrics reviewIndex cleared currentPaper
  else (fun _ => currentPaper) <$> reviews currentPaper !! reviewIndex.

(** *** Loading the page *)

(** What the page shows once [loadPapers] has run. *)
Inductive page : Type :=
| ErrorLoading
| NotFound
| Loaded (appConfig : option config) (allPapers : list paper)
         (paperIndex : nat) (filteredPaperIndices : list nat)
         (currentFilteredIndex : Z) (items : list review_item).

(** [filteredPaperIndices.indexOf(paperIndex)] *)
Fixpoint indexOf (l : list nat) (x : nat) : Z :=
  match l with
  | [] => -1
  | y :: l' =>
      if (y =? x)%nat then 0
      else let r := indexOf l' x in if (r <? 0)%Z then -1 else (r + 1)%Z
  end.

Section WithLowercase.
Context `{Lowercase}.

(** [loadPapers()].  [paperParam] is [parseInt(params.get('paper'))], [None]
    for [NaN]. *)
Definition loadPapers (configResponse : fetched (option config))
    (papersResponse : fetched (list paper)) (saved : stored_filters)
    (paperParam : option Z) : page :=
  let appConfig := loadConfig configResponse in
  match papersResponse with
  | FetchFailed => ErrorLoading
  | Fetched allPapers =>
      let filteredPaperIndices := getFilteredPapers saved allPapers in
      match paperParam with
      | Some paperIndex =>
          if (0 <=? paperIndex)%Z && (paperIndex <? Z.of_nat (length allPapers))%Z
          then
            match allPapers !! Z.to_nat paperIndex with
            | Some currentPaper =>
                let currentFilteredIndex :=
                  indexOf filteredPaperIndices (Z.to_nat paperIndex) in
                match renderReviews appConfig paperIndex currentPaper with
                | Some items =>
                    Loaded appConfig allPapers (Z.to_nat paperIndex)
                           filteredPaperIndices currentFilteredIndex items
                | None => ErrorLoading
                end
            | None => NotFound
            end
          else NotFound
      | None => NotFound
      end
  end.

End WithLowercase.

(** [navigateToNextPaper] and [navigateToPreviousPaper]: the paper index
    they navigate to, if any. *)
Definition navigateToNextPaper (filteredPaperIndices : list nat)
    (currentFilteredIndex : Z) : option nat :=
  if (currentFilteredIndex <? Z.of_nat (length filteredPaperIndices) - 1)%Z
  then filteredPaperIndices !! Z.to_nat (currentFilteredIndex + 1)
  else None.

Definition navigateToPreviousPaper (filteredPaperIndices : list nat)
    (currentFilteredIndex : Z) : option nat :=
  if (0 <? currentFilteredIndex)%Z
  then filteredPaperIndices !! Z.to_nat (currentFilteredIndex - 1)
  else None.

(** *** Editing: the workspace as a state machine

    The paper under evaluation is [allPapers[paperIndex]]; [currentPaper]
    is a second reference to that object, so an edit of the current paper
    is an edit of the collection.  Timers are those of the browser: an
    identifier greater than zero, a time at which the callback becomes due,
    and the callback, which here is always the delayed save of one review's
    comment. *)

Inductive save_cause : Type :=
| StarSave
| SourceSave
| ClearSave
| TimerSave (reviewIndex : nat)
| BlurSave (reviewIndex : nat).

#[global] Instance save_cause_eq_dec : EqDecision save_cause.
Proof. solve_decision. Defined.

(** The workspace: the module's variables, the clock in milliseconds, the
    value of each comment field (by [data-review]), the browser's pending
    timers (identifier to due time and review index) with the next
    identifier it hands out, and the bodies of the requests sent so far. *)
Record state : Type := State {
  allPapers : list paper;
  paperIndex : nat;
  appConfig : option config;
  now : nat;
  textareas : gmap nat string;
  commentSaveTimeouts : gmap nat positive;
  timers : gmap positive (nat * nat);
  next_timer : positive;
  saves : list (save_cause * list paper)
}.

Definition currentPaper (s : state) : option paper :=
  allPapers s !! paperIndex s.

(** An assignment through [currentPaper]. *)
Definition set_currentPaper (p : paper) (s : state) : state :=
  State (<[paperIndex s := p]> (allPapers s)) (paperIndex s) (appConfig s)
        (now s) (textareas s) (commentSaveTimeouts s) (timers s)
        (next_timer s) (saves s).

(** [saveEvaluation()]: the collection is serialised and sent at once; the
    response only decides what is logged. *)
Definition saveEvaluation (cause : save_cause) (s : state) : state :=
  State (allPapers s) (paperIndex s) (appConfig s) (now s) (textareas s)
        (commentSaveTimeouts s) (timers s) (next_timer s)
        (saves s ++ [(cause, allPapers s)]).

(** [if (commentSaveTimeouts[reviewIndex])
      clearTimeout(commentSaveTimeouts[reviewIndex])]: the timers left. *)
Definition cancel_timer (recorded : gmap nat positive)
    (pending : gmap positive (nat * nat)) (reviewIndex : nat)
  : gmap positive (nat * nat) :=
  match recorded !! reviewIndex with
  | Some id => delete id pending
  | None => pending
  end.

Definition cancel_pending (reviewIndex : nat) (s : state) : state :=
  State (allPapers s) (paperIndex s) (appConfig s) (now s) (textareas s)
        (commentSaveTimeouts s)
        (cancel_timer (commentSaveTimeouts s) (timers s) reviewIndex)
        (next_timer s) (saves s).

(** [commentSaveTimeouts[reviewIndex] = null] *)
Definition forget_pending (reviewIndex : nat) (s : state) : state :=
  State (allPapers s) (paperIndex s) (appConfig s) (now s) (textareas s)
        (delete reviewIndex (commentSaveTimeouts s)) (timers s) (next_timer s)
        (saves s).

(** [commentSaveTimeouts[reviewIndex] = setTimeout(callback, 600)] *)
Definition schedule_save (reviewIndex : nat) (s : state) : state :=
  let id := next_timer s in
  State (allPapers s) (paperIndex s) (appConfig s) (now s) (textareas s)
        (<[reviewIndex := id]> (commentSaveTimeouts s))
        (<[id := ((now s + 600)%nat, reviewIndex)]> (timers s))
        (Pos.succ id) (saves s).

(** The user's edit of a comment field changes its value. *)
Definition set_textarea (reviewIndex : nat) (value : string) (s : state) : state :=
  State (allPapers s) (paperIndex s) (appConfig s) (now s)
        (<[reviewIndex := value]> (textareas s)) (commentSaveTimeouts s)
        (timers s) (next_timer s) (saves s).

(** [metrics.comment = textarea.value] *)
Definition store_comment (reviewIndex : nat) (s : state) : option state :=
  p ← currentPaper s;
  p' ← update_metrics reviewIndex
          (set_comment (default EmptyString (textareas s !! reviewIndex))) p;
  Some (set_currentPaper p' s).

(** [renderReviews()] builds the comment fields anew, each holding its
    review's stored comment. *)
Definition rebuild_textareas (s : state) : state :=
  match currentPaper s with
  | Some p =>
      State (allPapers s) (paperIndex s) (appConfig s) (now s)
            (list_to_map (imap (fun k r => (k, comment_of r)) (reviews p)))
            (commentSaveTimeouts s) (timers s) (next_timer s) (saves s)
  | None => s
  end.

Definition advance (dt : nat) (s : state) : state :=
  State (allPapers s) (paperIndex s) (appConfig s) (now s + dt)%nat
        (textareas s) (commentSaveTimeouts s) (timers s) (next_timer s)
        (saves s).

Inductive event : Type :=
| Elapse (dt : nat)
| TimerFires (id : positive)
| InputComment (reviewIndex : nat) (value : string)
| BlurComment (reviewIndex : nat)
| ClickStar (reviewIndex : nat) (metricKey : metric_key) (value : Z)
| ClickSource (reviewIndex : nat) (value : string)
| ClickClear (reviewIndex : nat) (confirmed : bool).

(** One event.  [None]: the event cannot happen in this state (no such
    control, a timer that is not pending or not yet due).  A timer may fire
    at its due time or any time later.  A handler runs up to its last
    statement, the save, whose request is sent at once; the re-rendering
    that follows the save of a clear is taken to happen with it. *)
Definition step (s : state) (e : event) : option state :=
  match e with
  | Elapse dt => Some (advance dt s)
  | TimerFires id =>
      match timers s !! id with
      | Some (due, reviewIndex) =>
          if (due <=? now s)%nat then
            let s1 :=
              State (allPapers s) (paperIndex s) (appConfig s) (now s)
                    (textareas s) (commentSaveTimeouts s)
                    (delete id (timers s)) (next_timer s) (saves s) in
            Some (saveEvaluation (TimerSave reviewIndex)
                                 (forget_pending reviewIndex s1))
          else None
      | None => None
      end
  | InputComment reviewIndex value =>
      s1 ← store_comment reviewIndex (set_textarea reviewIndex value s);
      Some (schedule_save reviewIndex (cancel_pending reviewIndex s1))
  | BlurComment reviewIndex =>
      s1 ← store_comment reviewIndex
             (forget_pending reviewIndex (cancel_pending reviewIndex s));
      Some (saveEvaluation (BlurSave reviewIndex) s1)
  | ClickStar reviewIndex metricKey value =>
      p ← currentPaper s;
      p' ← clickStar reviewIndex metricKey value p;
      Some (saveEvaluation StarSave (set_currentPaper p' s))
  | ClickSource reviewIndex value =>
      p ← currentPaper s;
      p' ← clickSource reviewIndex value p;
      Some (saveEvaluation SourceSave (set_currentPaper p' s))
  | ClickClear reviewIndex confirmed =>
      p ← currentPaper s;
      p' ← clickClear reviewIndex confirmed p;
      if confirmed then
        Some (rebuild_textareas
                (saveEvaluation ClearSave (set_currentPaper p' s)))
      else Some s
  end.

(** A sequence of events. *)
Fixpoint run (s : state) (es : list event) : option state :=
  match es with
  | [] => Some s
  | e :: es' => s' ← step s e; run s' es'
  end.

(** The workspace right after the paper was rendered. *)
Definition initial (appConfig : option config) (allPapers : list paper)
    (paperIndex : nat) : state :=
  rebuild_textareas
    (State allPapers paperIndex appConfig 0 ∅ ∅ ∅ 1%positive []).

Inductive reachable : state -> Prop :=
| reachable_initial cfg ps i : reachable (initial cfg ps i)
| reachable_step s e s' : reachable s -> step s e = Some s' -> reachable s'.

(** Saves sent by the delayed save of review [k]. *)
Definition timer_saves (k : nat) (s : state) : nat :=
  length (List.filter (fun sv => bool_decide (sv.1 = TimerSave k)) (saves s)).

(** The comment of review [k] of paper [i] in a collection: in memory
    ([allPapers]) or in the body of a save. *)
Definition stored_comment (papers : list paper) (i k : nat) : option string :=
  p ← papers !! i;
  r ← reviews p !! k;
  comment (review_metrics r).

(** The bookkeeping of the pending saves agrees with the browser's timers:
    every pending timer is the one recorded for its review, every recorded
    timer is pending, and identifiers not yet handed out are not in use. *)
Definition consistent (recorded : gmap nat positive)
    (pending : gmap positive (nat * nat)) (next : positive) : Prop :=
  (forall id due k, pending !! id = Some (due, k) -> recorded !! k = Some id)
  /\ (forall k id, recorded !! k = Some id ->
                   exists due, pending !! id = Some (due, k))
  /\ (forall id, is_Some (pending !! id) -> (id < next)%positive).

Definition timers_consistent (s : state) : Prop :=
  consistent (commentSaveTimeouts s) (timers s) (next_timer s).

(** The keystrokes into the comment field of review [k] come less than
    600 ms after one another, and the field is not blurred meanwhile;
    [since] is the time elapsed since the last of them. *)
Fixpoint within_window (k : nat) (since : nat) (es : list event) : Prop :=
  match es with
  | [] => True
  | Elapse dt :: es' => within_window k (since + dt) es'
  | InputComment k' _ :: es' =>
      if decide (k' = k) then (since < 600)%nat /\ within_window k 0 es'
      else within_window k since es'
  | BlurComment k' :: es' => k' <> k /\ within_window k since es'
  | _ :: es' => within_window k since es'
  end.

End Workspace.

(** ** The numbers the generator returns (evaluate.js, seededRandom) *)

Module Generator.
Import F64 Shuffle.

(** The numbers returned by [n] successive calls of the closure. *)
Fixpoint rng_outputs (n : nat) (state : f64) : list f64 :=
  match n with
  | O => []
  | S n' => let '(state', r) := rng_call state in r :: rng_outputs n' state'
  end.

End Generator.

(** ** The navigation bar (evaluate.js, updateNavigationButtons) *)

Module Page.
Import Model Filters Workspace.
Local Open Scope string_scope.

(** What [updateNavigationButtons()] writes: the two numbers of the
    position text [`${a} / ${b}`] and the [disabled] property of the two
    buttons. *)
Record navigation_bar : Type := NavigationBar {
  position_text : Z * Z;
  prev_disabled : bool;
  next_disabled : bool
}.

Definition updateNavigationButtons (filteredPaperIndices : list nat)
    (currentFilteredIndex : Z) : navigation_bar :=
  NavigationBar
    (if (0 <=? currentFilteredIndex)%Z
     then ((currentFilteredIndex + 1)%Z, Z.of_nat (length filteredPaperIndices))
     else (1%Z, 1%Z))
    (currentFilteredIndex <=? 0)%Z
    (Z.of_nat (length filteredPaperIndices) - 1 <=? currentFilteredIndex)%Z.

End Page.

(** ** The catalog page (app.js) *)

Module Catalog.
Import Model Filters.
Local Open Scope string_scope.

(** One field of the parsed object, as [new Set(field || [])] treats it:
    a falsy value (the field is missing, or [null], [false], [0], ['']) is
    replaced by the empty array; a truthy value that cannot be iterated (a
    number, [true], an object) makes [new Set] throw; an array gives its
    items, which are taken to be strings, as [saveFilters] writes them. *)
Inductive stored_field : Type :=
| FieldFalsy
| FieldNotIterable
| FieldItems (items : list string).

(** What is stored under the key [reviewFilters]: nothing (or the empty
    string), a text that [JSON.parse] rejects, the text [null], whose
    fields cannot be read, or any other value, of which only the five
    fields matter. *)
Inductive stored_item : Type :=
| ItemAbsent
| ItemNotJSON
| ItemNull
| ItemValue (evaluators areas keywords titleKeywords statuses : stored_field).

(** [new Set(field || [])]; [None] when it throws. *)
Definition new_Set (field : stored_field) : option (gset string) :=
  match field with
  | FieldFalsy => Some ∅
  | FieldNotIterable => None
  | FieldItems items => Some (list_to_set items)
  end.

(** The global [filters] before anything is loaded. *)
Definition initial_filters : filters := FilterState ∅ ∅ ∅ ∅ ∅.

(** [loadSavedFilters()]: the five assignments run in order, and an
    exception ends them; the assignments already made stay. *)
Definition loadSavedFilters (saved : stored_item) (fs : filters) : filters :=
  match saved with
  | ItemAbsent | ItemNotJSON | ItemNull => fs
  | ItemValue evaluators areas keywords titleKeywords statuses =>
      match new_Set evaluators with
      | None => fs
      | Some e =>
          let fs :=
            FilterState e (f_areas fs) (f_keywords fs)
                        (f_titleKeywords fs) (f_statuses fs) in
          match new_Set areas with
          | None => fs
          | Some a =>
              let fs :=
                FilterState (f_evaluators fs) a (f_keywords fs)
                            (f_titleKeywords fs) (f_statuses fs) in
              match new_Set keywords with
              | None => fs
              | Some k =>
                  let fs :=
                    FilterState (f_evaluators fs) (f_areas fs) k
                                (f_titleKeywords fs) (f_statuses fs) in
                  match new_Set titleKeywords with
                  | None => fs
                  | Some t =>
                      let fs :=
                        FilterState (f_evaluators fs) (f_areas fs)
                                    (f_keywords fs) t (f_statuses fs) in
                      match new_Set statuses with
                      | None => fs
                      | Some s =>
                          FilterState (f_evaluators fs) (f_areas fs)
                                      (f_keywords fs)
                                      (f_titleKeywords fs) s
                      end
                  end
              end
          end
      end
  end.

(** The same stored item as evaluate.js reads it: its [loadFilters] builds
    the five sets inside one object literal and returns [null] when any
    step throws. *)
Definition field_data (field : stored_field) : option (option (list string)) :=
  match field with
  | FieldFalsy => Some None
  | FieldNotIterable => None
  | FieldItems items => Some (Some items)
  end.

Definition as_stored_filters (saved : stored_item) : stored_filters :=
  match saved with
  | ItemAbsent => NoItem
  | ItemNotJSON | ItemNull => Unparsable
  | ItemValue evaluators areas keywords titleKeywords statuses =>
      match field_data evaluators, field_data areas, field_data keywords,
            field_data titleKeywords, field_data statuses with
      | Some e, Some a, Some k, Some t, Some s => Parsed (FiltersData e a k t s)
      | _, _, _, _, _ => Unparsable
      end
  end.

(** [saveFilters()]: the item stored.  The arrays hold the members of the
    sets; the loaders build sets from them again, so the order in which
    they are listed is not observed. *)
Definition saveFilters (fs : filters) : stored_item :=
  ItemValue (FieldItems (elements (f_evaluators fs)))
            (FieldItems (elements (f_areas fs)))
            (FieldItems (elements (f_keywords fs)))
            (FieldItems (elements (f_titleKeywords fs)))
            (FieldItems (elements (f_statuses fs))).

(** The [type] given to [renderCheckboxList]; the set is
    [filters[type + 's']]. *)
Inductive list_type : Type := evaluator | area | keyword.

Definition get_set (type : list_type) (fs : filters) : gset string :=
  match type with
  | evaluator => f_evaluators fs
  | area => f_areas fs
  | keyword => f_keywords fs
  end.

Definition put_set (type : list_type) (s : gset string) (fs : filters) : filters :=
  match type with
  | evaluator =>
      FilterState s (f_areas fs) (f_keywords fs)
                  (f_titleKeywords fs) (f_statuses fs)
  | area =>
      FilterState (f_evaluators fs) s (f_keywords fs)
                  (f_titleKeywords fs) (f_statuses fs)
  | keyword =>
      FilterState (f_evaluators fs) (f_areas fs) s
                  (f_titleKeywords fs) (f_statuses fs)
  end.

Definition put_titleKeywords (s : gset string) (fs : filters) : filters :=
  FilterState (f_evaluators fs) (f_areas fs) (f_keywords fs) s
              (f_statuses fs).

Definition put_statuses (s : gset string) (fs : filters) : filters :=
  FilterState (f_evaluators fs) (f_areas fs) (f_keywords fs)
              (f_titleKeywords fs) s.

(** The page: the global [filters] and the item in [localStorage]. *)
Record page_state : Type := PageState {
  current : filters;
  reviewFilters : stored_item
}.

Inductive event : Type :=
| CheckboxChange (type : list_type) (value : string) (checked : bool)
| KeywordSearchKeypress (key value : string)
| TitleSearchKeypress (key value : string)
| RemoveKeyword (keyword : string)
| RemoveTitleKeyword (keyword : string)
| StatusChange (value : string) (checked : bool).

(** [set.add(value)] or [set.delete(value)], by the state of the checkbox. *)
Definition toggle_member (checked : bool) (value : string) (s : gset string)
  : gset string :=
  if checked then {[value]} ∪ s else s ∖ {[value]}.

(** A handler that changed the filters ends with [saveFilters()]. *)
Definition changed (fs : filters) : page_state :=
  PageState fs (saveFilters fs).

Section WithTrim.
(** [String.prototype.trim] *)
Variable trim : string -> string.

Definition handle (s : page_state) (e : event) : page_state :=
  match e with
  | CheckboxChange type value checked =>
      changed (put_set type (toggle_member checked value (get_set type (current s)))
                       (current s))
  | KeywordSearchKeypress key value =>
      if String.eqb key "Enter" && negb (String.eqb (trim value) EmptyString)
      then changed (put_set keyword ({[trim value]} ∪ f_keywords (current s))
                            (current s))
      else s
  | TitleSearchKeypress key value =>
      if String.eqb key "Enter" && negb (String.eqb (trim value) EmptyString)
      then changed (put_titleKeywords ({[trim value]} ∪ f_titleKeywords (current s))
                                      (current s))
      else s
  | RemoveKeyword kw =>
      changed (put_set keyword (f_keywords (current s) ∖ {[kw]}) (current s))
  | RemoveTitleKeyword kw =>
      changed (put_titleKeywords (f_titleKeywords (current s) ∖ {[kw]}) (current s))
  | StatusChange value checked =>
      changed (put_statuses (toggle_member checked value (f_statuses (current s)))
                            (current s))
  end.

Definition handle_all (s : page_state) (es : list event) : page_state :=
  foldl handle s es.

End WithTrim.

(** Opening the page: [loadPapers] calls [loadSavedFilters()] on the
    initial filters. *)
Definition open_page (storage : stored_item) : page_state :=
  PageState (loadSavedFilters storage initial_filters) storage.

(** [updateStatistics(papers)]: the four numbers written into the
    statistics bar. *)
Record stats : Type := Stats {
  stats_total : nat;
  stats_completed : nat;
  stats_in_progress : nat;
  stats_not_started : nat
}.

(** One round of the [forEach]. *)
Definition count_status (st : stats) (paper : paper) : stats :=
  if String.eqb (status paper) "completed" then
    Stats (stats_total st) (S (stats_completed st))
          (stats_in_progress st) (stats_not_started st)
  else if String.eqb (status paper) "in_progress" then
    Stats (stats_total st) (stats_completed st)
          (S (stats_in_progress st)) (stats_not_started st)
  else
    Stats (stats_total st) (stats_completed st)
          (stats_in_progress st) (S (stats_not_started st)).

Definition updateStatistics (papers : list paper) : stats :=
  foldl count_status (Stats (length papers) 0 0 0) papers.

End Catalog.

(** ** The evaluator dashboard (evaluator-dashboard.js) *)

Module Dashboard.
Import Model Filters Catalog.
Local Open Scope string_scope.

(** [array.includes(x)] on an array of strings. *)
Definition array_includes (array : list string) (x : string) : bool :=
  existsb (String.eqb x) array.

(** [selectEvaluator]: the constant [evaluatorPapers]. *)
Definition evaluatorPapers (evaluator : string) (allPapers : list paper)
  : list paper :=
  List.filter (fun paper => array_includes (evaluators paper) evaluator) allPapers.

(** The handler of the continue button: the item stored before the
    browser goes to the catalog, or [None] when the handler only shows the
    alert ([selectedEvaluator] is [null], or empty). *)
Definition continue_evaluation (selectedEvaluator : option string)
  : option stored_item :=
  match selectedEvaluator with
  | Some e =>
      if String.eqb e EmptyString then None
      else Some (ItemValue (FieldItems [e]) (FieldItems []) (FieldItems [])
                           (FieldItems []) (FieldItems []))
  | None => None
  end.

End Dashboard.

(** ** What an editing session may change *)

Module Session.
Import Model Progress Workspace.

(** Two reviews that differ at most in their metrics. *)
Definition same_review (r r' : review) : Prop :=
  text r' = text r /\ reviewer r' = reviewer r
  /\ harmonization r' = harmonization r.

(** Two papers that differ at most in their status and in the metrics of
    their reviews. *)
Definition same_paper (p p' : paper) : Prop :=
  title p' = title p /\ abstract p' = abstract p /\ url p' = url p
  /\ evaluators p' = evaluators p /\ primary_area p' = primary_area p
  /\ keywords p' = keywords p
  /\ Forall2 same_review (reviews p) (reviews p').

(** Two collections with the same papers, up to the status and the
    metrics of the paper at index [current]. *)
Definition same_collection (current : nat) (ps ps' : list paper) : Prop :=
  Forall2 same_paper ps ps'
  /\ forall i : nat, i <> current -> ps' !! i = ps !! i.

(** The status field holds what [updatePaperStatus] would write. *)
Definition status_consistent (p : paper) : Prop :=
  status p = status_of (calculateProgress p).

(** An event other than a confirmed clear. *)
Definition not_a_clear (e : event) : Prop :=
  match e with
  | ClickClear _ true => False
  | _ => True
  end.

End Session.

(** ** The chart of the dashboard (evaluator-dashboard.js, updateChart) *)

Module Chart.
Import Model.
Local Open Scope string_scope.

(** The property names every object inherits from [Object.prototype]:
    read on the empty object [areaCounts], they do not give [undefined]. *)
Definition inherited_keys : list string :=
  ["constructor"; "__defineGetter__"; "__defineSetter__"; "hasOwnProperty";
   "__lookupGetter__"; "__lookupSetter__"; "isPrototypeOf";
   "propertyIsEnumerable"; "toString"; "valueOf"; "__proto__";
   "toLocaleString"].

Definition is_digit (c : ascii) : bool :=
  let n := nat_of_ascii c in ((48 <=? n) && (n <=? 57))%nat.

Fixpoint all_digits (s : string) : bool :=
  match s with
  | EmptyString => true
  | String c s' => is_digit c && all_digits s'
  end.

(** A key that an object lists in the order of creation and does not
    inherit: not a name of [Object.prototype], and not a numeral (the keys
    that are array indices are listed first, in numeric order). *)
Definition plain_key (key : string) : bool :=
  negb (existsb (String.eqb key) inherited_keys)
  && negb (match key with EmptyString => false | _ => all_digits key end).

(** [areaCounts[area] = (areaCounts[area] || 0) + 1] on the entries of the
    object, kept in the order in which the keys were created. *)
Fixpoint increment (area : string) (entries : list (string * nat))
  : list (string * nat) :=
  match entries with
  | [] => [(area, 1%nat)]
  | (a, n) :: rest =>
      if String.eqb a area then (a, S n) :: rest
      else (a, n) :: increment area rest
  end.

(** One round of the inner [forEach]; [None]: the key is not a plain one,
    and what the object then holds is not modelled. *)
Definition count_area (entries : option (list (string * nat))) (area : string)
  : option (list (string * nat)) :=
  match entries with
  | Some counts => if plain_key area then Some (increment area counts) else None
  | None => None
  end.

(** [Object.entries(areaCounts)] after the two loops. *)
Definition areaCounts (papers : list paper) : option (list (string * nat)) :=
  foldl (fun entries paper => foldl count_area entries (primary_area paper))
        (Some []) papers.

(** [.sort((a, b) => b[1] - a[1])]: descending by count.  The sort is
    stable, which determines its result: that of inserting the entries from
    the last to the first, each before the first entry that does not have a
    greater count. *)
Fixpoint insert_by_count (e : string * nat) (sorted : list (string * nat))
  : list (string * nat) :=
  match sorted with
  | [] => [e]
  | x :: rest =>
      if (x.2 <=? e.2)%nat then e :: sorted else x :: insert_by_count e rest
  end.

Definition sort_by_count (entries : list (string * nat)) : list (string * nat) :=
  foldr insert_by_count [] entries.

(** [area.length > 40 ? area.substring(0, 37) + '...' : area] *)
Definition area_label (area : string) : string :=
  if (40 <? String.length area)%nat then String.substring 0 37 area ++ "..."
  else area.

(** The tick callback:
    [label.length > 30 ? label.slice(0, 27) + '...' : label] *)
Definition tick_label (label : string) : string :=
  if (30 <? String.length label)%nat then String.substring 0 27 label ++ "..."
  else label.

Record chart_data : Type := ChartData {
  sortedAreas : list (string * nat);
  labels : list string;
  data : list nat
}.

(** [updateChart(papers)]: what is given to the chart. *)
Definition updateChart (papers : list paper) : option chart_data :=
  entries ← areaCounts papers;
  let sortedAreas := take 10 (sort_by_count entries) in
  Some (ChartData sortedAreas ((fun e => area_label e.1) <$> sortedAreas)
                  (snd <$> sortedAreas)).

(** The count recorded for a key, 0 when there is none. *)
Fixpoint recorded (area : string) (entries : list (string * nat)) : nat :=
  match entries with
  | [] => 0%nat
  | (a, n) :: rest => if String.eqb a area then n else recorded area rest
  end.

(** The order of the sorted entries: the count does not increase. *)
Definition by_count (x y : string * nat) : Prop := (y.2 <= x.2)%nat.

(** How often an area is named by the papers. *)
Definition occurrences (area : string) (papers : list paper) : nat :=
  length (List.filter (String.eqb area) (concat (primary_area <$> papers))).

End Chart.

(** ** The theme switch (theme.js) *)

Module Theme.
Local Open Scope string_scope.

(** What the script reads and writes: whether the body has the class
    [theme-dark], its [data-theme] attribute, the item [reviewTheme] of
    [localStorage], and [MEDIA_QUERY.matches] ([None] in a browser without
    [matchMedia]). *)
Record browser : Type := Browser {
  theme_dark : bool;
  data_theme : option string;
  reviewTheme : option string;
  media_matches : option bool
}.

Definition readStoredPreference (b : browser) : option string :=
  match reviewTheme b with
  | Some stored =>
      if String.eqb stored "dark" || String.eqb stored "light" then Some stored
      else None
  | None => None
  end.

Definition systemPreference (b : browser) : string :=
  match media_matches b with
  | Some true => "dark"
  | Some false => "light"
  | None => "light"
  end.

(** [readStoredPreference() || systemPreference()] *)
Definition resolveInitialTheme (b : browser) : string :=
  default (systemPreference b) (readStoredPreference b).

Definition applyTheme (theme : string) (persist : bool) (b : browser) : browser :=
  Browser (String.eqb theme "dark") (Some theme)
          (if persist then Some theme else reviewTheme b) (media_matches b).

Definition toggleTheme (b : browser) : browser :=
  let isCurrentlyDark := theme_dark b in
  let nextTheme := if isCurrentlyDark then "light" else "dark" in
  applyTheme nextTheme true b.

(** [handleSystemChange(event)], with [event.matches]. *)
Definition handleSystemChange (matches : bool) (b : browser) : browser :=
  match readStoredPreference b with
  | Some _ => b
  | None => applyTheme (if matches then "dark" else "light") false b
  end.

Definition initialise (b : browser) : browser :=
  applyTheme (resolveInitialTheme b) false b.

Inductive event : Type :=
| ClickToggle
| SystemChange (matches : bool)
| Reload.

(** One event.  The system preference can change only where there is a
    media query, whose [matches] then changes before the listener runs; a
    reload starts from the page as served, without class or attribute, and
    runs [initialise]. *)
Definition handle (b : browser) (e : event) : browser :=
  match e with
  | ClickToggle => toggleTheme b
  | SystemChange matches =>
      match media_matches b with
      | Some _ =>
          handleSystemChange matches
            (Browser (theme_dark b) (data_theme b) (reviewTheme b) (Some matches))
      | None => b
      end
  | Reload => initialise (Browser false None (reviewTheme b) (media_matches b))
  end.

Definition is_click (e : event) : bool :=
  match e with ClickToggle => true | _ => false end.

End Theme.

(** ** Further controls of the workspace (evaluate.js) *)

Module Controls.
Local Open Scope string_scope.

(** [toggleAllReviews()] on the [open] properties of the review items and
    the text of the button. *)
Record reviews_list : Type := ReviewsList {
  item_open : list bool;
  toggle_text : string
}.

Definition toggleAllReviews (s : reviews_list) : reviews_list :=
  match item_open s with
  | [] => s
  | _ =>
      let anyOpen := existsb (fun item => item) (item_open s) in
      if anyOpen
      then ReviewsList ((fun _ => false) <$> item_open s) "Expand All"
      else ReviewsList ((fun _ => true) <$> item_open s) "Collapse All"
  end.

Section PdfViewer.
(** [String.prototype.trim] and [encodeURIComponent] *)
Variable trim : string -> string.
Variable encodeURIComponent : string -> string.

(** [setupPDFViewer(pdfUrl)]: the [href] of the two links and the [src]
    of the viewer's frame. *)
Definition absoluteUrl (pdfUrl : string) : string :=
  if String.prefix "pdfs/" pdfUrl then "/" ++ pdfUrl else pdfUrl.

Definition viewUrl (pdfUrl : string) : string :=
  let cleanUrl := trim pdfUrl in
  if String.prefix "pdfs/" cleanUrl || String.prefix "/pdfs/" cleanUrl then
    if String.prefix "/" cleanUrl then cleanUrl else "/" ++ cleanUrl
  else if String.prefix "http://" cleanUrl || String.prefix "https://" cleanUrl then
    "/pdf-proxy?url=" ++ encodeURIComponent cleanUrl
  else
    if String.prefix "/" cleanUrl then cleanUrl else "/" ++ cleanUrl.

Definition viewer_src (pdfUrl : string) : string :=
  viewUrl pdfUrl ++ "#view=FitH&navpanes=0&toolbar=1".

End PdfViewer.

End Controls.

(** ** Relations between workspace states and between filters *)

Module Relations.
Import Model Filters Workspace.

(** Every comment field shows the comment stored for its review (the
    empty text when none is stored). *)
Definition fields_show_comments (s : state) : Prop :=
  forall (p : paper) (k : nat) (r : review),
    currentPaper s = Some p -> reviews p !! k = Some r ->
    textareas s !! k = Some (comment_of r).

(** A set that selects by "any of" asks at least as much as another: the
    other asks nothing, or it asks something and accepts no more values. *)
Definition any_of_stricter (s' s : gset string) : Prop :=
  s = ∅ \/ (s' <> ∅ /\ s' ⊆ s).

(** Filters that ask at least as much as others: the word lists, which
    must all match, have grown; the sets of which one value must match are
    stricter. *)
Definition stricter (fs' fs : filters) : Prop :=
  any_of_stricter (f_evaluators fs') (f_evaluators fs)
  /\ any_of_stricter (f_areas fs') (f_areas fs)
  /\ f_keywords fs ⊆ f_keywords fs'
  /\ f_titleKeywords fs ⊆ f_titleKeywords fs'
  /\ any_of_stricter (f_statuses fs') (f_statuses fs).

End Relations.

(** ** The seed of a paper, and the dashboard's selection *)

Module Selection.
Import F64 Shuffle Model Filters Workspace Catalog Dashboard.
Local Open Scope string_scope.

(** [appConfig.shuffleSeed + paperIndex] in [renderReviews]. *)
Definition paperSeed (c : config) (paperIndex : Z) : f64 :=
  add (of_Z (shuffleSeed c)) (of_Z paperIndex).

(** The dashboard: the variable [selectedEvaluator], the item
    [selectedEvaluator] of [localStorage], and the papers listed in the
    sections while they are shown ([None] while they are hidden). *)
Record dashboard : Type := DashboardState {
  selectedEvaluator : option string;
  storedEvaluator : option string;
  listed : option (list paper)
}.

(** [loadSavedEvaluator()]: [saved || null]. *)
Definition loadSavedEvaluator (d : dashboard) : option string :=
  match storedEvaluator d with
  | Some saved => if String.eqb saved EmptyString then None else Some saved
  | None => None
  end.

Section WithPapers.
Variable allPapers : list paper.

(** [selectEvaluator(evaluator)] *)
Definition selectEvaluator (evaluator : string) (d : dashboard) : dashboard :=
  DashboardState (Some evaluator) (Some evaluator)
                 (Some (evaluatorPapers evaluator allPapers)).

(** Opening the dashboard, the collection fetched: the script starts with
    [selectedEvaluator = null] and the sections as served, taken to be
    hidden, and selects the saved evaluator if there is one. *)
Definition open_dashboard (stored : option string) : dashboard :=
  let d := DashboardState None stored None in
  match loadSavedEvaluator d with
  | Some savedEvaluator => selectEvaluator savedEvaluator d
  | None => d
  end.

(** The [change] listener of the dropdown; the empty value is that of the
    placeholder option, for which [hideAllSections()] runs. *)
Definition change_evaluator (value : string) (d : dashboard) : dashboard :=
  if String.eqb value EmptyString
  then DashboardState (selectedEvaluator d) (storedEvaluator d) None
  else selectEvaluator value d.

Definition change_all (d : dashboard) (values : list string) : dashboard :=
  foldl (fun d value => change_evaluator value d) d values.

(** The selection is the stored one, and what is listed is the
    selection's papers. *)
Definition selection_kept (d : dashboard) : Prop :=
  (forall e, selectedEvaluator d = Some e ->
     e <> EmptyString /\ storedEvaluator d = Some e)
  /\ (forall l, listed d = Some l ->
        exists e, selectedEvaluator d = Some e /\ l = evaluatorPapers e allPapers).

End WithPapers.

End Selection.

(** ** The options offered by the dropdown and the checkbox lists *)

Module Options.
Import Model Dashboard.

(** The set built by
    [allPapers.forEach(paper => paper.field.forEach(x => set.add(x)))]. *)
Definition collect (field : paper -> list string) (allPapers : list paper)
  : gset string :=
  foldl (fun set paper => foldl (fun set x => {[x]} ∪ set) set (field paper))
        ∅ allPapers.

(** [array.sort()] on distinct strings: ascending, the strings compared
    unit by unit.  The order is total, so the result does not depend on the
    order in which the set lists its members. *)
Fixpoint insert_sorted (x : string) (sorted : list string) : list string :=
  match sorted with
  | [] => [x]
  | y :: rest =>
      if String.leb x y then x :: sorted else y :: insert_sorted x rest
  end.

Definition sort_strings (l : list string) : list string :=
  foldr insert_sorted [] l.

(** [Array.from(set).sort()]: the options of [initializeEvaluatorDropdown]
    and the items given to [renderCheckboxList] by [initializeFilters]. *)
Definition sorted_options (field : paper -> list string) (allPapers : list paper)
  : list string :=
  sort_strings (elements (collect field allPapers)).

End Options.

(** ** A burst of keystrokes *)

Module Keystrokes.
Import Model Workspace.

(** Keystrokes into the comment field of review [k]: each entry is the
    time since the keystroke before it and the text of the field after
    it. *)
Definition keystrokes (k : nat) (typed : list (nat * string)) : list event :=
  flat_map (fun tv : nat * string => [Elapse tv.1; InputComment k tv.2]) typed.

(** The text of the field after a first keystroke and those that follow. *)
Definition last_typed (v : string) (typed : list (nat * string)) : string :=
  default v (last (typed.*2)).

End Keystrokes.

(** ** The stored filters as JSON holds them *)

(** [JSON.parse] gives arrays whose items need not be strings.  The sets
    of [loadFilters] hold the items as they are; [has] finds no paper value
    in an item that is not a string, and [kw.toLowerCase()] throws on one.
    The exception leaves [getFilteredPapers] and is caught in [loadPapers].
    [Filters] and [Workspace] above are this model with every stored item a
    string. *)
Module Untyped.
Import Model Progress Filters Workspace.
Local Open Scope string_scope.

(** An item of a stored array: a string, or another value (a number, a
    boolean, [null], an array, an object).  Two other values carry the same
    tag exactly when a [Set] takes them for the same value. *)
Inductive item : Type :=
| Text (s : string)
| Other (tag : nat).

#[global] Instance item_eq_dec : EqDecision item.
Proof. solve_decision. Defined.

(** One field of the parsed value as [field || []] and [new Set] treat it:
    falsy, truthy and not iterable, or an array (a string that is not
    empty is iterated as its characters). *)
Inductive field : Type :=
| Falsy
| NotIterable
| Items (items : list item).

(** What [localStorage.getItem('reviewFilters')] holds: nothing (or the
    empty string), a text that [JSON.parse] rejects, the text [null], or
    another value, of which the five fields matter. *)
Inductive stored : Type :=
| Absent
| NotJSON
| Null
| Value (evaluators areas keywords titleKeywords statuses : field).

(** The members of [new Set(array)] in the order of [Array.from]: each
    value where it occurs first. *)
Fixpoint distinct (seen array : list item) : list item :=
  match array with
  | [] => []
  | x :: rest =>
      if bool_decide (x ∈ seen) then distinct seen rest
      else x :: distinct (x :: seen) rest
  end.

(** [new Set(field || [])]; [None] when it throws. *)
Definition new_Set (f : field) : option (list item) :=
  match f with
  | Falsy => Some []
  | NotIterable => None
  | Items items => Some (distinct [] items)
  end.

(** The object returned by [loadFilters]. *)
Record sets : Type := Sets {
  s_evaluators : list item;
  s_areas : list item;
  s_keywords : list item;
  s_titleKeywords : list item;
  s_statuses : list item
}.

(** [loadFilters()]; [None] is the [null] it returns. *)
Definition loadFilters (saved : stored) : option sets :=
  match saved with
  | Absent | NotJSON | Null => None
  | Value evaluators areas keywords titleKeywords statuses =>
      e ← new_Set evaluators;
      a ← new_Set areas;
      k ← new_Set keywords;
      t ← new_Set titleKeywords;
      s ← new_Set statuses;
      Some (Sets e a k t s)
  end.

(** [set.has(x)] for a string [x], and [set.size > 0]. *)
Definition has (set : list item) (x : string) : bool :=
  bool_decide (Text x ∈ set).

Definition nonempty (set : list item) : bool :=
  (0 <? length set)%nat.

(** The result of a callback, or of [every] and [some] over one. *)
Inductive outcome : Type :=
| Yes
| No
| Throws.

Definition of_bool (b : bool) : outcome := if b then Yes else No.

(** [array.every(callback)] and [array.some(callback)] *)
Fixpoint every {A : Type} (callback : A -> outcome) (array : list A) : outcome :=
  match array with
  | [] => Yes
  | x :: rest =>
      match callback x with
      | Yes => every callback rest
      | No => No
      | Throws => Throws
      end
  end.

Fixpoint some {A : Type} (callback : A -> outcome) (array : list A) : outcome :=
  match array with
  | [] => No
  | x :: rest =>
      match callback x with
      | Yes => Yes
      | No => some callback rest
      | Throws => Throws
      end
  end.

Section WithLowercase.
Context `{Lowercase}.

(** [s.includes(kw.toLowerCase())]: [kw.toLowerCase] is not a function, or
    [kw] is [null], when [kw] is not a string. *)
Definition includes_lowered (s : string) (kw : item) : outcome :=
  match kw with
  | Text kw => of_bool (includes s (toLowerCase kw))
  | Other _ => Throws
  end.

Definition hasEvaluator (fs : sets) (paper : paper) : bool :=
  existsb (has (s_evaluators fs)) (evaluators paper).

Definition hasArea (fs : sets) (paper : paper) : bool :=
  existsb (has (s_areas fs)) (primary_area paper).

Definition hasKeyword (fs : sets) (paper : paper) : outcome :=
  every (fun kw => some (fun k => includes_lowered (toLowerCase k) kw)
                        (keywords paper))
        (s_keywords fs).

Definition hasTitle (fs : sets) (paper : paper) : outcome :=
  every (includes_lowered (toLowerCase (title paper))) (s_titleKeywords fs).

(** One round of the [forEach] of [getFilteredPapers]: the indices
    afterwards, or [None] when the round throws. *)
Definition getFilteredPapers_visit (fs : sets) (indices : list nat)
    (entry : nat * paper) : option (list nat) :=
  let '(index, paper) := entry in
  if nonempty (s_evaluators fs) && negb (hasEvaluator fs paper) then Some indices
  else if nonempty (s_areas fs) && negb (hasArea fs paper) then Some indices
  else
    match (if nonempty (s_keywords fs) then hasKeyword fs paper else Yes) with
    | Throws => None
    | No => Some indices
    | Yes =>
        match (if nonempty (s_titleKeywords fs) then hasTitle fs paper else Yes) with
        | Throws => None
        | No => Some indices
        | Yes =>
            if nonempty (s_statuses fs) && negb (has (s_statuses fs) (status paper))
            then Some indices
            else Some (indices ++ [index])%list
        end
    end.

(** [getFilteredPapers()]; [None] when it throws. *)
Definition getFilteredPapers (saved : stored) (allPapers : list paper)
  : option (list nat) :=
  match loadFilters saved with
  | None => Some (imap (fun index _ => index) allPapers)
  | Some fs =>
      foldl (fun indices entry =>
               indices ← indices; getFilteredPapers_visit fs indices entry)
            (Some []) (imap pair allPapers)
  end.

(** [loadPapers()]: an exception of [getFilteredPapers] is caught with
    those of the fetch, before the paper parameter is looked at. *)
Definition loadPapers (configResponse : fetched (option config))
    (papersResponse : fetched (list paper)) (saved : stored)
    (paperParam : option Z) : page :=
  let appConfig := loadConfig configResponse in
  match papersResponse with
  | FetchFailed => ErrorLoading
  | Fetched allPapers =>
      match getFilteredPapers saved allPapers with
      | None => ErrorLoading
      | Some filteredPaperIndices =>
          match paperParam with
          | Some paperIndex =>
              if (0 <=? paperIndex)%Z
                 && (paperIndex <? Z.of_nat (length allPapers))%Z
              then
                match allPapers !! Z.to_nat paperIndex with
                | Some currentPaper =>
                    let currentFilteredIndex :=
                      indexOf filteredPaperIndices (Z.to_nat paperIndex) in
                    match renderReviews appConfig paperIndex currentPaper with
                    | Some items =>
                        Loaded appConfig allPapers (Z.to_nat paperIndex)
                               filteredPaperIndices currentFilteredIndex items
                    | None => ErrorLoading
                    end
                | None => NotFound
                end
              else NotFound
          | None => NotFound
          end
      end
  end.

(** *** When a round throws, in words *)

(** Every string of [kws] occurs in some keyword of the paper, case
    ignored. *)
Definition keywords_found (kws : list string) (paper : paper) : Prop :=
  forall kw, kw ∈ kws ->
    exists k, k ∈ keywords paper
              /\ includes (toLowerCase k) (toLowerCase kw) = true.

(** Every string of [kws] occurs in the title, case ignored. *)
Definition title_found (kws : list string) (paper : paper) : Prop :=
  forall kw, kw ∈ kws ->
    includes (toLowerCase (title paper)) (toLowerCase kw) = true.

(** The paper gets as far as an item that is not a string: it passes the
    evaluator and the area filter, and then either it has keywords and the
    keyword filter holds such an item after strings that are all found, or
    the keyword filter holds only strings, all found, and the title filter
    holds such an item after strings that are all found. *)
Definition reaches_other (fs : sets) (paper : paper) : Prop :=
  (s_evaluators fs = []
   \/ exists e, e ∈ evaluators paper /\ Text e ∈ s_evaluators fs)
  /\ (s_areas fs = []
      \/ exists a, a ∈ primary_area paper /\ Text a ∈ s_areas fs)
  /\ ((exists pre tag post,
          s_keywords fs = ((Text <$> pre) ++ Other tag :: post)%list
          /\ keywords paper <> []
          /\ keywords_found pre paper)
      \/ ((exists kws, s_keywords fs = Text <$> kws /\ keywords_found kws paper)
          /\ exists pre tag post,
               s_titleKeywords fs = ((Text <$> pre) ++ Other tag :: post)%list
               /\ title_found pre paper)).

End WithLowercase.

(** *** The stored items that are all strings *)

Definition text (x : item) : option string :=
  match x with
  | Text s => Some s
  | Other _ => None
  end.

Definition readable (f : field) : bool :=
  match f with
  | NotIterable => false
  | _ => true
  end.

Definition field_texts (f : field) : option (option (list string)) :=
  match f with
  | Items items => Some <$> mapM text items
  | _ => Some None
  end.

(** The stored value as [Filters.stored_filters] has it; [None] when some
    item that [loadFilters] keeps is not a string. *)
Definition typed (saved : stored) : option stored_filters :=
  match saved with
  | Absent => Some NoItem
  | NotJSON | Null => Some Unparsable
  | Value evaluators areas keywords titleKeywords statuses =>
      if readable evaluators && readable areas && readable keywords
         && readable titleKeywords && readable statuses
      then
        e ← field_texts evaluators;
        a ← field_texts areas;
        k ← field_texts keywords;
        t ← field_texts titleKeywords;
        s ← field_texts statuses;
        Some (Parsed (FiltersData e a k t s))
      else Some Unparsable
  end.

(** A set of stored items and a set of strings with the same members. *)
Definition agree (set : list item) (s : gset string) : Prop :=
  (forall x, Text x ∈ set <-> x ∈ s) /\ (forall tag, Other tag ∉ set).

Definition agree_sets (fs : sets) (fs' : filters) : Prop :=
  agree (s_evaluators fs) (f_evaluators fs')
  /\ agree (s_areas fs) (f_areas fs')
  /\ agree (s_keywords fs) (f_keywords fs')
  /\ agree (s_titleKeywords fs) (f_titleKeywords fs')
  /\ agree (s_statuses fs) (f_statuses fs').

End Untyped.

(** * Properties *)

(** ** Rounding *)

Module F64Facts.
Import F64.
Local Open Scope Q_scope.

(** *** Facts about rounding *)

Lemma two_pow_pos (k : Z) : 0 < 2 ^ k.
Proof. apply Qpower_0_lt. reflexivity. Qed.

Lemma two_pow_succ (k : Z) : 2 ^ (k + 1) == 2 * 2 ^ k.
Proof. rewrite Qpower_plus by discriminate. rewrite Qpower_1_r. ring. Qed.

Lemma two_pow_pred (k : Z) : 2 * 2 ^ (k - 1) == 2 ^ k.
Proof.
  rewrite <- (two_pow_succ (k - 1)).
  replace (k - 1 + 1)%Z with k by lia. reflexivity.
Qed.

Lemma two_pow_Z (n : Z) : (0 <= n)%Z -> inject_Z (2 ^ n) == 2 ^ n.
Proof. intros Hn. apply (Zpower_Qpower 2 n Hn). Qed.

Lemma Qlog2_spec (x : Q) :
  0 < x -> 2 ^ Qlog2 x <= x /\ x < 2 ^ (Qlog2 x + 1).
Proof.
  intros Hx. unfold Qlog2.
  destruct x as [p q]. 
  assert (Hp : (0 < p)%Z).
  { unfold Qlt in Hx. simpl in Hx. lia. }
  cbn [Qnum Qden].
  set (lp := Z.log2 p). set (lq := Z.log2 (Z.pos q)).
  destruct (Z.log2_spec p Hp) as [Hp1 Hp2]. fold lp in Hp1, Hp2.
  destruct (Z.log2_spec (Z.pos q) (Pos2Z.is_pos q)) as [Hq1 Hq2]. fold lq in Hq1, Hq2.
  assert (Hlp : (0 <= lp)%Z) by apply Z.log2_nonneg.
  assert (Hlq : (0 <= lq)%Z) by apply Z.log2_nonneg.
  pose proof (two_pow_pos lp) as HA. pose proof (two_pow_pos lq) as HB.
  pose proof (two_pow_pos (lp - lq)) as HT.
  assert (HTB : 2 ^ (lp - lq) * 2 ^ lq == 2 ^ lp).
  { rewrite <- Qpower_plus by discriminate.
    replace (lp - lq + lq)%Z with lp by lia. reflexivity. }
  assert (Hxq : (p # q) * inject_Z (Z.pos q) == inject_Z p).
  { unfold Qeq, Qmult, inject_Z. simpl. lia. }
  assert (HpA : 2 ^ lp <= inject_Z p).
  { rewrite <- two_pow_Z by lia. rewrite <- Zle_Qle. exact Hp1. }
  assert (HpA2 : inject_Z p < 2 * 2 ^ lp).
  { rewrite <- two_pow_succ. rewrite <- two_pow_Z by lia.
    rewrite <- Zlt_Qlt. unfold Z.succ in Hp2. exact Hp2. }
  assert (HqB : 2 ^ lq <= inject_Z (Z.pos q)).
  { rewrite <- two_pow_Z by lia. rewrite <- Zle_Qle. exact Hq1. }
  assert (HqB2 : inject_Z (Z.pos q) < 2 * 2 ^ lq).
  { rewrite <- two_pow_succ. rewrite <- two_pow_Z by lia.
    rewrite <- Zlt_Qlt. unfold Z.succ in Hq2. exact Hq2. }
  assert (Hqpos : 0 < inject_Z (Z.pos q)).
  { change 0 with (inject_Z 0). rewrite <- Zlt_Qlt. lia. }
  set (X := p # q) in *. set (Qq := inject_Z (Z.pos q)) in *.
  set (Pp := inject_Z p) in *. set (A := 2 ^ lp) in *. set (B := 2 ^ lq) in *.
  clearbody X Qq Pp A B.
  destruct (Qle_bool (2 ^ (lp - lq)) X) eqn:Hc.
  - apply Qle_bool_iff in Hc. split; [exact Hc|].
    rewrite two_pow_succ. set (T := 2 ^ (lp - lq)) in *. clearbody T.
    apply Qnot_le_lt. intros Hn.
    assert (2 * T * Qq <= X * Qq) by (apply Qmult_le_compat_r; lra).
    assert (2 * T * B <= 2 * T * Qq).
    { apply Qmult_le_l; lra. }
    lra.
  - assert (Hlt : X < 2 ^ (lp - lq)).
    { apply Qnot_le_lt. intros Hn. apply Qle_bool_iff in Hn. congruence. }
    replace (lp - lq - 1 + 1)%Z with (lp - lq)%Z by lia.
    split; [|exact Hlt].
    pose proof (two_pow_pred (lp - lq)) as Hpred.
    pose proof (two_pow_pos (lp - lq - 1)) as HS.
    set (T := 2 ^ (lp - lq)) in *. set (S := 2 ^ (lp - lq - 1)) in *.
    clearbody T S.
    apply Qnot_lt_le. intros Hn.
    assert (X * Qq <= S * Qq) by (apply Qmult_le_compat_r; lra).
    assert (S * Qq < S * (2 * B)).
    { apply Qmult_lt_l; lra. }
    assert (S * (2 * B) == T * B) by (rewrite <- Hpred; ring).
    lra.
Qed.

Lemma Qlog2_unique (x : Q) (k : Z) :
  0 < x -> 2 ^ k <= x -> x < 2 ^ (k + 1) -> Qlog2 x = k.
Proof.
  intros Hx Hlo Hhi. destruct (Qlog2_spec x Hx) as [Hlo' Hhi'].
  assert (H1 : (k < Qlog2 x + 1)%Z).
  { apply (Qpower_lt_compat_l_inv 2); [|reflexivity].
    eapply Qle_lt_trans; eassumption. }
  assert (H2 : (Qlog2 x < k + 1)%Z).
  { apply (Qpower_lt_compat_l_inv 2); [|reflexivity].
    eapply Qle_lt_trans; eassumption. }
  lia.
Qed.

Lemma Qlog2_comp (x y : Q) : 0 < x -> x == y -> Qlog2 x = Qlog2 y.
Proof.
  intros Hx Hxy. symmetry.
  destruct (Qlog2_spec x Hx) as [Hlo Hhi].
  apply Qlog2_unique; rewrite <- Hxy; assumption.
Qed.

Lemma rne_floor (s : Q) : (Qfloor s <= rne s <= Qfloor s + 1)%Z.
Proof.
  unfold rne. destruct (Qcompare _ _); [destruct (Z.even _)|..]; lia.
Qed.

Lemma rne_err (s : Q) :
  inject_Z (rne s) - s <= 1 # 2 /\ s - inject_Z (rne s) <= 1 # 2.
Proof.
  pose proof (Qfloor_le s) as Hlo. pose proof (Qlt_floor s) as Hhi.
  rewrite inject_Z_plus in Hhi. change (inject_Z 1) with 1 in Hhi.
  unfold rne. set (m := Qfloor s) in *.
  destruct (Qcompare (s - inject_Z m) (1 # 2)) eqn:Hc.
  - apply Qeq_alt in Hc. destruct (Z.even m).
    + split; lra.
    + rewrite inject_Z_plus. change (inject_Z 1) with 1. split; lra.
  - apply Qlt_alt in Hc. split; lra.
  - apply Qgt_alt in Hc. rewrite inject_Z_plus. change (inject_Z 1) with 1.
    split; lra.
Qed.

Lemma rne_comp (s t : Q) : s == t -> rne s = rne t.
Proof.
  intros Hst. unfold rne. rewrite (Qfloor_comp _ _ Hst).
  assert (Hc : Qcompare (s - inject_Z (Qfloor t)) (1 # 2)
               = Qcompare (t - inject_Z (Qfloor t)) (1 # 2)).
  { apply Qcompare_comp; [rewrite Hst|]; reflexivity. }
  rewrite Hc. reflexivity.
Qed.

#[global] Instance rne_proper : Proper (Qeq ==> eq) rne.
Proof. intros s t Hst. apply rne_comp. exact Hst. Qed.

Lemma rne_inject_Z (n : Z) : rne (inject_Z n) = n.
Proof.
  unfold rne. rewrite Qfloor_Z.
  assert (Hc : Qcompare (inject_Z n - inject_Z n) (1 # 2) = Lt).
  { apply (proj1 (Qlt_alt _ _)).
    assert (H0 : inject_Z n - inject_Z n == 0) by ring.
    rewrite H0. reflexivity. }
  rewrite Hc. reflexivity.
Qed.

Lemma round_pos_comp (x y : Q) : 0 < x -> x == y -> round_pos x = round_pos y.
Proof.
  intros Hx Hxy. unfold round_pos, ulp_exp.
  rewrite (Qlog2_comp x y Hx Hxy).
  set (e := Z.max (Qlog2 y - 52) emin).
  assert (He : x / 2 ^ e == y / 2 ^ e) by (rewrite Hxy; reflexivity).
  rewrite (rne_comp _ _ He). reflexivity.
Qed.

Lemma round64_comp (x y : Q) : x == y -> round64 x = round64 y.
Proof.
  intros Hxy. unfold round64.
  assert (Hc : Qcompare x 0 = Qcompare y 0).
  { apply Qcompare_comp; [exact Hxy|reflexivity]. }
  rewrite Hc. destruct (Qcompare y 0) eqn:Hy; [reflexivity|..].
  - apply Qlt_alt in Hy.
    assert (Hn : - x == - y) by (rewrite Hxy; reflexivity).
    rewrite (round_pos_comp (- x) (- y)); [reflexivity| |exact Hn].
    rewrite Hxy. lra.
  - apply Qgt_alt in Hy.
    rewrite (round_pos_comp x y); [reflexivity| |exact Hxy].
    rewrite Hxy. lra.
Qed.

Lemma Qlog2_inject_Z (z : Z) : (0 < z)%Z -> Qlog2 (inject_Z z) = Z.log2 z.
Proof.
  intros Hz. destruct (Z.log2_spec z Hz) as [Hlo Hhi].
  pose proof (Z.log2_nonneg z) as Hk.
  apply Qlog2_unique.
  - change 0 with (inject_Z 0). rewrite <- Zlt_Qlt. exact Hz.
  - rewrite <- two_pow_Z by lia. rewrite <- Zle_Qle. exact Hlo.
  - rewrite <- two_pow_Z by lia. rewrite <- Zlt_Qlt. exact Hhi.
Qed.

Lemma inject_Z_pos (z : Z) : (0 < z)%Z -> 0 < inject_Z z.
Proof. intros Hz. change 0 with (inject_Z 0). rewrite <- Zlt_Qlt. exact Hz. Qed.

(** Integers below 2^53 are representable. *)
Lemma round_pos_small (z : Z) :
  (0 < z < 2 ^ 53)%Z -> round_pos (inject_Z z) == inject_Z z.
Proof.
  intros [Hz Hlt]. unfold round_pos, ulp_exp.
  rewrite Qlog2_inject_Z by exact Hz.
  pose proof (Z.log2_nonneg z) as Hk.
  assert (Hk' : (Z.log2 z < 53)%Z) by (apply Z.log2_lt_pow2; lia).
  set (k := Z.log2 z) in *. clearbody k.
  replace (Z.max (k - 52) emin) with (- (52 - k))%Z by (unfold emin; lia).
  pose proof (two_pow_pos (52 - k)) as HP.
  assert (HPz : inject_Z (2 ^ (52 - k)) == 2 ^ (52 - k)) by (apply two_pow_Z; lia).
  pose proof (Qpower_opp 2 (52 - k)) as HE.
  set (E := 2 ^ (- (52 - k))) in *. set (P := 2 ^ (52 - k)) in *.
  clearbody E P.
  assert (Hs : inject_Z z / E == inject_Z (z * 2 ^ (52 - k))).
  { rewrite inject_Z_mult, HPz, HE. field. lra. }
  rewrite (rne_comp _ _ Hs), rne_inject_Z.
  rewrite inject_Z_mult, HPz, HE. field. lra.
Qed.

(** From 2^53 on, a rounded integer is even. *)
Lemma round_pos_large (z : Z) :
  (2 ^ 53 <= z)%Z ->
  exists w : Z, round_pos (inject_Z z) == inject_Z w
                /\ Z.even w = true /\ (2 ^ 53 <= w)%Z.
Proof.
  intros Hz. assert (Hz0 : (0 < z)%Z) by lia.
  unfold round_pos, ulp_exp. rewrite Qlog2_inject_Z by exact Hz0.
  assert (Hk : (53 <= Z.log2 z)%Z).
  { change 53%Z with (Z.log2 (2 ^ 53)). apply Z.log2_le_mono. exact Hz. }
  destruct (Z.log2_spec z Hz0) as [Hlo _].
  set (k := Z.log2 z) in *. clearbody k.
  replace (Z.max (k - 52) emin) with (k - 52)%Z by (unfold emin; lia).
  set (e := (k - 52)%Z). assert (He : (1 <= e)%Z) by (unfold e; lia).
  set (m := rne (inject_Z z / 2 ^ e)).
  exists (m * 2 ^ e)%Z. split; [|split].
  - rewrite inject_Z_mult, two_pow_Z by lia. reflexivity.
  - rewrite Z.even_mul. replace e with (Z.succ (e - 1)) by lia.
    rewrite Z.pow_succ_r by lia. rewrite Z.even_mul. simpl.
    apply orb_true_r.
  - assert (Hm : (2 ^ 52 <= m)%Z).
    { etransitivity; [|apply rne_floor].
      rewrite <- (Qfloor_Z (2 ^ 52)). apply Qfloor_resp_le.
      pose proof (two_pow_pos e) as HE.
      apply Qle_shift_div_l; [exact HE|].
      rewrite <- two_pow_Z by lia. rewrite <- inject_Z_mult, <- Zle_Qle.
      rewrite <- Z.pow_add_r by lia.
      replace (52 + e)%Z with k by (unfold e; lia). exact Hlo. }
    assert (H2 : (2 <= 2 ^ e)%Z).
    { change 2%Z with (2 ^ 1)%Z at 1. apply Z.pow_le_mono_r; lia. }
    change (2 ^ 53)%Z with (2 ^ 52 * 2)%Z. apply Z.mul_le_mono_nonneg; lia.
Qed.

Lemma Qred_inject_Z (z : Z) : Qred (inject_Z z) = inject_Z z.
Proof.
  unfold inject_Z, Qred.
  pose proof (Z.ggcd_gcd z 1) as Hg.
  pose proof (Z.ggcd_correct_divisors z 1) as Hd.
  destruct (Z.ggcd z 1) as [g [a b]] eqn:E. cbn [fst snd] in Hg, Hd.
  rewrite Z.gcd_1_r in Hg. destruct Hd as [Ha Hb].
  assert (Hz : a = z) by lia. assert (Hb1 : b = 1%Z) by lia.
  rewrite Hz, Hb1. reflexivity.
Qed.

Lemma Fin_of_Qeq (y : Q) (z : Z) : y == inject_Z z -> Fin (Qred y) = Fin (inject_Z z).
Proof.
  intros H. f_equal. rewrite <- (Qred_inject_Z z). apply Qred_complete. exact H.
Qed.

Lemma Qopp_opp_eq (q : Q) : - - q = q.
Proof. destruct q as [n d]. unfold Qopp. cbn. rewrite Z.opp_involutive. reflexivity. Qed.

(** Rounding is symmetric around zero. *)
Lemma round64_opp (x : Q) : round64 (- x) = neg (round64 x).
Proof.
  unfold round64.
  destruct (Qcompare x 0) eqn:Hx.
  - apply Qeq_alt in Hx.
    assert (Hc : Qcompare (- x) 0 = Eq) by (apply (proj1 (Qeq_alt _ _)); lra).
    rewrite Hc. reflexivity.
  - apply Qlt_alt in Hx.
    assert (Hc : Qcompare (- x) 0 = Gt) by (apply (proj1 (Qgt_alt _ _)); lra).
    rewrite Hc. cbv zeta. destruct (Qle_bool _ _); [reflexivity|].
    cbn [neg]. rewrite Qred_opp, Qopp_opp_eq. reflexivity.
  - apply Qgt_alt in Hx.
    assert (Hc : Qcompare (- x) 0 = Lt) by (apply (proj1 (Qlt_alt _ _)); lra).
    rewrite Hc. cbv zeta.
    rewrite (round_pos_comp (- - x) x) by lra.
    destruct (Qle_bool _ _); [reflexivity|].
    cbn [neg]. rewrite Qred_opp. reflexivity.
Qed.

Lemma two_pow_53_lt_1024 : 2 ^ 53 < 2 ^ 1024.
Proof. apply Qpower_lt_compat_l; [lia|reflexivity]. Qed.

Lemma round64_pos_exact (z : Z) :
  (0 < z <= 2 ^ 53)%Z -> round64 (inject_Z z) = Fin (inject_Z z).
Proof.
  intros [Hz Hle].
  destruct (Z.eq_dec z (2 ^ 53)%Z) as [->|Hne]; [vm_compute; reflexivity|].
  unfold round64.
  assert (Hc : Qcompare (inject_Z z) 0 = Gt).
  { apply (proj1 (Qgt_alt _ _)). apply inject_Z_pos. exact Hz. }
  rewrite Hc. cbv zeta.
  assert (Hy : round_pos (inject_Z z) == inject_Z z) by (apply round_pos_small; lia).
  destruct (Qle_bool (2 ^ 1024) (round_pos (inject_Z z))) eqn:Ho.
  - exfalso. apply Qle_bool_iff in Ho. rewrite Hy in Ho.
    pose proof two_pow_53_lt_1024 as Hp.
    assert (Hz53 : inject_Z z <= 2 ^ 53).
    { rewrite <- (two_pow_Z 53) by lia. rewrite <- Zle_Qle. exact Hle. }
    apply (Qlt_irrefl (2 ^ 1024)).
    eapply Qle_lt_trans; [exact Ho|]. eapply Qle_lt_trans; eassumption.
  - apply Fin_of_Qeq. exact Hy.
Qed.

Lemma round64_pos_large (z : Z) :
  (2 ^ 53 < z)%Z -> big_even (round64 (inject_Z z)).
Proof.
  intros Hz. unfold round64.
  assert (Hc : Qcompare (inject_Z z) 0 = Gt).
  { apply (proj1 (Qgt_alt _ _)). apply inject_Z_pos. lia. }
  rewrite Hc. cbv zeta.
  destruct (round_pos_large z) as (w & Hw & Hev & Hbig); [lia|].
  destruct (Qle_bool _ _); [constructor|].
  rewrite (Fin_of_Qeq _ _ Hw). constructor; [exact Hev|lia].
Qed.

Lemma big_even_neg (x : f64) : big_even x -> big_even (neg x).
Proof.
  intros [| |w Hev Hbig]; cbn [neg]; [constructor|constructor|].
  change (- inject_Z w) with (inject_Z (- w)).
  apply (big_even_fin (- w)); [rewrite Z.even_opp; exact Hev|lia].
Qed.

(** Rounding an integer: exact up to 2^53 in magnitude, an even integer or
    an infinity beyond. *)
Lemma round64_Z (z : Z) :
  ((Z.abs z <= 2 ^ 53)%Z /\ round64 (inject_Z z) = Fin (inject_Z z))
  \/ ((2 ^ 53 < Z.abs z)%Z /\ big_even (round64 (inject_Z z))).
Proof.
  destruct (Z.lt_trichotomy z 0%Z) as [Hneg|[->|Hpos]].
  - replace (inject_Z z) with (- inject_Z (- z)).
    2:{ unfold inject_Z, Qopp. cbn. rewrite Z.opp_involutive. reflexivity. }
    rewrite round64_opp.
    destruct (Z_le_gt_dec (- z) (2 ^ 53)%Z) as [Hle|Hgt].
    + left. split; [lia|]. rewrite round64_pos_exact by lia. reflexivity.
    + right. split; [lia|]. apply big_even_neg, round64_pos_large. lia.
  - left. split; [lia|]. reflexivity.
  - destruct (Z_le_gt_dec z (2 ^ 53)%Z) as [Hle|Hgt].
    + left. split; [lia|]. apply round64_pos_exact. lia.
    + right. split; [lia|]. apply round64_pos_large. lia.
Qed.

(** In the normal range rounding moves a value by at most the fraction
    [eps] of itself. *)
Lemma round_pos_rel (x : Q) :
  0 < x -> 2 ^ (-1022) <= x ->
  x - x * eps <= round_pos x /\ round_pos x <= x + x * eps.
Proof.
  intros Hx Hnorm.
  destruct (Qlog2_spec x Hx) as [Hlo Hhi].
  assert (Hk : (-1022 < Qlog2 x + 1)%Z).
  { apply (Qpower_lt_compat_l_inv 2); [|reflexivity].
    eapply Qle_lt_trans; eassumption. }
  unfold round_pos, ulp_exp.
  set (k := Qlog2 x) in *. clearbody k.
  replace (Z.max (k - 52) emin) with (k - 52)%Z by (unfold emin; lia).
  pose proof (two_pow_pos (k - 52)) as HE.
  assert (HEk : 2 ^ (k - 52) * 4503599627370496 == 2 ^ k).
  { change 4503599627370496 with (2 ^ 52).
    rewrite <- Qpower_plus by discriminate.
    replace (k - 52 + 52)%Z with k by lia. reflexivity. }
  destruct (rne_err (x / 2 ^ (k - 52))) as [Hup Hdn].
  set (m := inject_Z (rne (x / 2 ^ (k - 52)))) in *.
  assert (Hs : x / 2 ^ (k - 52) * 2 ^ (k - 52) == x) by (field; lra).
  set (E := 2 ^ (k - 52)) in *. set (K := 2 ^ k) in *.
  set (s := x / E) in *. clearbody m E K s.
  assert (H1 : (m - s) * E <= (1 # 2) * E) by (apply Qmult_le_compat_r; lra).
  assert (H2 : (s - m) * E <= (1 # 2) * E) by (apply Qmult_le_compat_r; lra).
  unfold eps. split; lra.
Qed.

Lemma round64_pos_rel (x : Q) :
  0 < x -> 2 ^ (-1022) <= x -> x <= 2 ^ 1023 ->
  exists q : Q, round64 x = Fin q /\ x - x * eps <= q /\ q <= x + x * eps.
Proof.
  intros Hx Hnorm Hmax.
  destruct (round_pos_rel x Hx Hnorm) as [Hlo Hhi].
  unfold round64.
  assert (Hc : Qcompare x 0 = Gt) by (apply (proj1 (Qgt_alt _ _)); exact Hx).
  rewrite Hc. cbv zeta.
  pose proof (two_pow_succ 1023) as Hsucc. change (1023 + 1)%Z with 1024%Z in Hsucc.
  destruct (Qle_bool (2 ^ 1024) (round_pos x)) eqn:Ho.
  - exfalso. apply Qle_bool_iff in Ho. rewrite Hsucc in Ho.
    set (A := 2 ^ 1023) in *. clearbody A. unfold eps in Hhi. lra.
  - exists (Qred (round_pos x)). split; [reflexivity|].
    rewrite Qred_correct. split; assumption.
Qed.

Lemma Qtrunc_inject_Z (z : Z) : Qtrunc (inject_Z z) = z.
Proof. unfold Qtrunc. destruct (Qle_bool _ _); [apply Qfloor_Z|apply Qceiling_Z]. Qed.

(** Masking with 0x7fffffff keeps the low 31 bits of an integer. *)
Lemma bitand_mask31 (v : Z) :
  bitand (Fin (inject_Z v)) (Fin (inject_Z 2147483647)) = (v mod 2 ^ 31)%Z.
Proof.
  unfold bitand. cbn [ToInt32]. rewrite !Qtrunc_inject_Z.
  change (if (2147483647 mod 2 ^ 32 <? 2 ^ 31)%Z
          then (2147483647 mod 2 ^ 32)%Z
          else (2147483647 mod 2 ^ 32 - 2 ^ 32)%Z) with (Z.ones 31).
  rewrite Z.land_ones by lia.
  assert (Hdiv : ((v mod 2 ^ 32) mod 2 ^ 31 = v mod 2 ^ 31)%Z).
  { apply Z.mod_mod_divide. exists 2%Z. reflexivity. }
  destruct (v mod 2 ^ 32 <? 2 ^ 31)%Z; [exact Hdiv|].
  replace (v mod 2 ^ 32 - 2 ^ 32)%Z with (v mod 2 ^ 32 + (-2) * 2 ^ 31)%Z by lia.
  rewrite Z_mod_plus_full. exact Hdiv.
Qed.

(** *** Known values of binary64 arithmetic *)

(** 0.1 is 0x3FB999999999999A and 1/3 is 0x3FD5555555555555. *)
Example tenth : round64 (1 # 10) = Fin (3602879701896397 # 36028797018963968).
Proof. vm_compute. reflexivity. Qed.

Example third : div (of_Z 1) (of_Z 3) = Fin (6004799503160661 # 18014398509481984).
Proof. vm_compute. reflexivity. Qed.

(** 0.1 + 0.2 is 0.30000000000000004, that is 0x3FD3333333333334. *)
Example tenth_plus_fifth :
  add (round64 (1 # 10)) (round64 (2 # 10))
  = Fin (1351079888211149 # 4503599627370496).
Proof. vm_compute. reflexivity. Qed.

(** Above 2^53 only even integers exist; a tie goes to the even mantissa. *)
Example tie_down : of_Z (2 ^ 53 + 1) = of_Z (2 ^ 53).
Proof. vm_compute. reflexivity. Qed.

Example tie_up : of_Z (2 ^ 53 + 3) = of_Z (2 ^ 53 + 4).
Proof. vm_compute. reflexivity. Qed.

(** The largest finite number, and the overflow just above it. *)
Example largest_finite :
  round64 (inject_Z ((2 ^ 53 - 1) * 2 ^ 971))
  = Fin (inject_Z ((2 ^ 53 - 1) * 2 ^ 971)).
Proof. vm_compute. reflexivity. Qed.

Example overflow : round64 (inject_Z (2 ^ 1024 - 2 ^ 970)) = PInf.
Proof. vm_compute. reflexivity. Qed.

(** ToInt32 wraps around and truncates toward zero. *)
Example to_int32_wraps :
  ToInt32 (of_Z (2 ^ 31)) = (- 2 ^ 31)%Z
  /\ ToInt32 (of_Z (2 ^ 32 + 5)) = 5%Z
  /\ ToInt32 (round64 (- (7 # 2))) = (-3)%Z.
Proof. vm_compute. repeat split. Qed.

End F64Facts.

(** ** The shuffle *)

Module ShuffleFacts.
Import F64 F64Facts Shuffle.
Local Open Scope Z_scope.

(** *** The generator on concrete seeds *)

(** The first state for seed 42, computed without any rounding. *)
Example next_state_42 : next_state (of_Z 42) = of_Z 1250496027.
Proof. vm_compute. reflexivity. Qed.

(** The seed 230538014 is the one integer below 2^31 for which
    [seed * 1103515245 + 12345] has all of its low 31 bits set.  The product
    exceeds 2^53 and is rounded to a multiple of 32 before the mask is
    applied: the state becomes 0, not 0x7fffffff. *)
Example next_state_rounds :
  ((230538014 * 1103515245 + 12345) mod 2 ^ 31 = 2147483647)%Z
  /\ next_state (of_Z 230538014) = of_Z 0.
Proof. vm_compute. split; reflexivity. Qed.

(** *** The generator stays below its modulus *)

Lemma integral_of_Z (z : Z) : integral (of_Z z).
Proof.
  unfold of_Z. destruct (round64_Z z) as [[_ ->]|[_ Hbig]]; [constructor|].
  destruct Hbig; constructor.
Qed.

Lemma of_Z_exact (z : Z) : Z.abs z <= 2 ^ 53 -> of_Z z = Fin (inject_Z z).
Proof.
  intros Hz. unfold of_Z. destruct (round64_Z z) as [[_ ->]|[Hbig _]]; [reflexivity|lia].
Qed.

(** The low 31 bits of an infinity or of an even integer are an even
    number below 2^31. *)
Lemma mask_big_even (x : f64) :
  big_even x ->
  exists s : Z, bitand x (Fin (inject_Z 2147483647)) = s /\ 0 <= s < 2147483647.
Proof.
  intros [| |w Hev Hbig]; [exists 0; split; [reflexivity|lia]..|].
  exists (w mod 2 ^ 31). split; [apply bitand_mask31|].
  pose proof (Z.mod_pos_bound w (2 ^ 31) ltac:(lia)) as Hb.
  pose proof (Z.div_mod w (2 ^ 31) ltac:(lia)) as Hdm.
  apply Z.even_spec in Hev. destruct Hev as [h Hh].
  set (t := w / 2 ^ 31) in *. clearbody t.
  assert (Hne : w mod 2 ^ 31 <> 2147483647) by lia.
  lia.
Qed.

(** The sum [x + 12345], masked, for an integer [x] that came out of a
    rounding: either [x] is exact and was produced from [w * 1103515245], or
    it has magnitude 2^53 or more. *)
Lemma mask_add_increment (u : Z) :
  (Z.abs u < 2 ^ 53 -> exists w : Z, u = w * 1103515245) ->
  exists s : Z,
    bitand (add (Fin (inject_Z u)) (Fin (inject_Z 12345)))
           (Fin (inject_Z 2147483647)) = s
    /\ 0 <= s < 2147483647.
Proof.
  intros Hu. cbn [add].
  rewrite (round64_comp _ (inject_Z (u + 12345))) by (rewrite inject_Z_plus; reflexivity).
  destruct (round64_Z (u + 12345)) as [[Hsmall ->]|[_ Hbig]];
    [|apply mask_big_even; exact Hbig].
  exists ((u + 12345) mod 2 ^ 31). split; [apply bitand_mask31|].
  pose proof (Z.mod_pos_bound (u + 12345) (2 ^ 31) ltac:(lia)) as Hb.
  pose proof (Z.div_mod (u + 12345) (2 ^ 31) ltac:(lia)) as Hdm.
  assert (Hne : (u + 12345) mod 2 ^ 31 <> 2147483647).
  { intros Heq. rewrite Heq in Hdm.
    set (t := (u + 12345) / 2 ^ 31) in *. clearbody t.
    destruct (Z_lt_le_dec (Z.abs u) (2 ^ 53)) as [Hlt|Hge].
    - destruct (Hu Hlt) as [w ->]. lia.
    - lia. }
  lia.
Qed.

Lemma next_state_range (state : f64) :
  integral state ->
  exists s : Z, next_state state = Fin (inject_Z s) /\ 0 <= s < 2147483647.
Proof.
  intros Hint. unfold next_state.
  rewrite !(of_Z_exact 1103515245), !(of_Z_exact 12345), !(of_Z_exact 2147483647) by (cbn; lia).
  assert (Hmask : exists s : Z,
    bitand (add (mul state (Fin (inject_Z 1103515245))) (Fin (inject_Z 12345)))
           (Fin (inject_Z 2147483647)) = s /\ 0 <= s < 2147483647).
  { destruct Hint as [w| |].
    - cbn [mul].
      rewrite (round64_comp _ (inject_Z (w * 1103515245)))
        by (rewrite inject_Z_mult; reflexivity).
      destruct (round64_Z (w * 1103515245)) as [[Hsmall ->]|[Hlarge Hbig]].
      + apply mask_add_increment. intros _. exists w. reflexivity.
      + destruct Hbig as [| |u Hev Hu].
        * exists 0. split; [reflexivity|lia].
        * exists 0. split; [reflexivity|lia].
        * apply mask_add_increment. intros Hlt. lia.
    - exists 0. split; [reflexivity|lia].
    - exists 0. split; [reflexivity|lia]. }
  destruct Hmask as (s & -> & Hs). exists s. split; [|exact Hs].
  apply of_Z_exact. lia.
Qed.

(** *** The drawn index stays within [0, i] *)

Lemma array_index_inject_Z (j : Z) :
  0 <= j < 2 ^ 32 - 1 -> array_index (Fin (inject_Z j)) = Some (Z.to_nat j).
Proof.
  intros [Hlo Hhi]. cbn [array_index]. rewrite Qfloor_Z.
  assert (Hq : Qeq_bool (inject_Z j) (inject_Z j) = true) by (apply Qeq_bool_iff; reflexivity).
  rewrite Hq.
  destruct (Z.leb_spec 0 j); [|lia]. destruct (Z.ltb_spec j (2 ^ 32 - 1)); [|lia].
  reflexivity.
Qed.

Local Open Scope Q_scope.

(** [state / 0x7fffffff] for a state in [1, 0x7fffffff - 1] is positive and
    stays a safe distance below 1. *)
Lemma quotient_range (s : Z) :
  (0 < s < 2147483647)%Z ->
  exists d : Q,
    div (Fin (inject_Z s)) (Fin (inject_Z 2147483647)) = Fin d
    /\ 1 # 4294967296 <= d /\ d <= 4294967295 # 4294967296.
Proof.
  intros [Hlo Hhi]. cbn [div].
  change (Qeq_bool (inject_Z 2147483647) 0) with false. cbv iota.
  set (x := inject_Z s / inject_Z 2147483647).
  assert (Hx : x * 2147483647 == inject_Z s) by (unfold x; field).
  assert (H1 : inject_Z 1 <= inject_Z s) by (rewrite <- Zle_Qle; lia).
  assert (H2 : inject_Z s <= inject_Z 2147483646) by (rewrite <- Zle_Qle; lia).
  change (inject_Z 1) with 1 in H1. change (inject_Z 2147483646) with 2147483646 in H2.
  set (S := inject_Z s) in *. clearbody x S.
  assert (Hnorm : 2 ^ (-1022) <= x).
  { apply Qle_trans with (2 ^ (-31)); [apply Qpower_le_compat_l; [lia|lra]|].
    change (2 ^ (-31)) with (1 # 2147483648). lra. }
  assert (Hmax : x <= 2 ^ 1023).
  { apply Qle_trans with (2 ^ 0); [change (2 ^ 0) with 1; lra|].
    apply Qpower_le_compat_l; [lia|lra]. }
  destruct (round64_pos_rel x ltac:(lra) Hnorm Hmax) as (d & Hd & Hdlo & Hdhi).
  exists d. split; [exact Hd|]. unfold eps in *. split; lra.
Qed.

Lemma draw_index_range (s : Z) (i : nat) :
  (0 <= s < 2147483647)%Z -> (Z.of_nat i + 1 < 2 ^ 32)%Z ->
  exists j : nat,
    draw_index (div (Fin (inject_Z s)) (of_Z 2147483647)) i = Some j
    /\ (j <= i)%nat.
Proof.
  intros [Hlo Hhi] Hi. unfold draw_index.
  rewrite (of_Z_exact 2147483647) by (cbn; lia).
  rewrite (of_Z_exact (Z.of_nat i + 1)) by lia.
  set (n := (Z.of_nat i + 1)%Z) in *.
  assert (Hn1 : inject_Z 1 <= inject_Z n) by (rewrite <- Zle_Qle; lia).
  assert (Hn2 : inject_Z n <= inject_Z 4294967296) by (rewrite <- Zle_Qle; lia).
  change (inject_Z 1) with 1 in Hn1. change (inject_Z 4294967296) with 4294967296 in Hn2.
  destruct (Z.eq_dec s 0%Z) as [->|Hs].
  - exists 0%nat. split; [|lia].
    change (div (Fin (inject_Z 0)) (Fin (inject_Z 2147483647))) with (Fin 0).
    cbn [mul]. rewrite (round64_comp _ 0) by ring. reflexivity.
  - destruct (quotient_range s ltac:(lia)) as (d & -> & Hdlo & Hdhi).
    cbn [mul].
    set (N := inject_Z n) in *.
    assert (HP1 : d * 1 <= d * N) by (apply Qmult_le_l; lra).
    assert (HP2 : d * N <= (4294967295 # 4294967296) * N)
      by (apply Qmult_le_compat_r; lra).
    assert (HP3 : d * N <= 1 * 4294967296).
    { apply Qle_trans with (1 * N); [apply Qmult_le_compat_r; lra|].
      apply Qmult_le_l; lra. }
    set (P := d * N) in *.
    assert (Hnorm : 2 ^ (-1022) <= P).
    { apply Qle_trans with (2 ^ (-32)); [apply Qpower_le_compat_l; [lia|lra]|].
      change (2 ^ (-32)) with (1 # 4294967296). clearbody P N. lra. }
    assert (Hmax : P <= 2 ^ 1023).
    { apply Qle_trans with (2 ^ 32); [change (2 ^ 32) with 4294967296; clearbody P N; lra|].
      apply Qpower_le_compat_l; [lia|lra]. }
    assert (HP0 : 0 < P) by (clearbody P N; lra).
    destruct (round64_pos_rel P HP0 Hnorm Hmax) as (y & -> & Hylo & Hyhi).
    cbn [floor].
    assert (Hy0 : 0 <= y) by (unfold eps in *; clearbody P N; lra).
    assert (HyN : y < N) by (unfold eps in *; clearbody P N; lra).
    assert (Hj0 : (0 <= Qfloor y)%Z).
    { change 0%Z with (Qfloor 0). apply Qfloor_resp_le. exact Hy0. }
    assert (Hjn : (Qfloor y < n)%Z).
    { rewrite Zlt_Qlt. eapply Qle_lt_trans; [apply Qfloor_le|exact HyN]. }
    exists (Z.to_nat (Qfloor y)). split; [apply array_index_inject_Z; lia|].
    unfold n in Hjn. lia.
Qed.

Local Close Scope Q_scope.

(** *** The walk permutes the array *)

Section Walk.
Context {A : Type}.
Variable undefined : A.

Lemma js_swap_in_range (a : list A) (i j : nat) :
  (i < length a)%nat -> (j < length a)%nat ->
  js_swap undefined a i j ≡ₚ a /\ length (js_swap undefined a i j) = length a.
Proof.
  intros Hi Hj. unfold js_swap, js_set, js_get.
  destruct (lookup_lt_is_Some_2 a i Hi) as [vi Hvi].
  destruct (lookup_lt_is_Some_2 a j Hj) as [vj Hvj].
  rewrite Hvi, Hvj. unfold default. cbn [from_option id].
  destruct (decide (i < length a)%nat) as [_|Hn]; [|lia].
  destruct (decide (j < length (<[i:=vj]> a))%nat) as [_|Hn];
    [|rewrite length_insert in Hn; lia].
  split.
  - apply Permutation_insert_swap; assumption.
  - rewrite !length_insert. reflexivity.
Qed.

Lemma rng_call_state (state : f64) :
  integral state ->
  exists s : Z,
    rng_call state = (Fin (inject_Z s), div (Fin (inject_Z s)) (of_Z 2147483647))
    /\ 0 <= s < 2147483647.
Proof.
  intros Hint. destruct (next_state_range state Hint) as (s & Hs & Hrange).
  exists s. split; [|exact Hrange]. unfold rng_call. rewrite Hs. reflexivity.
Qed.

Lemma shuffle_loop_permutes (i : nat) :
  forall (state : f64) (a : list A),
    integral state -> (i < length a)%nat -> Z.of_nat (length a) < 2 ^ 32 ->
    exists a' : list A,
      shuffle_loop undefined i state a = Some a' /\ a' ≡ₚ a.
Proof.
  induction i as [|i IH]; intros state a Hint Hi Hlen.
  - exists a. split; reflexivity.
  - cbn [shuffle_loop].
    destruct (rng_call_state state Hint) as (s & -> & Hs).
    destruct (draw_index_range s (S i) Hs ltac:(lia)) as (j & -> & Hj).
    destruct (js_swap_in_range a (S i) j ltac:(lia) ltac:(lia)) as [Hperm Hl].
    destruct (IH (Fin (inject_Z s)) (js_swap undefined a (S i) j))
      as (a' & Ha' & Hp'); [constructor|lia|lia|].
    exists a'. split; [exact Ha'|]. etransitivity; eassumption.
Qed.

Lemma apply_swaps_cons (sw : nat * option nat) (swaps : list (nat * option nat))
    (a : list A) :
  apply_swaps undefined (sw :: swaps) a
  = match sw.2 with
    | Some j => apply_swaps undefined swaps (js_swap undefined a sw.1 j)
    | None => None
    end.
Proof.
  unfold apply_swaps. cbn [foldl]. destruct (sw.2) as [j|]; cbn; [reflexivity|].
  induction swaps as [|sw' swaps IH]; [reflexivity|exact IH].
Qed.

(** The loop performs exactly the swaps listed by [swap_indices]. *)
Lemma shuffle_loop_swaps (i : nat) :
  forall (state : f64) (a : list A),
    shuffle_loop undefined i state a
    = apply_swaps undefined (swap_indices i state) a.
Proof.
  induction i as [|i IH]; intros state a; [reflexivity|].
  cbn [shuffle_loop swap_indices]. destruct (rng_call state) as [state' r].
  rewrite apply_swaps_cons. cbn [snd fst].
  destruct (draw_index r (S i)); [apply IH|reflexivity].
Qed.

Lemma shuffle_loop_store_contents (i : nat) :
  forall (state : f64) (loc : positive) (h : gmap positive (list A)) (a : list A),
    h !! loc = Some a ->
    shuffle_loop_store undefined i state loc h
    = (fun a' => <[loc := a']> h) <$> shuffle_loop undefined i state a.
Proof.
  induction i as [|i IH]; intros state loc h a Hloc.
  - cbn. rewrite insert_id by exact Hloc. reflexivity.
  - cbn [shuffle_loop_store shuffle_loop]. destruct (rng_call state) as [state' r].
    destruct (draw_index r (S i)) as [j|]; [|reflexivity].
    rewrite Hloc. cbn [mbind option_bind].
    rewrite (IH state' loc _ (js_swap undefined a (S i) j))
      by apply lookup_insert_eq.
    destruct (shuffle_loop undefined i state' _); [|reflexivity].
    cbn. rewrite insert_insert_eq. reflexivity.
Qed.

End Walk.

Lemma swap_indices_range (i : nat) :
  forall state : f64,
    integral state -> Z.of_nat i + 1 < 2 ^ 32 ->
    (swap_indices i state).*1 = reverse (seq 1 i)
    /\ Forall (fun sw : nat * option nat =>
                 exists j : nat, sw.2 = Some j /\ (j <= sw.1 <= i)%nat)
              (swap_indices i state).
Proof.
  induction i as [|i IH]; intros state Hint Hi.
  - split; [reflexivity|constructor].
  - cbn [swap_indices].
    destruct (rng_call_state state Hint) as (s & -> & Hs).
    destruct (draw_index_range s (S i) Hs ltac:(lia)) as (j & Hdraw & Hj).
    destruct (IH (Fin (inject_Z s))) as [Hfst Hall]; [constructor|lia|].
    split.
    + cbn [fmap list_fmap fst]. rewrite Hfst.
      rewrite seq_S, reverse_app. reflexivity.
    + constructor.
      * exists j. cbn [fst snd]. split; [exact Hdraw|lia].
      * eapply Forall_impl; [exact Hall|].
        intros sw (j' & Hj' & Hle). exists j'. split; [exact Hj'|lia].
Qed.

(** The walk, started from an integer seed, returns a permutation. *)
Lemma shuffleWithSeed_permutes {A : Type} (undefined : A) (array : list A) (seed : Z) :
  Z.of_nat (length array) < 2 ^ 32 ->
  exists shuffled : list A,
    shuffle_loop undefined (length array - 1) (of_Z seed) array = Some shuffled
    /\ shuffled ≡ₚ array.
Proof.
  intros Hlen. destruct array as [|x array].
  - exists []. split; reflexivity.
  - apply shuffle_loop_permutes; [apply integral_of_Z|cbn [length]; lia|exact Hlen].
Qed.

(** *** Claims on the shuffle *)

(** C6.  For every array (of a length an array can have, below 2^32) and
    every integer seed, [shuffleWithSeed] returns a permutation of its
    input, of the same length; it is produced by the swaps of a backward
    walk whose loop variable [i] runs from [length - 1] down to [1] and
    whose drawn index [j] satisfies [0 <= j <= i < length] at every step, so
    that every read and write is in bounds. *)
Theorem C6_shuffle_permutes {A : Type} (undefined : A) (array : list A) (seed : Z) :
  Z.of_nat (length array) < 2 ^ 32 ->
  exists shuffled : list A,
    shuffleWithSeed undefined array (of_Z seed) = Some shuffled
    /\ shuffled ≡ₚ array
    /\ length shuffled = length array
    /\ apply_swaps undefined (swap_indices (length array - 1) (of_Z seed)) array
       = Some shuffled
    /\ (swap_indices (length array - 1) (of_Z seed)).*1
       = reverse (seq 1 (length array - 1))
    /\ Forall (fun sw : nat * option nat =>
                 exists j : nat,
                   sw.2 = Some j /\ (j <= sw.1)%nat /\ (sw.1 < length array)%nat)
              (swap_indices (length array - 1) (of_Z seed)).
Proof.
  intros Hlen. unfold shuffleWithSeed, seededRandom. cbv zeta.
  pose proof (integral_of_Z seed) as Hint.
  destruct (swap_indices_range (length array - 1) (of_Z seed) Hint ltac:(lia))
    as [Hfst Hall].
  destruct (shuffleWithSeed_permutes undefined array seed Hlen) as (a' & Ha' & Hperm).
  exists a'. split; [exact Ha'|]. split; [exact Hperm|].
  split; [apply Permutation_length; exact Hperm|].
  split; [rewrite <- shuffle_loop_swaps; exact Ha'|].
  split; [exact Hfst|].
  destruct array as [|x array]; [constructor|].
  eapply Forall_impl; [exact Hall|].
  intros sw (j & Hj & Hle). exists j. split; [exact Hj|].
  cbn [length] in *. lia.
Qed.

Lemma C6_shuffle_permutes_witness :
  exists shuffled : list nat,
    shuffleWithSeed 0%nat [10; 20; 30; 40]%nat (of_Z 42) = Some shuffled
    /\ shuffled ≡ₚ [10; 20; 30; 40]%nat
    /\ length shuffled = 4%nat
    /\ apply_swaps 0%nat (swap_indices 3 (of_Z 42)) [10; 20; 30; 40]%nat
       = Some shuffled
    /\ (swap_indices 3 (of_Z 42)).*1 = [3; 2; 1]%nat
    /\ Forall (fun sw : nat * option nat =>
                 exists j : nat, sw.2 = Some j /\ (j <= sw.1)%nat /\ (sw.1 < 4)%nat)
              (swap_indices 3 (of_Z 42)).
Proof.
  apply (C6_shuffle_permutes 0%nat [10; 20; 30; 40]%nat 42).
  cbn [length]. lia.
Defined.

(** C7.  Two invocations with the same seed on arrays holding the same
    sequence, whatever else the store holds, return arrays with identical
    contents; each invocation allocates its result and leaves its input
    array, like every other array of the store, as it was. *)
Theorem C7_shuffle_deterministic {A : Type} (undefined : A)
    (h1 h2 : gmap positive (list A)) (array1 array2 : positive)
    (contents : list A) (seed : Z) :
  h1 !! array1 = Some contents ->
  h2 !! array2 = Some contents ->
  Z.of_nat (length contents) < 2 ^ 32 ->
  exists (out : list A) (r1 r2 : positive),
    shuffleWithSeed undefined contents (of_Z seed) = Some out
    /\ shuffleWithSeed_store undefined h1 array1 (of_Z seed)
       = Some (<[r1 := out]> h1, r1)
    /\ shuffleWithSeed_store undefined h2 array2 (of_Z seed)
       = Some (<[r2 := out]> h2, r2)
    /\ h1 !! r1 = None /\ h2 !! r2 = None
    /\ <[r1 := out]> h1 !! array1 = Some contents
    /\ <[r2 := out]> h2 !! array2 = Some contents.
Proof.
  intros H1 H2 Hlen.
  destruct (shuffleWithSeed_permutes undefined contents seed Hlen) as (out & Hout & _).
  assert (Hstore : forall (h : gmap positive (list A)) (array : positive),
             h !! array = Some contents ->
             shuffleWithSeed_store undefined h array (of_Z seed)
             = Some (<[fresh (dom h) := out]> h, fresh (dom h))
             /\ h !! fresh (dom h) = None
             /\ <[fresh (dom h) := out]> h !! array = Some contents).
  { intros h array Harr.
    assert (Hfresh : h !! fresh (dom h) = None).
    { apply not_elem_of_dom. apply is_fresh. }
    split; [|split; [exact Hfresh|]].
    - unfold shuffleWithSeed_store. rewrite Harr. cbn [mbind option_bind]. cbv zeta.
      rewrite (shuffle_loop_store_contents undefined _ _ _ _ contents)
        by apply lookup_insert_eq.
      unfold seededRandom. rewrite Hout.
      cbn. rewrite insert_insert_eq. reflexivity.
    - rewrite lookup_insert_ne; [exact Harr|]. intros Heq.
      rewrite Heq in Hfresh. congruence. }
  destruct (Hstore h1 array1 H1) as (Hs1 & Hf1 & Hi1).
  destruct (Hstore h2 array2 H2) as (Hs2 & Hf2 & Hi2).
  exists out, (fresh (dom h1)), (fresh (dom h2)).
  repeat split; assumption.
Qed.

Lemma C7_shuffle_deterministic_witness :
  exists (out : list nat) (r1 r2 : positive),
    shuffleWithSeed 0%nat [10; 20; 30]%nat (of_Z 7) = Some out
    /\ shuffleWithSeed_store 0%nat {[ 1%positive := [10; 20; 30]%nat ]} 1%positive (of_Z 7)
       = Some (<[r1 := out]> {[ 1%positive := [10; 20; 30]%nat ]}, r1)
    /\ shuffleWithSeed_store 0%nat
         {[ 1%positive := [5]%nat; 4%positive := [10; 20; 30]%nat ]} 4%positive (of_Z 7)
       = Some (<[r2 := out]> {[ 1%positive := [5]%nat; 4%positive := [10; 20; 30]%nat ]}, r2)
    /\ ({[ 1%positive := [10; 20; 30]%nat ]} : gmap positive (list nat)) !! r1 = None
    /\ ({[ 1%positive := [5]%nat; 4%positive := [10; 20; 30]%nat ]}
          : gmap positive (list nat)) !! r2 = None
    /\ <[r1 := out]> ({[ 1%positive := [10; 20; 30]%nat ]} : gmap positive (list nat))
         !! 1%positive = Some [10; 20; 30]%nat
    /\ <[r2 := out]> ({[ 1%positive := [5]%nat; 4%positive := [10; 20; 30]%nat ]}
                        : gmap positive (list nat))
         !! 4%positive = Some [10; 20; 30]%nat.
Proof.
  apply (C7_shuffle_deterministic 0%nat
           {[ 1%positive := [10; 20; 30]%nat ]}
           {[ 1%positive := [5]%nat; 4%positive := [10; 20; 30]%nat ]}
           1%positive 4%positive [10; 20; 30]%nat 7).
  - reflexivity.
  - reflexivity.
  - cbn [length]. lia.
Defined.

End ShuffleFacts.

(** ** Progress and status *)

Module ProgressFacts.
Import Model Progress.
Local Open Scope string_scope.

Lemma positive_metric_set (v : option Z) :
  positive_metric v = true <-> metric_set v.
Proof.
  unfold positive_metric, metric_set. destruct v as [n|].
  - rewrite Z.ltb_lt. split.
    + intros Hn. exists n. split; [reflexivity|exact Hn].
    + intros (m & [= <-] & Hm). exact Hm.
  - split; [discriminate|]. intros (m & Hm & _). discriminate.
Qed.

Lemma hasSource_recognized (m : metrics) :
  hasSource m = true <-> source_recognized (source m).
Proof.
  unfold hasSource, source_recognized. destruct (source m) as [s|].
  - rewrite andb_true_iff, negb_true_iff, !orb_true_iff, !String.eqb_eq,
      String.eqb_neq.
    split.
    + intros [_ [[[->| ->]| ->]| ->]]; auto.
    + intros [[= ->]|[[= ->]|[[= ->]|[= ->]]]]; (split; [discriminate|auto]).
  - split; [discriminate|]. intros [H|[H|[H|H]]]; discriminate.
Qed.

(** The test of [calculateProgress] is the completeness predicate. *)
Lemma hasAllMetrics_complete (r : review) :
  hasAllMetrics (review_metrics r) = true <-> complete r.
Proof.
  unfold hasAllMetrics, complete.
  rewrite !andb_true_iff, !positive_metric_set, hasSource_recognized. tauto.
Qed.

Lemma count_completed_from (rs : list review) (n : nat) :
  foldl (fun completed r =>
           if hasAllMetrics (review_metrics r) then S completed else completed)
        n rs
  = (n + length (List.filter is_complete rs))%nat.
Proof.
  revert n. induction rs as [|r rs IH]; intros n; cbn [foldl List.filter].
  - cbn. lia.
  - rewrite IH. unfold is_complete at 2.
    destruct (hasAllMetrics (review_metrics r)); cbn [length]; lia.
Qed.

Lemma count_completed_filter (rs : list review) :
  count_completed rs = length (List.filter is_complete rs).
Proof. unfold count_completed. rewrite count_completed_from. reflexivity. Qed.

Lemma count_completed_app (l1 l2 : list review) :
  count_completed (l1 ++ l2) = (count_completed l1 + count_completed l2)%nat.
Proof. rewrite !count_completed_filter, List.filter_app, length_app. reflexivity. Qed.

Lemma count_completed_le (rs : list review) :
  (count_completed rs <= length rs)%nat.
Proof. rewrite count_completed_filter. apply List.filter_length_le. Qed.

Lemma count_completed_zero (rs : list review) :
  count_completed rs = 0%nat <-> Forall (fun r => ~ complete r) rs.
Proof.
  rewrite count_completed_filter. induction rs as [|r rs IH]; cbn [List.filter].
  - split; [constructor|reflexivity].
  - unfold is_complete at 1. destruct (hasAllMetrics (review_metrics r)) eqn:E.
    + cbn [length]. split; [discriminate|].
      intros Hall. inversion Hall as [|? ? Hr _]; subst.
      exfalso. apply Hr. apply hasAllMetrics_complete. exact E.
    + rewrite IH. split.
      * intros Hall. constructor; [|exact Hall].
        intros Hc. apply hasAllMetrics_complete in Hc. congruence.
      * intros Hall. inversion Hall; assumption.
Qed.

Lemma count_completed_all (rs : list review) :
  count_completed rs = length rs <-> Forall complete rs.
Proof.
  rewrite count_completed_filter. induction rs as [|r rs IH]; cbn [List.filter].
  - split; [constructor|reflexivity].
  - unfold is_complete at 1. destruct (hasAllMetrics (review_metrics r)) eqn:E.
    + cbn [length]. split.
      * intros [= Hlen]. constructor; [apply hasAllMetrics_complete; exact E|].
        apply IH. exact Hlen.
      * intros Hall. inversion Hall; subst. f_equal. apply IH. assumption.
    + cbn [length]. split.
      * intros Hlen. pose proof (List.filter_length_le is_complete rs). lia.
      * intros Hall. inversion Hall as [|? ? Hr _]; subst.
        apply hasAllMetrics_complete in Hr. congruence.
Qed.

Lemma calculateProgress_counts (p : paper) :
  calculateProgress p
  = mk_progress (count_completed (reviews p)) (length (reviews p)).
Proof. unfold calculateProgress. destruct (reviews p); reflexivity. Qed.

(** The three statuses, in terms of the completeness of the reviews. *)
Lemma status_of_cases (p : paper) :
  (status_of (calculateProgress p) = "not_started"
   <-> Forall (fun r => ~ complete r) (reviews p))
  /\ (status_of (calculateProgress p) = "completed"
      <-> reviews p <> [] /\ Forall complete (reviews p))
  /\ (status_of (calculateProgress p) = "in_progress"
      <-> ~ Forall (fun r => ~ complete r) (reviews p)
          /\ ~ Forall complete (reviews p)).
Proof.
  rewrite calculateProgress_counts. unfold status_of. cbn [completed total].
  pose proof (count_completed_zero (reviews p)) as Hz.
  pose proof (count_completed_all (reviews p)) as Ha.
  pose proof (count_completed_le (reviews p)) as Hle.
  destruct (Nat.eqb_spec (count_completed (reviews p)) 0) as [H0|H0].
  - split; [|split].
    + split; [intros _; apply Hz; exact H0|reflexivity].
    + split; [discriminate|]. intros [Hne Hall]. apply Ha in Hall.
      destruct (reviews p); [congruence|cbn [length] in Hall; lia].
    + split; [discriminate|]. intros [Hn _]. exfalso. apply Hn, Hz. exact H0.
  - destruct (Nat.ltb_spec (count_completed (reviews p)) (length (reviews p)))
      as [Hlt|Hge].
    + split; [|split].
      * split; [discriminate|]. intros Hall. apply Hz in Hall. lia.
      * split; [discriminate|]. intros [_ Hall]. apply Ha in Hall. lia.
      * split; [|reflexivity]. intros _. split.
        -- intros Hall. apply Hz in Hall. lia.
        -- intros Hall. apply Ha in Hall. lia.
    + assert (Heq : count_completed (reviews p) = length (reviews p)) by lia.
      split; [|split].
      * split; [discriminate|]. intros Hall. apply Hz in Hall. lia.
      * split; [|reflexivity]. intros _. split; [|apply Ha; exact Heq].
        intros Hnil. rewrite Hnil in H0. apply H0. reflexivity.
      * split; [discriminate|]. intros [_ Hn]. exfalso. apply Hn, Ha. exact Heq.
Qed.

(** C4, amended.  For every paper the recomputed status is ['not_started']
    iff no review is complete (a paper without reviews included),
    ['completed'] iff the paper has at least one review and every review is
    complete, and ['in_progress'] in every other case, where a review is
    complete iff its five numeric metrics are greater than 0 and its source
    is one of ['ai'], ['human'], ['1'], ['2']. *)
Theorem C4_status_by_completeness (p : paper) :
  status (updatePaperStatus p) = status_of (calculateProgress p)
  /\ (status_of (calculateProgress p) = "not_started"
      <-> Forall (fun r => ~ complete r) (reviews p))
  /\ (status_of (calculateProgress p) = "completed"
      <-> reviews p <> [] /\ Forall complete (reviews p))
  /\ (status_of (calculateProgress p) = "in_progress"
      <-> ~ Forall (fun r => ~ complete r) (reviews p)
          /\ ~ Forall complete (reviews p))
  /\ (forall r : review,
        hasAllMetrics (review_metrics r) = true
        <-> metric_set (coverage (review_metrics r))
            /\ metric_set (specificity (review_metrics r))
            /\ metric_set (correctness (review_metrics r))
            /\ metric_set (constructiveness (review_metrics r))
            /\ metric_set (stance (review_metrics r))
            /\ source_recognized (source (review_metrics r))).
Proof.
  split; [reflexivity|].
  destruct (status_of_cases p) as (H1 & H2 & H3).
  split; [exact H1|]. split; [exact H2|]. split; [exact H3|].
  intros r. apply hasAllMetrics_complete.
Qed.

(** C4 as stated fails on a paper without reviews: every one of its reviews
    is complete, and its status is ['not_started'], not ['completed']. *)
Lemma C4_counterexample :
  let p := Paper "t" None None [] [] [] "not_started" [] in
  ~ (status_of (calculateProgress p) = "completed"
     <-> Forall complete (reviews p)).
Proof.
  cbv zeta. intros [_ H]. assert (Hc : Forall complete []) by constructor.
  specialize (H Hc). discriminate H.
Qed.

End ProgressFacts.

(** ** The rating controls *)

Module HandlerFacts.
Import F64 Shuffle Model Progress Filters Workspace ProgressFacts.
Local Open Scope string_scope.

(** Rating a metric and setting the source recompute the status. *)
Lemma clickStar_recomputes (k : nat) (key : metric_key) (v : Z) (p p' : paper) :
  clickStar k key v p = Some p' ->
  status p' = status_of (calculateProgress p').
Proof.
  unfold clickStar. intros Hc.
  destruct (update_metrics k (set_metric key v) p) as [q|]; [|discriminate].
  injection Hc as <-. reflexivity.
Qed.

Lemma clickSource_recomputes (k : nat) (v : string) (p p' : paper) :
  clickSource k v p = Some p' ->
  status p' = status_of (calculateProgress p').
Proof.
  unfold clickSource. intros Hc.
  destruct (update_metrics k (set_source v) p) as [q|]; [|discriminate].
  injection Hc as <-. reflexivity.
Qed.

Lemma update_metrics_reviews (k : nat) (f : metrics -> metrics) (p p' : paper) :
  update_metrics k f p = Some p' ->
  exists r : review,
    reviews p !! k = Some r
    /\ reviews p' = (take k (reviews p) ++ with_metrics (f (review_metrics r)) r
                       :: drop (S k) (reviews p))%list
    /\ reviews p = (take k (reviews p) ++ r :: drop (S k) (reviews p))%list
    /\ status p' = status p.
Proof.
  unfold update_metrics. intros Hu.
  destruct (reviews p !! k) as [r|] eqn:Hr; [|discriminate].
  injection Hu as <-. exists r. split; [reflexivity|].
  pose proof (lookup_lt_Some _ _ _ Hr) as Hlt.
  split; [|split].
  - cbn. apply insert_take_drop. exact Hlt.
  - symmetry. apply take_drop_middle. exact Hr.
  - reflexivity.
Qed.

Lemma count_completed_one (r : review) :
  count_completed [r] = if is_complete r then 1%nat else 0%nat.
Proof. unfold count_completed, is_complete. cbn. destruct (hasAllMetrics _); reflexivity. Qed.

(** C9.  After a confirmed Clear Evaluation on the review with index [k],
    the metrics object of that review is
    [{coverage:0, specificity:0, correctness:0, constructiveness:0,
      stance:0, source:'', comment:''}]; the total of the progress is
    unchanged, and if the review was complete before, the number of
    completed reviews is exactly one less than before. *)
Theorem C9_clear_evaluation (k : nat) (p p' : paper) :
  clickClear k true p = Some p' ->
  exists r r' : review,
    reviews p !! k = Some r
    /\ reviews p' !! k = Some r'
    /\ review_metrics r'
       = Metrics (Some 0%Z) (Some 0%Z) (Some 0%Z) (Some 0%Z) (Some 0%Z)
                 (Some EmptyString) (Some EmptyString)
    /\ total (calculateProgress p') = total (calculateProgress p)
    /\ (complete r ->
        (completed (calculateProgress p') + 1)%nat
        = completed (calculateProgress p)).
Proof.
  cbn [clickClear]. intros Hc.
  destruct (update_metrics_reviews k cleared p p' Hc) as (r & Hr & Hp' & Hp & _).
  pose proof (lookup_lt_Some _ _ _ Hr) as Hlt.
  exists r, (with_metrics (cleared (review_metrics r)) r).
  split; [exact Hr|]. split; [|split; [reflexivity|]].
  - rewrite Hp'. rewrite lookup_app_r by (rewrite length_take; lia).
    rewrite length_take. replace (k - k `min` length (reviews p))%nat with 0%nat by lia.
    reflexivity.
  - rewrite !calculateProgress_counts. cbn [total completed]. split.
    + rewrite Hp'. rewrite Hp at 3. rewrite !length_app. reflexivity.
    + intros Hcomplete. apply hasAllMetrics_complete in Hcomplete.
      rewrite Hp'. rewrite Hp at 3.
      rewrite !count_completed_app.
      change (?x :: drop (S k) (reviews p))
        with ([x] ++ drop (S k) (reviews p))%list.
      rewrite !count_completed_app, !count_completed_one.
      unfold is_complete at 2. rewrite Hcomplete.
      change (is_complete (with_metrics (cleared (review_metrics r)) r)) with false.
      cbv iota. lia.
Qed.

Lemma C9_clear_evaluation_witness :
  let done := Metrics (Some 5%Z) (Some 4%Z) (Some 3%Z) (Some 2%Z) (Some 1%Z)
                      (Some "human") (Some "fine") in
  let p := Paper "t" None None [] [] [] "completed"
                 [Review "a" None [] done; Review "b" None [] done] in
  let p' := Paper "t" None None [] [] [] "completed"
                  [Review "a" None [] done;
                   Review "b" None [] (cleared done)] in
  exists r r' : review,
    reviews p !! 1%nat = Some r
    /\ reviews p' !! 1%nat = Some r'
    /\ review_metrics r'
       = Metrics (Some 0%Z) (Some 0%Z) (Some 0%Z) (Some 0%Z) (Some 0%Z)
                 (Some EmptyString) (Some EmptyString)
    /\ total (calculateProgress p') = total (calculateProgress p)
    /\ (complete r ->
        (completed (calculateProgress p') + 1)%nat
        = completed (calculateProgress p)).
Proof.
  cbv zeta.
  apply (C9_clear_evaluation 1
           (Paper "t" None None [] [] [] "completed"
              [Review "a" None []
                 (Metrics (Some 5%Z) (Some 4%Z) (Some 3%Z) (Some 2%Z) (Some 1%Z)
                          (Some "human") (Some "fine"));
               Review "b" None []
                 (Metrics (Some 5%Z) (Some 4%Z) (Some 3%Z) (Some 2%Z) (Some 1%Z)
                          (Some "human") (Some "fine"))])).
  reflexivity.
Defined.

(** C3, the failing case.  A paper whose only review is complete has the
    status ['completed'].  After a confirmed Clear Evaluation the review is
    no longer complete, the status recomputed from the reviews is
    ['not_started'], and the paper, as kept in memory and as sent to the
    server, still says ['completed']. *)
Lemma C3_clear_keeps_stale_status :
  let done := Metrics (Some 5%Z) (Some 4%Z) (Some 3%Z) (Some 2%Z) (Some 1%Z)
                      (Some "ai") None in
  let p := Paper "t" None None [] [] [] "completed" [Review "a" None [] done] in
  status p = status_of (calculateProgress p)
  /\ exists p' : paper,
       clickClear 0 true p = Some p'
       /\ status p' = "completed"
       /\ status_of (calculateProgress p') = "not_started"
       /\ (saves <$> step (initial None [p] 0) (ClickClear 0 true))
          = Some [(ClearSave, [p'])].
Proof.
  cbv zeta. split; [reflexivity|]. eexists. split; [reflexivity|].
  split; [reflexivity|]. split; reflexivity.
Qed.

(** Whatever the order of display, the controls of the item at position
    [k] carry the index [k]. *)
Lemma renderReviews_data_review (cfg : option config) (paperIndex : Z)
    (p : paper) (items : list review_item) (k : nat) (item : review_item) :
  renderReviews cfg paperIndex p = Some items ->
  items !! k = Some item ->
  data_review item = k.
Proof.
  unfold renderReviews. intros Hrender Hk.
  destruct (reviews p) as [|r0 rs]; [injection Hrender as <-; discriminate|].
  destruct (reviewsToRender cfg paperIndex p) as [toRender|]; [|discriminate].
  cbn [mbind option_bind] in Hrender. apply mapM_Some in Hrender.
  destruct (Forall2_lookup_r _ _ _ _ _ Hrender Hk) as ([k' r] & Hentry & Hitem).
  rewrite list_lookup_imap in Hentry.
  destruct (toRender !! k); [|discriminate]. cbn in Hentry.
  injection Hentry as <- <-. cbn [fst snd] in Hitem.
  unfold render_item in Hitem.
  destruct (mapM _ _) as [filled|]; [|discriminate]. cbn in Hitem.
  destruct (reviews p !! k); [|discriminate]. cbn in Hitem.
  injection Hitem as <-. reflexivity.
Qed.

(** C1, the failing case.  With shuffling configured (seed 42, paper 1) a
    paper with two reviews is shown in the order second, first.  The first
    item shows the second review, but its controls carry the index 0: its
    stars are filled from the first review's metrics, and rating it writes
    into the first review, leaving the shown review's metrics as they
    were. *)
Lemma C1_controls_use_display_position :
  let first := Review "first" None []
                 (Metrics (Some 3%Z) None None None None None None) in
  let second := Review "second" None []
                  (Metrics None None None None None None None) in
  let p := Paper "t" None None [] [] [] "not_started" [first; second] in
  let cfg := Some (Config true "gpt-4o-mini" false false false true 42) in
  exists item0 item1 : review_item,
    renderReviews cfg 1 p = Some [item0; item1]
    /\ shown item0 = second
    /\ reviews p !! 1%nat = Some second
    /\ data_review item0 = 0%nat
    /\ stars item0 = [3; 0; 0; 0; 0]%Z
    /\ exists p' : paper,
         clickStar (data_review item0) Coverage 5 p = Some p'
         /\ reviews p'
            = [Review "first" None []
                 (Metrics (Some 5%Z) None None None None None None);
               second].
Proof.
  cbv zeta. eexists _, _. split; [vm_compute; reflexivity|].
  repeat split. eexists. split; reflexivity.
Qed.

(** The end-to-end scenario of the specification: of two papers the first
    has one rated and one unrated review; it is in progress, one of two, and
    the status filter ['in_progress'] selects exactly its index. *)
Example two_papers :
  let rated := Metrics (Some 4%Z) (Some 4%Z) (Some 3%Z) (Some 5%Z) (Some 3%Z)
                       (Some "human") None in
  let unrated := Metrics None None None None None None None in
  let p0 := updatePaperStatus
              (Paper "first" None None [] [] [] "not_started"
                     [Review "a" None [] rated; Review "b" None [] unrated]) in
  let p1 := updatePaperStatus
              (Paper "second" None None [] [] [] "not_started"
                     [Review "c" None [] unrated]) in
  status p0 = "in_progress"
  /\ calculateProgress p0 = mk_progress 1 2
  /\ getFilteredPapers (H := ascii_toLowerCase)
       (Parsed (FiltersData None None None None (Some ["in_progress"]))) [p0; p1]
     = [0%nat].
Proof. vm_compute. repeat split; reflexivity. Qed.

End HandlerFacts.

(** ** The filter predicate *)

Module FilterFacts.
Import Model Filters.
Local Open Scope string_scope.

Lemma prefix_append (t s : string) :
  String.prefix t s = true <-> exists post : string, s = t ++ post.
Proof.
  revert s. induction t as [|a t IH]; intros s.
  - split; [intros _; exists s; reflexivity|]. intros _. destruct s; reflexivity.
  - destruct s as [|b s].
    + split; [discriminate|]. intros [post Hpost]. discriminate.
    + change (String.prefix (String a t) (String b s))
        with (if ascii_dec a b then String.prefix t s else false).
      destruct (ascii_dec a b) as [->|Hne].
      * rewrite IH. split.
        -- intros [post ->]. exists post. reflexivity.
        -- intros [post [= ->]]. exists post. reflexivity.
      * split; [discriminate|]. intros [post [= Hab _]]. congruence.
Qed.

(** [includes] decides the substring relation. *)
Lemma includes_substring (s t : string) :
  includes s t = true <-> substring_of t s.
Proof.
  unfold substring_of. induction s as [|c s IH]; cbn [includes].
  - rewrite orb_false_r, prefix_append. split.
    + intros [post Hpost]. exists EmptyString, post. exact Hpost.
    + intros (pre & post & Hs). destruct pre as [|? ?]; [|discriminate].
      exists post. exact Hs.
  - rewrite orb_true_iff, prefix_append, IH. split.
    + intros [[post Hpost]|(pre & post & ->)].
      * exists EmptyString, post. exact Hpost.
      * exists (String c pre), post. reflexivity.
    + intros (pre & post & Hs). destruct pre as [|c' pre].
      * left. exists post. exact Hs.
      * right. injection Hs as _ ->. exists pre, post. reflexivity.
Qed.

Lemma nonempty_spec (s : gset string) : nonempty s = true <-> s <> ∅.
Proof.
  unfold nonempty. rewrite Nat.ltb_lt. split.
  - intros Hs ->. rewrite size_empty in Hs. lia.
  - intros Hne. destruct (decide (size s = 0%nat)) as [H0|H0]; [|lia].
    apply size_empty_iff in H0. exfalso. apply Hne. apply leibniz_equiv. exact H0.
Qed.

Lemma has_spec (s : gset string) (x : string) : has s x = true <-> x ∈ s.
Proof. unfold has. apply bool_decide_eq_true. Qed.

(** A guard of the filter functions does not reject: the field is empty or
    the test holds. *)
Lemma guard_passes (s : gset string) (test : bool) :
  nonempty s && negb test = false <-> (s <> ∅ -> test = true).
Proof.
  rewrite andb_false_iff, negb_false_iff. split.
  - intros [Hn|Ht] Hne; [|exact Ht].
    apply nonempty_spec in Hne. congruence.
  - intros Himp. destruct (nonempty s) eqn:Hn; [|left; reflexivity].
    right. apply Himp. apply nonempty_spec. exact Hn.
Qed.

Lemma existsb_elem_of {A : Type} (f : A -> bool) (l : list A) :
  existsb f l = true <-> exists x, x ∈ l /\ f x = true.
Proof.
  rewrite List.existsb_exists. split; intros (x & Hx & Hf); exists x;
    (split; [apply list_elem_of_In; exact Hx|exact Hf]).
Qed.

Lemma forallb_elements (f : string -> bool) (s : gset string) :
  forallb f (elements s) = true <-> forall x, x ∈ s -> f x = true.
Proof.
  rewrite List.forallb_forall. split.
  - intros Hall x Hx. apply Hall. apply list_elem_of_In, elem_of_elements. exact Hx.
  - intros Hall x Hx. apply Hall. apply elem_of_elements, list_elem_of_In. exact Hx.
Qed.

Section WithLowercase.
Context `{Lowercase}.

Lemma hasEvaluator_spec (fs : filters) (p : paper) :
  hasEvaluator fs p = true
  <-> exists e, e ∈ evaluators p /\ e ∈ f_evaluators fs.
Proof.
  unfold hasEvaluator. rewrite existsb_elem_of.
  split; intros (e & He & Hs); exists e; (split; [exact He|apply has_spec; exact Hs]).
Qed.

Lemma hasArea_spec (fs : filters) (p : paper) :
  hasArea fs p = true
  <-> exists a, a ∈ primary_area p /\ a ∈ f_areas fs.
Proof.
  unfold hasArea. rewrite existsb_elem_of.
  split; intros (e & He & Hs); exists e; (split; [exact He|apply has_spec; exact Hs]).
Qed.

Lemma hasKeyword_spec (fs : filters) (p : paper) :
  hasKeyword fs p = true
  <-> forall kw, kw ∈ f_keywords fs ->
        exists k, k ∈ keywords p /\ ci_substring_of kw k.
Proof.
  unfold hasKeyword, ci_substring_of. rewrite forallb_elements.
  split; intros Hall kw Hkw; specialize (Hall kw Hkw).
  - apply existsb_elem_of in Hall. destruct Hall as (k & Hk & Hinc).
    exists k. split; [exact Hk|]. apply includes_substring. exact Hinc.
  - apply existsb_elem_of. destruct Hall as (k & Hk & Hsub).
    exists k. split; [exact Hk|]. apply includes_substring. exact Hsub.
Qed.

Lemma hasTitle_spec (fs : filters) (p : paper) :
  hasTitle fs p = true
  <-> forall kw, kw ∈ f_titleKeywords fs -> ci_substring_of kw (title p).
Proof.
  unfold hasTitle, ci_substring_of. rewrite forallb_elements.
  split; intros Hall kw Hkw; apply includes_substring, Hall, Hkw.
Qed.

(** The callback of [filterPapers] decides the predicate of the
    specification. *)
Lemma filterPapers_keep_spec (fs : filters) (p : paper) :
  filterPapers_keep fs p = true <-> passes_filter fs p.
Proof.
  unfold passes_filter.
  rewrite <- hasEvaluator_spec, <- hasArea_spec, <- hasKeyword_spec,
    <- hasTitle_spec, <- has_spec.
  rewrite <- !guard_passes. unfold filterPapers_keep.
  destruct (nonempty (f_evaluators fs) && negb (hasEvaluator fs p));
    [intuition discriminate|].
  destruct (nonempty (f_areas fs) && negb (hasArea fs p));
    [intuition discriminate|].
  destruct (nonempty (f_keywords fs) && negb (hasKeyword fs p));
    [intuition discriminate|].
  destruct (nonempty (f_titleKeywords fs) && negb (hasTitle fs p));
    [intuition discriminate|].
  destruct (nonempty (f_statuses fs) && negb (has (f_statuses fs) (status p)));
    intuition discriminate.
Qed.

(** One round of the loop of [getFilteredPapers] pushes the index exactly
    when the callback of [filterPapers] keeps the paper. *)
Lemma getFilteredPapers_visit_keep (fs : filters) (indices : list nat)
    (index : nat) (p : paper) :
  getFilteredPapers_visit fs indices (index, p)
  = if filterPapers_keep fs p then (indices ++ [index])%list else indices.
Proof.
  unfold getFilteredPapers_visit, filterPapers_keep.
  repeat match goal with
         | |- context [if ?c then _ else _] => destruct c; try reflexivity
         end.
Qed.

Lemma getFilteredPapers_loop (fs : filters) (entries : list (nat * paper)) :
  forall indices : list nat,
    foldl (getFilteredPapers_visit fs) indices entries
    = (indices ++ (List.filter (fun e => filterPapers_keep fs e.2) entries).*1)%list.
Proof.
  induction entries as [|[index p] entries IH]; intros indices; cbn [foldl List.filter].
  - cbn. rewrite app_nil_r. reflexivity.
  - rewrite IH, getFilteredPapers_visit_keep. cbn [snd].
    destruct (filterPapers_keep fs p); [|reflexivity].
    cbn. rewrite <- app_assoc. reflexivity.
Qed.

Lemma elem_of_imap_pair {A : Type} (l : list A) (i : nat) (x : A) :
  (i, x) ∈ imap pair l <-> l !! i = Some x.
Proof.
  rewrite list_elem_of_lookup. split.
  - intros [k Hk]. rewrite list_lookup_imap in Hk.
    destruct (l !! k) eqn:E; [|discriminate]. cbn in Hk. injection Hk as <- <-. exact E.
  - intros Hl. exists i. rewrite list_lookup_imap, Hl. reflexivity.
Qed.

Lemma getFilteredPapers_filtered (fs : filters) (saved : stored_filters)
    (allPapers : list paper) :
  loadFilters saved = Some fs ->
  getFilteredPapers saved allPapers
  = (List.filter (fun e => filterPapers_keep fs e.2) (imap pair allPapers)).*1.
Proof.
  intros Hload. unfold getFilteredPapers. rewrite Hload.
  rewrite getFilteredPapers_loop. reflexivity.
Qed.

Lemma imap_index_seq {A : Type} (l : list A) :
  forall off : nat, imap (fun index _ => (off + index)%nat) l = seq off (length l).
Proof.
  induction l as [|x l IH]; intros off; [reflexivity|].
  cbn [imap length seq]. f_equal; [lia|].
  rewrite <- IH. apply imap_ext. intros i y _. cbn. lia.
Qed.

Lemma getFilteredPapers_unfiltered (saved : stored_filters) (allPapers : list paper) :
  loadFilters saved = None ->
  getFilteredPapers saved allPapers = seq 0 (length allPapers).
Proof.
  intros Hload. unfold getFilteredPapers. rewrite Hload.
  rewrite <- (imap_index_seq allPapers 0). reflexivity.
Qed.

(** C5.  A paper passes the combined filter iff each field that is not
    empty accepts it: some evaluator of the paper is in the evaluator set;
    some primary area is in the area set; every keyword term is, case
    ignored, a substring of some keyword of the paper; every title term is,
    case ignored, a substring of the title; the status is in the status set.
    [filterPapers] keeps exactly the papers that pass, and
    [getFilteredPapers] returns exactly the indices of the papers that pass
    (every index when no filter state is stored). *)
Theorem C5_filter_predicate (fs : filters) (saved : stored_filters)
    (allPapers : list paper) :
  (forall p : paper, filterPapers_keep fs p = true <-> passes_filter fs p)
  /\ (forall p : paper,
        p ∈ filterPapers fs allPapers <-> p ∈ allPapers /\ passes_filter fs p)
  /\ (forall index : nat,
        index ∈ getFilteredPapers saved allPapers
        <-> exists p : paper,
              allPapers !! index = Some p
              /\ match loadFilters saved with
                 | Some stored => passes_filter stored p
                 | None => True
                 end).
Proof.
  split; [intros p; apply filterPapers_keep_spec|]. split.
  - intros p. unfold filterPapers.
    rewrite list_elem_of_In, List.filter_In, <- list_elem_of_In, filterPapers_keep_spec.
    reflexivity.
  - intros index. destruct (loadFilters saved) as [stored|] eqn:Hload.
    + rewrite (getFilteredPapers_filtered stored) by exact Hload.
      rewrite list_elem_of_fmap. split.
      * intros ([i p] & -> & Hin).
        apply list_elem_of_In, List.filter_In in Hin. destruct Hin as [Hin Hkeep].
        apply list_elem_of_In, elem_of_imap_pair in Hin.
        exists p. split; [exact Hin|]. apply filterPapers_keep_spec. exact Hkeep.
      * intros (p & Hp & Hpass). exists (index, p). split; [reflexivity|].
        apply list_elem_of_In, List.filter_In. split.
        -- apply list_elem_of_In, elem_of_imap_pair. exact Hp.
        -- apply filterPapers_keep_spec. exact Hpass.
    + rewrite getFilteredPapers_unfiltered by exact Hload.
      rewrite elem_of_seq. split.
      * intros [_ Hlt]. destruct (lookup_lt_is_Some_2 allPapers index) as [p Hp]; [lia|].
        exists p. split; [exact Hp|exact I].
      * intros (p & Hp & _). apply lookup_lt_Some in Hp. lia.
Qed.

End WithLowercase.

(** *** The examples of the specification, with ASCII lower-casing *)

Example area_filter :
  let p := Paper "t" None None [] ["NLP"; "Vision"] [] "not_started" [] in
  filterPapers_keep (H := ascii_toLowerCase)
    (FilterState ∅ {["Vision"]} ∅ ∅ ∅) p = true
  /\ filterPapers_keep (H := ascii_toLowerCase)
       (FilterState ∅ {["Robotics"]} ∅ ∅ ∅) p = false.
Proof. vm_compute. split; reflexivity. Qed.

Example keyword_filter :
  let p := Paper "t" None None [] [] ["Graph Neural Network"] "not_started" [] in
  filterPapers_keep (H := ascii_toLowerCase)
    (FilterState ∅ ∅ {["graph"]} ∅ ∅) p = true
  /\ filterPapers_keep (H := ascii_toLowerCase)
       (FilterState ∅ ∅ ({["graph"]} ∪ {["transformer"]}) ∅ ∅) p = false
  /\ filterPapers_keep (H := ascii_toLowerCase)
       (FilterState ∅ ∅ ({["graph"]} ∪ {["NETWORK"]}) ∅ ∅) p = true.
Proof. vm_compute. repeat split; reflexivity. Qed.

End FilterFacts.

(** ** Filtered indices and navigation *)

Module NavigationFacts.
Import Model Filters Workspace FilterFacts.

Lemma filtered_indices_sorted (keep : paper -> bool) (l : list paper) :
  forall off : nat,
    StronglySorted lt
      (List.filter (fun e => keep e.2) (imap (fun i p => ((off + i)%nat, p)) l)).*1
    /\ Forall (fun i => (off <= i < off + length l)%nat)
         (List.filter (fun e => keep e.2) (imap (fun i p => ((off + i)%nat, p)) l)).*1.
Proof.
  induction l as [|x l IH]; intros off.
  - split; constructor.
  - cbn [imap List.filter snd length].
    assert (Hext : imap ((fun i p => ((off + i)%nat, p)) ∘ S) l
                   = imap (fun i p => ((S off + i)%nat, p)) l).
    { apply imap_ext. intros i y _. cbn. f_equal. lia. }
    rewrite Hext. destruct (IH (S off)) as [Hsorted Hrange].
    assert (Hrange' : Forall (fun i => (off <= i < off + S (length l))%nat)
              (List.filter (fun e => keep e.2)
                 (imap (fun i p => ((S off + i)%nat, p)) l)).*1).
    { eapply Forall_impl; [exact Hrange|]. cbn. intros i Hi. lia. }
    destruct (keep x); [|split; assumption].
    cbn [fmap list_fmap fst]. split.
    + constructor; [exact Hsorted|].
      eapply Forall_impl; [exact Hrange|]. cbn. intros i Hi. lia.
    + constructor; [lia|exact Hrange'].
Qed.


Lemma StronglySorted_lt_NoDup (l : list nat) : StronglySorted lt l -> NoDup l.
Proof.
  induction 1 as [|x l Hsorted IH Hall]; constructor; [|exact IH].
  intros Hin. rewrite Forall_forall in Hall. specialize (Hall x Hin). lia.
Qed.

Section WithLowercase.
Context `{Lowercase}.

Lemma getFilteredPapers_sorted (saved : stored_filters) (allPapers : list paper) :
  StronglySorted lt (getFilteredPapers saved allPapers)
  /\ Forall (fun i => (i < length allPapers)%nat) (getFilteredPapers saved allPapers).
Proof.
  destruct (loadFilters saved) as [fs|] eqn:Hload.
  - rewrite (getFilteredPapers_filtered fs) by exact Hload.
    destruct (filtered_indices_sorted (filterPapers_keep fs) allPapers 0)
      as [Hsorted Hrange].
    split; [exact Hsorted|].
    eapply Forall_impl; [exact Hrange|]. cbn. intros i Hi. lia.
  - rewrite getFilteredPapers_unfiltered by exact Hload. split.
    + generalize 0%nat. induction (length allPapers) as [|n IH]; intros off;
        cbn [seq]; constructor; [apply IH|].
      apply Forall_forall. intros i Hi. apply elem_of_seq in Hi. lia.
    + apply Forall_forall. intros i Hi. apply elem_of_seq in Hi. lia.
Qed.


End WithLowercase.

End NavigationFacts.

(** ** Loading with a failed configuration fetch *)

Module LoadFacts.
Import F64 Shuffle Model Progress Filters Workspace.
Local Open Scope string_scope.

Lemma render_item_in_range (cfg : option config) (p : paper) (k : nat)
    (shown r : review) :
  reviews p !! k = Some r ->
  render_item cfg p k shown
  = Some (ReviewItem shown (mainText cfg shown) k (filled_stars r) (comment_of r)).
Proof.
  intros Hr. unfold render_item, renderMetric. rewrite Hr. reflexivity.
Qed.

(** Without shuffling the items are the reviews in their stored order, each
    bound to its own index. *)
Lemma renderReviews_unshuffled (cfg : option config) (paperIndex : Z) (p : paper) :
  config_flag shuffleReviews cfg = false ->
  renderReviews cfg paperIndex p
  = Some (imap (fun k r => ReviewItem r (mainText cfg r) k (filled_stars r)
                                      (comment_of r))
               (reviews p)).
Proof.
  intros Hflag. unfold renderReviews.
  assert (Hto : reviewsToRender cfg paperIndex p = Some (reviews p)).
  { unfold reviewsToRender. destruct cfg as [c|]; [|reflexivity].
    cbn in Hflag. rewrite Hflag. reflexivity. }
  rewrite Hto. cbn [mbind option_bind].
  assert (Hmap : mapM (fun entry : nat * review => render_item cfg p entry.1 entry.2)
                      (imap pair (reviews p))
                 = Some (imap (fun k r => ReviewItem r (mainText cfg r) k
                                            (filled_stars r) (comment_of r))
                              (reviews p))).
  { apply mapM_Some. apply Forall2_same_length_lookup. split.
    - rewrite !length_imap. reflexivity.
    - intros i [k r] item Hl Hi.
      rewrite list_lookup_imap in Hl. rewrite list_lookup_imap in Hi.
      destruct (reviews p !! i) as [r'|] eqn:Hr; [|discriminate].
      cbn in Hl, Hi. injection Hl as <- <-. injection Hi as <-.
      cbn [fst snd]. apply render_item_in_range. exact Hr. }
  rewrite Hmap. destruct (reviews p); reflexivity.
Qed.

Section WithLowercase.
Context `{Lowercase}.

(** C2, amended.  If the configuration fetch fails, the workspace proceeds
    with the defaults of [loadConfig], in which harmonized text IS shown by
    default ([showHarmonizedByDefault: true], default model
    ['gpt-4o-mini']) and shuffling is disabled; rendering is not blocked:
    for a valid paper index the page is loaded and the reviews are rendered
    in their stored order with those defaults. *)
Theorem C2_config_failure_defaults (allPapers : list paper) (paperIndex : nat)
    (p : paper) (saved : stored_filters) :
  allPapers !! paperIndex = Some p ->
  loadConfig FetchFailed = Some default_config
  /\ showHarmonizedByDefault default_config = true
  /\ defaultHarmonizationModel default_config = "gpt-4o-mini"
  /\ shuffleReviews default_config = false
  /\ loadPapers FetchFailed (Fetched allPapers) saved (Some (Z.of_nat paperIndex))
     = Loaded (Some default_config) allPapers paperIndex
              (getFilteredPapers saved allPapers)
              (indexOf (getFilteredPapers saved allPapers) paperIndex)
              (imap (fun k r =>
                       ReviewItem r (mainText (Some default_config) r) k
                                  (filled_stars r) (comment_of r))
                    (reviews p)).
Proof.
  intros Hp. repeat (split; [reflexivity|]).
  unfold loadPapers. cbn [loadConfig].
  pose proof (lookup_lt_Some _ _ _ Hp) as Hlt.
  destruct (Z.leb_spec 0 (Z.of_nat paperIndex)); [|lia].
  destruct (Z.ltb_spec (Z.of_nat paperIndex) (Z.of_nat (length allPapers))); [|lia].
  cbn [andb]. rewrite Nat2Z.id, Hp.
  rewrite renderReviews_unshuffled by reflexivity. reflexivity.
Qed.

End WithLowercase.

Lemma C2_config_failure_defaults_witness :
  let r := Review "original" None [Harmonized "other" "rewritten"]
                  (Metrics None None None None None None None) in
  let p := Paper "t" None None [] [] [] "not_started" [r] in
  [p] !! 0%nat = Some p
  /\ loadConfig FetchFailed = Some default_config
  /\ showHarmonizedByDefault default_config = true
  /\ defaultHarmonizationModel default_config = "gpt-4o-mini"
  /\ shuffleReviews default_config = false
  /\ loadPapers (H := ascii_toLowerCase) FetchFailed (Fetched [p]) NoItem
                (Some (Z.of_nat 0))
     = Loaded (Some default_config) [p] 0
              (getFilteredPapers (H := ascii_toLowerCase) NoItem [p])
              (indexOf (getFilteredPapers (H := ascii_toLowerCase) NoItem [p]) 0)
              (imap (fun k r =>
                       ReviewItem r (mainText (Some default_config) r) k
                                  (filled_stars r) (comment_of r))
                    (reviews p)).
Proof.
  cbv zeta. split; [reflexivity|].
  apply (C2_config_failure_defaults (H := ascii_toLowerCase)).
  reflexivity.
Defined.

(** C2 as stated fails: after a failed configuration fetch a review that
    has a harmonized rewrite is shown with the rewrite, not with its
    original text. *)
Lemma C2_counterexample :
  let r := Review "original" None [Harmonized "gpt-4o-mini" "harmonized"]
                  (Metrics None None None None None None None) in
  let p := Paper "t" None None [] [] [] "not_started" [r] in
  exists (cfg : config) (items : list review_item),
    loadPapers (H := ascii_toLowerCase) FetchFailed (Fetched [p]) NoItem (Some 0%Z)
    = Loaded (Some cfg) [p] 0 [0%nat] 0 items
    /\ showHarmonizedByDefault cfg = true
    /\ main_text <$> items = ["harmonized"].
Proof.
  cbv zeta. eexists _, _. split; [vm_compute; reflexivity|]. split; reflexivity.
Qed.

End LoadFacts.

(** ** Debounced saving of comments *)

Module DebounceFacts.
Import Model Progress Filters Workspace Keystrokes.
Local Open Scope string_scope.

(** *** The bookkeeping stays consistent *)

Section Bookkeeping.
Variables (recorded : gmap nat positive) (pending : gmap positive (nat * nat))
          (next : positive).
Hypothesis Hcons : consistent recorded pending next.

Lemma cancelled_lookup (k : nat) (id : positive) (due k' : nat) :
  cancel_timer recorded pending k !! id = Some (due, k')
  <-> pending !! id = Some (due, k') /\ k' <> k.
Proof.
  destruct Hcons as (H1 & H2 & _). unfold cancel_timer.
  destruct (recorded !! k) as [id0|] eqn:Hk.
  - destruct (decide (id = id0)) as [->|Hne].
    + rewrite lookup_delete_eq. split; [discriminate|].
      intros [Hp Hk']. destruct (H2 k id0 Hk) as [due0 Hp0].
      rewrite Hp in Hp0. injection Hp0 as _ ->. congruence.
    + rewrite lookup_delete_ne by congruence. split.
      * intros Hp. split; [exact Hp|]. intros ->.
        specialize (H1 _ _ _ Hp). congruence.
      * intros [Hp _]. exact Hp.
  - split.
    + intros Hp. split; [exact Hp|]. intros ->.
      specialize (H1 _ _ _ Hp). congruence.
    + intros [Hp _]. exact Hp.
Qed.

Lemma consistent_fired (id : positive) (due k : nat) :
  pending !! id = Some (due, k) ->
  consistent (delete k recorded) (delete id pending) next.
Proof.
  destruct Hcons as (H1 & H2 & H3). intros Hid. split; [|split].
  - intros id' due' k' Hp.
    destruct (decide (id' = id)) as [->|Hne]; [rewrite lookup_delete_eq in Hp; discriminate|].
    rewrite lookup_delete_ne in Hp by congruence.
    destruct (decide (k' = k)) as [->|Hk].
    + pose proof (H1 _ _ _ Hp). pose proof (H1 _ _ _ Hid). congruence.
    + rewrite lookup_delete_ne by congruence. eapply H1. exact Hp.
  - intros k' id' Hr.
    destruct (decide (k' = k)) as [->|Hk]; [rewrite lookup_delete_eq in Hr; discriminate|].
    rewrite lookup_delete_ne in Hr by congruence.
    destruct (H2 _ _ Hr) as [due' Hp]. exists due'.
    destruct (decide (id' = id)) as [->|Hne]; [congruence|].
    rewrite lookup_delete_ne by congruence. exact Hp.
  - intros id' [x Hp]. apply H3.
    destruct (decide (id' = id)) as [->|Hne]; [rewrite lookup_delete_eq in Hp; discriminate|].
    rewrite lookup_delete_ne in Hp by congruence. eauto.
Qed.

Lemma consistent_cancelled (k : nat) :
  consistent (delete k recorded) (cancel_timer recorded pending k) next.
Proof.
  pose proof Hcons as (H1 & H2 & H3). split; [|split].
  - intros id due k' Hp. apply cancelled_lookup in Hp. destruct Hp as [Hp Hk].
    rewrite lookup_delete_ne by congruence. eapply H1. exact Hp.
  - intros k' id Hr.
    destruct (decide (k' = k)) as [->|Hk]; [rewrite lookup_delete_eq in Hr; discriminate|].
    rewrite lookup_delete_ne in Hr by congruence.
    destruct (H2 _ _ Hr) as [due Hp]. exists due.
    apply cancelled_lookup. split; assumption.
  - intros id [[due k'] Hp]. apply cancelled_lookup in Hp. destruct Hp as [Hp _].
    apply H3. eauto.
Qed.

Lemma consistent_rescheduled (k due : nat) :
  consistent (<[k := next]> recorded)
             (<[next := (due, k)]> (cancel_timer recorded pending k))
             (Pos.succ next).
Proof.
  pose proof Hcons as (H1 & H2 & H3). split; [|split].
  - intros id due' k' Hp.
    destruct (decide (id = next)) as [->|Hne].
    + rewrite lookup_insert_eq in Hp. injection Hp as _ <-.
      apply lookup_insert_eq.
    + rewrite lookup_insert_ne in Hp by congruence.
      apply cancelled_lookup in Hp. destruct Hp as [Hp Hk].
      rewrite lookup_insert_ne by congruence. eapply H1. exact Hp.
  - intros k' id Hr.
    destruct (decide (k' = k)) as [->|Hk].
    + rewrite lookup_insert_eq in Hr. injection Hr as <-.
      exists due. apply lookup_insert_eq.
    + rewrite lookup_insert_ne in Hr by congruence.
      destruct (H2 _ _ Hr) as [due' Hp]. exists due'.
      assert (id <> next).
      { intros ->. assert (next < next)%positive by (apply H3; eauto). lia. }
      rewrite lookup_insert_ne by congruence.
      apply cancelled_lookup. split; assumption.
  - intros id [[due' k'] Hp].
    destruct (decide (id = next)) as [->|Hne]; [lia|].
    rewrite lookup_insert_ne in Hp by congruence.
    apply cancelled_lookup in Hp. destruct Hp as [Hp _].
    assert (id < next)%positive by (apply H3; eauto). lia.
Qed.

End Bookkeeping.

(** *** What one event does to the timers and to the saves *)

Lemma store_comment_view (k : nat) (s s1 : state) :
  store_comment k s = Some s1 ->
  exists p p' : paper,
    allPapers s !! paperIndex s = Some p
    /\ update_metrics k (set_comment (default EmptyString (textareas s !! k))) p = Some p'
    /\ s1 = set_currentPaper p' s.
Proof.
  unfold store_comment, currentPaper. intros Hs.
  destruct (allPapers s !! paperIndex s) as [p|]; [|discriminate].
  cbn in Hs.
  destruct (update_metrics k _ p) as [p'|] eqn:Hu; [|discriminate].
  injection Hs as <-. exists p, p'. repeat split. exact Hu.
Qed.

Lemma stored_comment_updated (k : nat) (v : string) (s : state) (p p' : paper) :
  allPapers s !! paperIndex s = Some p ->
  update_metrics k (set_comment v) p = Some p' ->
  stored_comment (allPapers (set_currentPaper p' s)) (paperIndex s) k = Some v.
Proof.
  intros Hp Hu. unfold stored_comment. cbn [allPapers set_currentPaper].
  rewrite list_lookup_insert_eq by (eapply lookup_lt_Some; exact Hp).
  cbn [mbind option_bind].
  unfold update_metrics in Hu.
  destruct (reviews p !! k) as [r|] eqn:Hr; [|discriminate].
  injection Hu as <-. cbn [reviews with_reviews].
  rewrite list_lookup_insert_eq by (eapply lookup_lt_Some; exact Hr).
  reflexivity.
Qed.

Lemma step_view (s : state) (e : event) (s' : state) :
  step s e = Some s' ->
  paperIndex s' = paperIndex s
  /\ match e with
     | Elapse dt =>
         now s' = (now s + dt)%nat
         /\ commentSaveTimeouts s' = commentSaveTimeouts s
         /\ timers s' = timers s
         /\ next_timer s' = next_timer s
         /\ saves s' = saves s
     | TimerFires id =>
         exists due k : nat,
           timers s !! id = Some (due, k)
           /\ (due <= now s)%nat
           /\ now s' = now s
           /\ commentSaveTimeouts s' = delete k (commentSaveTimeouts s)
           /\ timers s' = delete id (timers s)
           /\ next_timer s' = next_timer s
           /\ saves s' = (saves s ++ [(TimerSave k, allPapers s')])%list
     | InputComment k v =>
         now s' = now s
         /\ commentSaveTimeouts s' = <[k := next_timer s]> (commentSaveTimeouts s)
         /\ timers s'
            = <[next_timer s := ((now s + 600)%nat, k)]>
                (cancel_timer (commentSaveTimeouts s) (timers s) k)
         /\ next_timer s' = Pos.succ (next_timer s)
         /\ saves s' = saves s
         /\ stored_comment (allPapers s') (paperIndex s') k = Some v
         /\ textareas s' !! k = Some v
     | BlurComment k =>
         now s' = now s
         /\ commentSaveTimeouts s' = delete k (commentSaveTimeouts s)
         /\ timers s' = cancel_timer (commentSaveTimeouts s) (timers s) k
         /\ next_timer s' = next_timer s
         /\ saves s' = (saves s ++ [(BlurSave k, allPapers s')])%list
         /\ stored_comment (allPapers s') (paperIndex s') k
            = Some (default EmptyString (textareas s !! k))
     | ClickStar _ _ _ =>
         now s' = now s
         /\ commentSaveTimeouts s' = commentSaveTimeouts s
         /\ timers s' = timers s
         /\ next_timer s' = next_timer s
         /\ saves s' = (saves s ++ [(StarSave, allPapers s')])%list
     | ClickSource _ _ =>
         now s' = now s
         /\ commentSaveTimeouts s' = commentSaveTimeouts s
         /\ timers s' = timers s
         /\ next_timer s' = next_timer s
         /\ saves s' = (saves s ++ [(SourceSave, allPapers s')])%list
     | ClickClear _ confirmed =>
         now s' = now s
         /\ commentSaveTimeouts s' = commentSaveTimeouts s
         /\ timers s' = timers s
         /\ next_timer s' = next_timer s
         /\ saves s'
            = if confirmed then (saves s ++ [(ClearSave, allPapers s')])%list
              else saves s
     end.
Proof.
  destruct e as [dt|id|k v|k|k key v|k v|k confirmed]; cbn [step]; intros Hstep.
  - injection Hstep as <-. repeat split.
  - destruct (timers s !! id) as [[due k]|] eqn:Hid; [|discriminate].
    destruct (Nat.leb_spec due (now s)); [|discriminate].
    injection Hstep as <-. split; [reflexivity|].
    exists due, k. repeat split. assumption.
  - destruct (store_comment k (set_textarea k v s)) as [s1|] eqn:Hs1; [|discriminate].
    cbn in Hstep. injection Hstep as <-.
    destruct (store_comment_view _ _ _ Hs1) as (p & p' & Hp & Hu & ->).
    cbn [set_textarea textareas] in Hu. rewrite lookup_insert_eq in Hu. cbn in Hu.
    split; [reflexivity|]. repeat split.
    + apply (stored_comment_updated k v (set_textarea k v s) p p'); assumption.
    + cbn. apply lookup_insert_eq.
  - destruct (store_comment k (forget_pending k (cancel_pending k s)))
      as [s1|] eqn:Hs1; [|discriminate].
    cbn in Hstep. injection Hstep as <-.
    destruct (store_comment_view _ _ _ Hs1) as (p & p' & Hp & Hu & ->).
    split; [reflexivity|]. repeat split.
    apply (stored_comment_updated k _ (forget_pending k (cancel_pending k s)) p p');
      assumption.
  - destruct (currentPaper s) as [p|]; [|discriminate]. cbn in Hstep.
    destruct (clickStar k key v p) as [p'|]; [|discriminate].
    injection Hstep as <-. repeat split.
  - destruct (currentPaper s) as [p|]; [|discriminate]. cbn in Hstep.
    destruct (clickSource k v p) as [p'|]; [|discriminate].
    injection Hstep as <-. repeat split.
  - destruct (currentPaper s) as [p|] eqn:Hcur; [|discriminate]. cbn in Hstep.
    destruct (clickClear k confirmed p) as [p'|]; [|discriminate]. cbn in Hstep.
    destruct confirmed; injection Hstep as <-; [|repeat split].
    unfold rebuild_textareas.
    destruct (currentPaper (saveEvaluation ClearSave (set_currentPaper p' s)));
      repeat split.
Qed.

Lemma step_consistent (s : state) (e : event) (s' : state) :
  timers_consistent s -> step s e = Some s' -> timers_consistent s'.
Proof.
  unfold timers_consistent. intros Hc Hstep.
  destruct (step_view s e s' Hstep) as [_ Hview].
  destruct e as [dt|id|k v|k|k key v|k v|k confirmed].
  - destruct Hview as (_ & -> & -> & -> & _). exact Hc.
  - destruct Hview as (due & k & Hid & _ & _ & -> & -> & -> & _).
    eapply consistent_fired; eassumption.
  - destruct Hview as (_ & -> & -> & -> & _).
    apply consistent_rescheduled. exact Hc.
  - destruct Hview as (_ & -> & -> & -> & _).
    apply consistent_cancelled. exact Hc.
  - destruct Hview as (_ & -> & -> & -> & _). exact Hc.
  - destruct Hview as (_ & -> & -> & -> & _). exact Hc.
  - destruct Hview as (_ & -> & -> & -> & _). exact Hc.
Qed.

Lemma initial_consistent (cfg : option config) (ps : list paper) (i : nat) :
  timers_consistent (initial cfg ps i).
Proof.
  unfold timers_consistent, initial, rebuild_textareas.
  destruct (currentPaper _); cbn; (split; [|split]).
  all: try (intros ? ? ? Hl; rewrite lookup_empty in Hl; discriminate).
  all: try (intros ? ? Hl; rewrite lookup_empty in Hl; discriminate).
  all: intros ? [x Hl]; rewrite lookup_empty in Hl; discriminate.
Qed.

Lemma reachable_consistent (s : state) : reachable s -> timers_consistent s.
Proof.
  induction 1 as [cfg ps i|s e s' _ IH Hstep].
  - apply initial_consistent.
  - eapply step_consistent; eassumption.
Qed.

(** *** A burst of keystrokes *)

Lemma timer_saves_snoc (k : nat) (s s' : state) (cause : save_cause)
    (body : list paper) :
  saves s' = (saves s ++ [(cause, body)])%list ->
  timer_saves k s'
  = (timer_saves k s + if bool_decide (cause = TimerSave k) then 1 else 0)%nat.
Proof.
  intros Hs. unfold timer_saves. rewrite Hs, List.filter_app, length_app.
  cbn [List.filter fst]. destruct (bool_decide (cause = TimerSave k)); reflexivity.
Qed.

Lemma timer_saves_same (k : nat) (s s' : state) :
  saves s' = saves s -> timer_saves k s' = timer_saves k s.
Proof. intros Hs. unfold timer_saves. rewrite Hs. reflexivity. Qed.

(** The step sent a save that is not the delayed save of the review at
    hand: the count is unchanged. *)
Ltac other_cause Hsaves :=
  rewrite (timer_saves_snoc _ _ _ _ _ Hsaves);
  rewrite bool_decide_eq_false_2 by congruence; lia.

(** Once the delayed save of review [k] has run, and as long as no
    keystroke follows, no further delayed save of review [k] is sent. *)
Lemma no_save_when_idle (k : nat) (es : list event) :
  forall (s s' : state) (since : nat),
    timers_consistent s ->
    commentSaveTimeouts s !! k = None ->
    (600 <= since)%nat ->
    within_window k since es ->
    run s es = Some s' ->
    timer_saves k s' = timer_saves k s.
Proof.
  induction es as [|e es IH]; intros s s' since Hc Hk Hsince Hwin Hrun.
  - injection Hrun as <-. reflexivity.
  - cbn [run] in Hrun. destruct (step s e) as [s1|] eqn:Hstep; [|discriminate].
    cbn in Hrun.
    pose proof (step_consistent _ _ _ Hc Hstep) as Hc1.
    destruct (step_view _ _ _ Hstep) as [_ Hview].
    destruct e as [dt|id|k' v|k'|k' key v|k' v|k' confirmed]; cbn [within_window] in Hwin.
    + destruct Hview as (_ & Hcst & _ & _ & Hsaves).
      rewrite <- (timer_saves_same k s s1 Hsaves).
      apply (IH s1 s' (since + dt)%nat); [assumption|congruence|lia|assumption..].
    + destruct Hview as (due & k1 & Hid & _ & _ & Hcst & _ & _ & Hsaves).
      assert (Hne : k1 <> k).
      { intros ->. destruct Hc as (H1 & _). specialize (H1 _ _ _ Hid). congruence. }
      rewrite (IH s1 s' since); [|assumption| |assumption..].
      * other_cause Hsaves.
      * rewrite Hcst. rewrite lookup_delete_ne by congruence. exact Hk.
    + destruct (decide (k' = k)) as [->|Hne]; [lia|].
      destruct Hview as (_ & Hcst & _ & _ & Hsaves & _).
      rewrite <- (timer_saves_same k s s1 Hsaves).
      apply (IH s1 s' since); [assumption| |assumption..].
      rewrite Hcst. rewrite lookup_insert_ne by congruence. exact Hk.
    + destruct Hwin as [Hne Hwin].
      destruct Hview as (_ & Hcst & _ & _ & Hsaves & _).
      rewrite (IH s1 s' since); [|assumption| |assumption..].
      * other_cause Hsaves.
      * rewrite Hcst. rewrite lookup_delete_ne by congruence. exact Hk.
    + destruct Hview as (_ & Hcst & _ & _ & Hsaves).
      rewrite (IH s1 s' since); [|assumption|congruence|assumption..].
      other_cause Hsaves.
    + destruct Hview as (_ & Hcst & _ & _ & Hsaves).
      rewrite (IH s1 s' since); [|assumption|congruence|assumption..].
      other_cause Hsaves.
    + destruct Hview as (_ & Hcst & _ & _ & Hsaves).
      rewrite (IH s1 s' since); [|assumption|congruence|assumption..].
      destruct confirmed.
      * other_cause Hsaves.
      * apply timer_saves_same. exact Hsaves.
Qed.

(** While the delayed save of review [k] is pending and the keystrokes keep
    coming within the window, at most one delayed save of review [k] is
    sent. *)
Lemma one_save_when_armed (k : nat) (es : list event) :
  forall (s s' : state) (since : nat) (id : positive) (due : nat),
    timers_consistent s ->
    commentSaveTimeouts s !! k = Some id ->
    timers s !! id = Some (due, k) ->
    (due + since = now s + 600)%nat ->
    within_window k since es ->
    run s es = Some s' ->
    (timer_saves k s' <= timer_saves k s + 1)%nat.
Proof.
  induction es as [|e es IH]; intros s s' since id due Hc Hk Hid Hdue Hwin Hrun.
  - injection Hrun as <-. lia.
  - cbn [run] in Hrun. destruct (step s e) as [s1|] eqn:Hstep; [|discriminate].
    cbn in Hrun.
    pose proof (step_consistent _ _ _ Hc Hstep) as Hc1.
    destruct (step_view _ _ _ Hstep) as [_ Hview].
    destruct e as [dt|id'|k' v|k'|k' key v|k' v|k' confirmed]; cbn [within_window] in Hwin.
    + destruct Hview as (Hnow & Hcst & Htm & _ & Hsaves).
      rewrite <- (timer_saves_same k s s1 Hsaves).
      apply (IH s1 s' (since + dt)%nat id due); [assumption|congruence|congruence|lia|assumption..].
    + destruct Hview as (due' & k1 & Hid' & Hdue' & Hnow & Hcst & Htm & _ & Hsaves).
      destruct (decide (k1 = k)) as [->|Hne].
      * assert (id' = id).
        { destruct Hc as (H1 & _). specialize (H1 _ _ _ Hid'). congruence. }
        subst id'. assert (due' = due) by congruence. subst due'.
        rewrite (no_save_when_idle k es s1 s' since); [|assumption| |lia|assumption..].
        -- rewrite (timer_saves_snoc k s s1 _ _ Hsaves).
           rewrite bool_decide_eq_true_2 by reflexivity. lia.
        -- rewrite Hcst. apply lookup_delete_eq.
      * assert (id' <> id) by congruence.
        etransitivity; [apply (IH s1 s' since id due); try assumption|].
        -- rewrite Hcst. rewrite lookup_delete_ne by congruence. exact Hk.
        -- rewrite Htm. rewrite lookup_delete_ne by congruence. exact Hid.
        -- lia.
        -- other_cause Hsaves.
    + destruct Hview as (Hnow & Hcst & Htm & _ & Hsaves & _).
      rewrite <- (timer_saves_same k s s1 Hsaves).
      destruct (decide (k' = k)) as [->|Hne].
      * destruct Hwin as [_ Hwin].
        apply (IH s1 s' 0%nat (next_timer s) (now s + 600)%nat); try assumption.
        -- rewrite Hcst. apply lookup_insert_eq.
        -- rewrite Htm. apply lookup_insert_eq.
        -- lia.
      * apply (IH s1 s' since id due); try assumption.
        -- rewrite Hcst. rewrite lookup_insert_ne by congruence. exact Hk.
        -- rewrite Htm.
           assert (id <> next_timer s).
           { intros ->. destruct Hc as (_ & _ & H3).
             assert (next_timer s < next_timer s)%positive by (apply H3; eauto). lia. }
           rewrite lookup_insert_ne by congruence.
           apply (cancelled_lookup _ _ _ Hc). split; [exact Hid|congruence].
        -- lia.
    + destruct Hwin as [Hne Hwin].
      destruct Hview as (Hnow & Hcst & Htm & _ & Hsaves & _).
      etransitivity; [apply (IH s1 s' since id due); try assumption|].
      * rewrite Hcst. rewrite lookup_delete_ne by congruence. exact Hk.
      * rewrite Htm. apply (cancelled_lookup _ _ _ Hc). split; [exact Hid|congruence].
      * lia.
      * other_cause Hsaves.
    + destruct Hview as (Hnow & Hcst & Htm & _ & Hsaves).
      etransitivity;
        [apply (IH s1 s' since id due); [assumption|congruence|congruence|lia|assumption..]|].
      other_cause Hsaves.
    + destruct Hview as (Hnow & Hcst & Htm & _ & Hsaves).
      etransitivity;
        [apply (IH s1 s' since id due); [assumption|congruence|congruence|lia|assumption..]|].
      other_cause Hsaves.
    + destruct Hview as (Hnow & Hcst & Htm & _ & Hsaves).
      etransitivity;
        [apply (IH s1 s' since id due); [assumption|congruence|congruence|lia|assumption..]|].
      destruct confirmed.
      * other_cause Hsaves.
      * rewrite (timer_saves_same k s s1 Hsaves). lia.
Qed.

(** *** The handlers of an existing review run *)

Lemma store_comment_enabled (k : nat) (s : state) (p : paper) (r : review) :
  currentPaper s = Some p -> reviews p !! k = Some r ->
  exists p' r' : paper * review,
    store_comment k s = Some (set_currentPaper p'.1 s)
    /\ currentPaper (set_currentPaper p'.1 s) = Some p'.1
    /\ reviews p'.1 !! k = Some p'.2.
Proof.
  intros Hp Hr. unfold store_comment. rewrite Hp. cbn [mbind option_bind].
  unfold update_metrics. rewrite Hr. cbn [mbind option_bind].
  set (r' := with_metrics _ r). set (p' := with_reviews _ p).
  exists (p', r'), (p', r'). cbn [fst snd]. split; [reflexivity|]. split.
  - unfold currentPaper in *. cbn [set_currentPaper allPapers paperIndex].
    apply list_lookup_insert_eq. eapply lookup_lt_Some. exact Hp.
  - unfold p'. cbn [reviews with_reviews].
    apply list_lookup_insert_eq. eapply lookup_lt_Some. exact Hr.
Qed.

(** A keystroke into the field of an existing review is handled, and the
    review is still there afterwards. *)
Lemma input_enabled (k : nat) (v : string) (s : state) (p : paper) (r : review) :
  currentPaper s = Some p -> reviews p !! k = Some r ->
  exists (s' : state) (p' : paper) (r' : review),
    step s (InputComment k v) = Some s'
    /\ currentPaper s' = Some p' /\ reviews p' !! k = Some r'.
Proof.
  intros Hp Hr.
  destruct (store_comment_enabled k (set_textarea k v s) p r Hp Hr)
    as ([p' r'] & _ & Hstore & Hp' & Hr').
  cbn [fst snd] in *. cbn [step]. rewrite Hstore. cbn [mbind option_bind].
  eexists. exists p', r'. split; [reflexivity|]. split; [exact Hp'|exact Hr'].
Qed.

(** So is a blur. *)
Lemma blur_enabled (k : nat) (s : state) (p : paper) (r : review) :
  currentPaper s = Some p -> reviews p !! k = Some r ->
  exists s' : state, step s (BlurComment k) = Some s'.
Proof.
  intros Hp Hr.
  destruct (store_comment_enabled k (forget_pending k (cancel_pending k s)) p r Hp Hr)
    as ([p' r'] & _ & Hstore & _ & _).
  cbn [fst snd] in *. cbn [step]. rewrite Hstore. cbn [mbind option_bind].
  eexists. reflexivity.
Qed.

Lemma default_last_cons (v a : string) (l : list string) :
  default v (last (a :: l)) = default a (last l).
Proof.
  revert v a. induction l as [|b l IH]; intros v a; [reflexivity|].
  change (last (a :: b :: l)) with (last (b :: l)).
  rewrite (IH v b), (IH a b). reflexivity.
Qed.

Lemma last_typed_cons (v : string) (tv : nat * string) (typed : list (nat * string)) :
  last_typed v (tv :: typed) = last_typed tv.2 typed.
Proof. unfold last_typed. cbn [fmap list_fmap]. apply default_last_cons. Qed.

(** Keystrokes that follow one another within the window are all handled;
    nothing is sent meanwhile, memory holds the last text, and one timer is
    left, due 600 ms after the last keystroke. *)
Lemma keystrokes_run (k : nat) (typed : list (nat * string)) :
  Forall (fun tv : nat * string => (tv.1 < 600)%nat) typed ->
  forall (s : state) (p : paper) (r : review) (v : string),
    timers_consistent s ->
    currentPaper s = Some p -> reviews p !! k = Some r ->
    exists s' : state,
      run s (InputComment k v :: keystrokes k typed) = Some s'
      /\ within_window k 0 (keystrokes k typed)
      /\ saves s' = saves s
      /\ stored_comment (allPapers s') (paperIndex s') k = Some (last_typed v typed)
      /\ textareas s' !! k = Some (last_typed v typed)
      /\ exists id : positive,
           commentSaveTimeouts s' !! k = Some id
           /\ timers s' !! id = Some ((now s' + 600)%nat, k)
           /\ forall id' due', timers s' !! id' = Some (due', k) -> id' = id.
Proof.
  induction 1 as [|[dt v2] typed Hdt _ IH]; intros s p r v Hc Hp Hr.
  - destruct (input_enabled k v s p r Hp Hr) as (s1 & p1 & r1 & Hstep & _ & _).
    exists s1. cbn [keystrokes flat_map run]. rewrite Hstep. cbn [mbind option_bind].
    split; [reflexivity|]. split; [exact I|].
    pose proof (step_consistent _ _ _ Hc Hstep) as (Hrec & _ & _).
    destruct (step_view _ _ _ Hstep) as (_ & Hnow & Hcst & Htm & _ & Hsaves & Hcomment & Htext).
    split; [exact Hsaves|]. split; [exact Hcomment|]. split; [exact Htext|].
    exists (next_timer s). split; [rewrite Hcst; apply lookup_insert_eq|].
    split; [rewrite Htm, Hnow; apply lookup_insert_eq|].
    intros id' due' Hid'. apply Hrec in Hid'. rewrite Hcst, lookup_insert_eq in Hid'.
    congruence.
  - destruct (input_enabled k v s p r Hp Hr) as (s1 & p1 & r1 & Hstep & Hp1 & Hr1).
    pose proof (step_consistent _ _ _ Hc Hstep) as Hc1.
    destruct (step_view _ _ _ Hstep) as (_ & _ & _ & _ & _ & Hsaves & _).
    destruct (IH (advance dt s1) p1 r1 v2 Hc1 Hp1 Hr1)
      as (s' & Hrun & Hwin & Hsaves' & Hcomment & Htext & Hid).
    exists s'. cbn [keystrokes flat_map app fst snd] in *.
    cbn [run]. rewrite Hstep. cbn [mbind option_bind step].
    split; [exact Hrun|]. split.
    + cbn [within_window]. rewrite decide_True by reflexivity.
      split; [cbn in Hdt; lia|exact Hwin].
    + split; [rewrite Hsaves'; exact Hsaves|].
      rewrite last_typed_cons. cbn [snd]. auto.
Qed.

(** *** The claim *)

(** C8.  In every reachable state of the workspace and for every [k]:
    - at most one comment timer is pending for [k];
    - a burst of keystrokes into the comment field of [k], each less than
      600 ms after the one before, with any other events in between, makes
      the delayed save of [k] send at most one save;
    and when [k] is a review of the open paper:
    - a keystroke into its comment field is handled: it stores the text in
      memory at once, sends nothing, cancels the timer pending for [k] if
      there is one, and leaves one timer recorded for [k], due 600 ms
      later;
    - a burst of keystrokes, each less than 600 ms after the one before, is
      handled to its end: nothing is sent during it, memory and the field
      hold the last text, and exactly one timer is pending for [k], due
      600 ms after the last keystroke;
    - a blur of the field is handled: it leaves no timer pending for [k]
      and sends exactly one save at once, whose body holds the current text
      of the field;
    - so a blur right after a keystroke saves the text just typed. *)
Theorem C8_comment_debounce (s : state) (k : nat) (p : paper) (r : review) :
  reachable s ->
  (forall (id1 id2 : positive) (due1 due2 : nat),
      timers s !! id1 = Some (due1, k) ->
      timers s !! id2 = Some (due2, k) ->
      id1 = id2)
  /\ (forall (v : string) (es : list event) (s' : state),
        run s (InputComment k v :: es) = Some s' ->
        within_window k 0 es ->
        (timer_saves k s' <= timer_saves k s + 1)%nat)
  /\ (currentPaper s = Some p ->
      reviews p !! k = Some r ->
      (forall v : string,
         exists s' : state,
           step s (InputComment k v) = Some s'
           /\ stored_comment (allPapers s') (paperIndex s') k = Some v
           /\ saves s' = saves s
           /\ (forall id0, commentSaveTimeouts s !! k = Some id0 ->
                           timers s' !! id0 = None)
           /\ exists id, commentSaveTimeouts s' !! k = Some id
                         /\ timers s' !! id = Some ((now s + 600)%nat, k))
      /\ (forall (v : string) (typed : list (nat * string)),
            Forall (fun tv : nat * string => (tv.1 < 600)%nat) typed ->
            exists s' : state,
              run s (InputComment k v :: keystrokes k typed) = Some s'
              /\ within_window k 0 (keystrokes k typed)
              /\ saves s' = saves s
              /\ stored_comment (allPapers s') (paperIndex s') k
                 = Some (last_typed v typed)
              /\ textareas s' !! k = Some (last_typed v typed)
              /\ exists id : positive,
                   commentSaveTimeouts s' !! k = Some id
                   /\ timers s' !! id = Some ((now s' + 600)%nat, k)
                   /\ forall id' due',
                        timers s' !! id' = Some (due', k) -> id' = id)
      /\ (exists s' : state,
            step s (BlurComment k) = Some s'
            /\ commentSaveTimeouts s' !! k = None
            /\ (forall id due, timers s' !! id <> Some (due, k))
            /\ saves s' = (saves s ++ [(BlurSave k, allPapers s')])%list
            /\ stored_comment (allPapers s') (paperIndex s') k
               = Some (default EmptyString (textareas s !! k)))
      /\ (forall v : string,
            exists s1 s2 : state,
              step s (InputComment k v) = Some s1
              /\ step s1 (BlurComment k) = Some s2
              /\ saves s2 = (saves s ++ [(BlurSave k, allPapers s2)])%list
              /\ stored_comment (allPapers s2) (paperIndex s2) k = Some v
              /\ commentSaveTimeouts s2 !! k = None
              /\ forall id due, timers s2 !! id <> Some (due, k))).
Proof.
  intros Hreach. pose proof (reachable_consistent s Hreach) as Hc.
  assert (Hblur : forall s0 s' : state,
             timers_consistent s0 ->
             step s0 (BlurComment k) = Some s' ->
             commentSaveTimeouts s' !! k = None
             /\ (forall id due, timers s' !! id <> Some (due, k))
             /\ saves s' = (saves s0 ++ [(BlurSave k, allPapers s')])%list
             /\ stored_comment (allPapers s') (paperIndex s') k
                = Some (default EmptyString (textareas s0 !! k))).
  { intros s0 s' Hc0 Hstep.
    destruct (step_view _ _ _ Hstep) as (_ & _ & Hcst & Htm & _ & Hsaves & Hcomment).
    split; [rewrite Hcst; apply lookup_delete_eq|].
    split; [|split; assumption].
    intros id due Hid. rewrite Htm in Hid.
    apply (cancelled_lookup _ _ _ Hc0) in Hid. destruct Hid as [_ Hne]. congruence. }
  split; [|split; [|intros Hp Hr; split; [|split; [|split]]]].
  - intros id1 id2 due1 due2 H1 H2. destruct Hc as (Hrec & _).
    pose proof (Hrec _ _ _ H1). pose proof (Hrec _ _ _ H2). congruence.
  - intros v es s' Hrun Hwin. cbn [run] in Hrun.
    destruct (step s (InputComment k v)) as [s1|] eqn:Hstep; [|discriminate].
    cbn in Hrun.
    destruct (step_view _ _ _ Hstep) as (_ & Hnow & Hcst & Htm & _ & Hsaves & _).
    rewrite <- (timer_saves_same k s s1 Hsaves).
    apply (one_save_when_armed k es s1 s' 0%nat (next_timer s) (now s + 600)%nat).
    + eapply step_consistent; eassumption.
    + rewrite Hcst. apply lookup_insert_eq.
    + rewrite Htm. apply lookup_insert_eq.
    + lia.
    + exact Hwin.
    + exact Hrun.
  - intros v. destruct (input_enabled k v s p r Hp Hr) as (s' & _ & _ & Hstep & _).
    exists s'. split; [exact Hstep|].
    destruct (step_view _ _ _ Hstep) as (_ & _ & Hcst & Htm & _ & Hsaves & Hcomment & _).
    split; [exact Hcomment|]. split; [exact Hsaves|]. split.
    + intros id0 Hid0. rewrite Htm.
      assert (id0 <> next_timer s).
      { intros ->. destruct Hc as (_ & H2 & H3). destruct (H2 _ _ Hid0) as [due Hpend].
        assert (next_timer s < next_timer s)%positive by (apply H3; eauto). lia. }
      rewrite lookup_insert_ne by congruence.
      unfold cancel_timer. rewrite Hid0. apply lookup_delete_eq.
    + exists (next_timer s). split.
      * rewrite Hcst. apply lookup_insert_eq.
      * rewrite Htm. apply lookup_insert_eq.
  - intros v typed Htyped. exact (keystrokes_run k typed Htyped s p r v Hc Hp Hr).
  - destruct (blur_enabled k s p r Hp Hr) as (s' & Hstep).
    exists s'. split; [exact Hstep|]. apply (Hblur s s' Hc Hstep).
  - intros v. destruct (input_enabled k v s p r Hp Hr) as (s1 & p1 & r1 & Hin & Hp1 & Hr1).
    destruct (blur_enabled k s1 p1 r1 Hp1 Hr1) as (s2 & Hbl).
    exists s1, s2. split; [exact Hin|]. split; [exact Hbl|].
    pose proof (step_consistent _ _ _ Hc Hin) as Hc1.
    destruct (step_view _ _ _ Hin) as (_ & _ & _ & _ & _ & Hsaves & _ & Htext).
    destruct (Hblur s1 s2 Hc1 Hbl) as (Hnone & Hno & Hs2 & Hcomment).
    rewrite Htext in Hcomment. rewrite Hsaves in Hs2. auto.
Qed.

(** The witness: the state after a first keystroke, in which a timer is
    pending for the one review of the open paper. *)
Lemma C8_comment_debounce_witness :
  let p0 := Paper "t" None None [] [] [] "not_started"
                  [Review "r" None [] (Metrics None None None None None None None)] in
  let r := Review "r" None []
                  (Metrics None None None None None None (Some "a"%string)) in
  let p := Paper "t" None None [] [] [] "not_started" [r] in
  let s := default (initial None [p0] 0)
                   (step (initial None [p0] 0) (InputComment 0 "a"%string)) in
  let k := 0%nat in
  (reachable s /\ currentPaper s = Some p /\ reviews p !! k = Some r
   /\ timers s !! 1%positive = Some (600%nat, k))
  /\
  (forall (id1 id2 : positive) (due1 due2 : nat),
      timers s !! id1 = Some (due1, k) ->
      timers s !! id2 = Some (due2, k) ->
      id1 = id2)
  /\ (forall (v : string) (es : list event) (s' : state),
        run s (InputComment k v :: es) = Some s' ->
        within_window k 0 es ->
        (timer_saves k s' <= timer_saves k s + 1)%nat)
  /\ ((forall v : string,
         exists s' : state,
           step s (InputComment k v) = Some s'
           /\ stored_comment (allPapers s') (paperIndex s') k = Some v
           /\ saves s' = saves s
           /\ (forall id0, commentSaveTimeouts s !! k = Some id0 ->
                           timers s' !! id0 = None)
           /\ exists id, commentSaveTimeouts s' !! k = Some id
                         /\ timers s' !! id = Some ((now s + 600)%nat, k))
      /\ (forall (v : string) (typed : list (nat * string)),
            Forall (fun tv : nat * string => (tv.1 < 600)%nat) typed ->
            exists s' : state,
              run s (InputComment k v :: keystrokes k typed) = Some s'
              /\ within_window k 0 (keystrokes k typed)
              /\ saves s' = saves s
              /\ stored_comment (allPapers s') (paperIndex s') k
                 = Some (last_typed v typed)
              /\ textareas s' !! k = Some (last_typed v typed)
              /\ exists id : positive,
                   commentSaveTimeouts s' !! k = Some id
                   /\ timers s' !! id = Some ((now s' + 600)%nat, k)
                   /\ forall id' due',
                        timers s' !! id' = Some (due', k) -> id' = id)
      /\ (exists s' : state,
            step s (BlurComment k) = Some s'
            /\ commentSaveTimeouts s' !! k = None
            /\ (forall id due, timers s' !! id <> Some (due, k))
            /\ saves s' = (saves s ++ [(BlurSave k, allPapers s')])%list
            /\ stored_comment (allPapers s') (paperIndex s') k
               = Some (default EmptyString (textareas s !! k)))
      /\ (forall v : string,
            exists s1 s2 : state,
              step s (InputComment k v) = Some s1
              /\ step s1 (BlurComment k) = Some s2
              /\ saves s2 = (saves s ++ [(BlurSave k, allPapers s2)])%list
              /\ stored_comment (allPapers s2) (paperIndex s2) k = Some v
              /\ commentSaveTimeouts s2 !! k = None
              /\ forall id due, timers s2 !! id <> Some (due, k))).
Proof.
  intros p0 r p s k.
  assert (Hreach : reachable s).
  { apply (reachable_step (initial None [p0] 0) (InputComment 0 "a"%string) s);
      [apply reachable_initial|reflexivity]. }
  split; [split; [exact Hreach|split; [reflexivity|split; reflexivity]]|].
  destruct (C8_comment_debounce s k p r Hreach) as (Hone & Hburst & Hhandled).
  split; [exact Hone|]. split; [exact Hburst|].
  apply Hhandled; reflexivity.
Defined.

(** Five keystrokes within 600 ms, then a blur: one save, with the whole
    text, and no timer left; without the blur the timer fires once. *)
Example five_keystrokes :
  let p := Paper "t" None None [] [] [] "not_started"
                 [Review "r" None [] (Metrics None None None None None None None)] in
  let typing := [InputComment 0 "g"; Elapse 100; InputComment 0 "go"; Elapse 100;
                 InputComment 0 "goo"; Elapse 100; InputComment 0 "good";
                 Elapse 100; InputComment 0 "good."] in
  (exists s : state,
      run (initial None [p] 0) (typing ++ [BlurComment 0])%list = Some s
      /\ ((fun sv => (sv.1, stored_comment sv.2 0 0)) <$> saves s)
         = [(BlurSave 0, Some "good.")]
      /\ timers s = ∅)
  /\ (exists s : state,
        run (initial None [p] 0) (typing ++ [Elapse 600; TimerFires 5])%list = Some s
        /\ ((fun sv => (sv.1, stored_comment sv.2 0 0)) <$> saves s)
           = [(TimerSave 0, Some "good.")]
        /\ timers s = ∅)
  /\ run (initial None [p] 0) (typing ++ [Elapse 599; TimerFires 5])%list = None.
Proof.
  cbv zeta. split; [|split].
  - eexists. split; [vm_compute; reflexivity|]. split; [reflexivity|].
    apply map_eq. intros i. vm_compute. destruct i; reflexivity.
  - eexists. split; [vm_compute; reflexivity|]. split; [reflexivity|].
    apply map_eq. intros i. vm_compute. destruct i; reflexivity.
  - vm_compute. reflexivity.
Qed.

End DebounceFacts.

(** ** The generator's range *)

Module GeneratorFacts.
Import F64 F64Facts Shuffle ShuffleFacts Generator.
Local Open Scope Q_scope.

Lemma rng_call_unit (state : f64) :
  integral state ->
  exists (s : Z) (d : Q),
    rng_call state = (Fin (inject_Z s), Fin d)
    /\ (0 <= s < 2147483647)%Z /\ 0 <= d /\ d < 1.
Proof.
  intros Hint. destruct (rng_call_state state Hint) as (s & Hcall & Hs).
  rewrite (of_Z_exact 2147483647) in Hcall by (cbn; lia).
  destruct (Z.eq_dec s 0%Z) as [->|Hne].
  - exists 0%Z, 0. split; [exact Hcall|]. split; [lia|]. split; lra.
  - destruct (quotient_range s ltac:(lia)) as (d & Hd & Hlo & Hhi).
    exists s, d. rewrite Hd in Hcall. split; [exact Hcall|].
    split; [lia|]. split; lra.
Qed.

(** X1.  Whatever the integer seed, every number the generator returns is
    finite, at least 0 and strictly below 1, although the state is divided
    by 0x7fffffff and not by 2^31: the state never reaches 0x7fffffff. *)
Theorem X1_rng_unit_interval (seed : Z) (n : nat) :
  Forall (fun r : f64 => exists d : Q, r = Fin d /\ 0 <= d /\ d < 1)
         (rng_outputs n (seededRandom (of_Z seed))).
Proof.
  unfold seededRandom. pose proof (integral_of_Z seed) as Hint.
  revert Hint. generalize (of_Z seed). induction n as [|n IH]; intros state Hint.
  - constructor.
  - cbn [rng_outputs].
    destruct (rng_call_unit state Hint) as (s & d & -> & _ & Hlo & Hhi).
    constructor; [exists d; auto|]. apply IH. constructor.
Qed.

End GeneratorFacts.

(** ** Rendering and loading *)

Module RenderFacts.
Import F64 F64Facts Shuffle ShuffleFacts Model Progress Filters Workspace.
Import FilterFacts NavigationFacts LoadFacts Page.

Lemma integral_add_index (x : f64) (i : Z) :
  integral x -> (Z.abs i <= 2 ^ 53)%Z -> integral (add x (of_Z i)).
Proof.
  intros Hx Hi. rewrite (of_Z_exact i Hi). destruct Hx as [w| |].
  - cbn [add].
    rewrite (round64_comp _ (inject_Z (w + i))) by (rewrite inject_Z_plus; reflexivity).
    apply (integral_of_Z (w + i)).
  - constructor.
  - constructor.
Qed.

Lemma mapM_Permutation {A B : Type} (g : A -> option B) (l1 l2 : list A) :
  l1 ≡ₚ l2 ->
  forall k1 : list B,
    mapM g l1 = Some k1 -> exists k2 : list B, mapM g l2 = Some k2 /\ k1 ≡ₚ k2.
Proof.
  induction 1 as [|x l1 l2 _ IH|x y l|l1 l2 l3 _ IH1 _ IH2]; intros k1 Hk.
  - exists []. split; [reflexivity|]. cbn in Hk. injection Hk as <-. reflexivity.
  - cbn in Hk |- *. destruct (g x) as [b|]; [|discriminate]. cbn in Hk |- *.
    destruct (mapM g l1) as [k|] eqn:Hl1; [|discriminate]. cbn in Hk.
    injection Hk as <-. destruct (IH k eq_refl) as (k2 & -> & Hp).
    exists (b :: k2). split; [reflexivity|]. constructor. exact Hp.
  - cbn in Hk |- *. destruct (g y) as [b|]; [|discriminate]. cbn in Hk |- *.
    destruct (g x) as [a|]; [|discriminate]. cbn in Hk |- *.
    destruct (mapM g l) as [k|]; [|discriminate]. cbn in Hk |- *.
    injection Hk as <-. exists (a :: b :: k). split; [reflexivity|]. constructor.
  - destruct (IH1 k1 Hk) as (k2 & Hk2 & Hp12).
    destruct (IH2 k2 Hk2) as (k3 & Hk3 & Hp23).
    exists k3. split; [exact Hk3|]. etransitivity; eassumption.
Qed.

Lemma mapM_indexed {A : Type} (l : list A) :
  forall f : nat -> A -> option (A * nat),
    (forall i x, fst <$> f i x = Some x) ->
    mapM (fun item : option (A * nat) => fst <$> item) (imap f l) = Some l.
Proof.
  induction l as [|x l IH]; intros f Hf; [reflexivity|].
  cbn [imap mapM]. rewrite Hf. cbn [mbind option_bind].
  rewrite (IH (f ∘ S)) by (intros i y; apply Hf). reflexivity.
Qed.

(** The order of display is a permutation of the reviews. *)
Lemma reviewsToRender_permutes (cfg : option config) (paperIndex : Z) (p : paper) :
  (Z.abs paperIndex <= 2 ^ 53)%Z ->
  (Z.of_nat (length (reviews p)) < 2 ^ 32)%Z ->
  exists rs : list review,
    reviewsToRender cfg paperIndex p = Some rs /\ rs ≡ₚ reviews p.
Proof.
  intros Hidx Hlen. unfold reviewsToRender.
  destruct cfg as [c|]; [|exists (reviews p); split; reflexivity].
  destruct (shuffleReviews c); [|exists (reviews p); split; reflexivity].
  cbv zeta.
  set (L := imap (fun idx review => Some (review, idx)) (reviews p)).
  set (seed := add (of_Z (shuffleSeed c)) (of_Z paperIndex)).
  assert (HL : length L = length (reviews p)) by apply length_imap.
  assert (Hsh : exists sh, shuffleWithSeed None L seed = Some sh /\ sh ≡ₚ L).
  { unfold shuffleWithSeed, seededRandom. cbv zeta.
    destruct L as [|x L'] eqn:EL.
    - exists []. split; reflexivity.
    - apply shuffle_loop_permutes.
      + apply integral_add_index; [apply integral_of_Z|exact Hidx].
      + cbn [length]. lia.
      + rewrite HL. exact Hlen. }
  destruct Hsh as (sh & -> & Hperm). cbn [mbind option_bind].
  destruct (mapM_Permutation (fun item : option (review * nat) => fst <$> item)
              L sh (symmetry Hperm) (reviews p)) as (rs & Hrs & Hp).
  { apply mapM_indexed. reflexivity. }
  exists rs. split; [exact Hrs|]. symmetry. exact Hp.
Qed.

(** Every item is built from the review in display position [k] and from
    the ratings of the review stored at index [k]. *)
Lemma renderReviews_total (cfg : option config) (paperIndex : Z) (p : paper) :
  (Z.abs paperIndex <= 2 ^ 53)%Z ->
  (Z.of_nat (length (reviews p)) < 2 ^ 32)%Z ->
  exists items : list review_item,
    renderReviews cfg paperIndex p = Some items
    /\ shown <$> items ≡ₚ reviews p
    /\ data_review <$> items = seq 0 (length (reviews p))
    /\ Forall2 (fun item r =>
                  main_text item = mainText cfg (shown item)
                  /\ stars item = filled_stars r
                  /\ comment_value item = comment_of r)
               items (reviews p).
Proof.
  intros Hidx Hlen.
  destruct (reviewsToRender_permutes cfg paperIndex p Hidx Hlen) as (rs & Hrs & Hperm).
  assert (Hl : length rs = length (reviews p)) by (apply Permutation_length; exact Hperm).
  unfold renderReviews. destruct (reviews p) as [|r0 rest] eqn:Erev.
  - exists []. repeat split; constructor.
  - rewrite <- Erev in *. clear r0 rest Erev. rewrite Hrs. cbn [mbind option_bind].
    assert (Hall : exists items,
               mapM (fun entry : nat * review => render_item cfg p entry.1 entry.2)
                    (imap pair rs) = Some items).
    { apply mapM_is_Some. apply Forall_forall. intros [k sh] Hin.
      apply elem_of_imap_pair in Hin. apply lookup_lt_Some in Hin.
      destruct (lookup_lt_is_Some_2 (reviews p) k ltac:(lia)) as [r Hr].
      cbn [fst snd compose]. rewrite (render_item_in_range cfg p k sh r Hr). eauto. }
    destruct Hall as (items & Hitems). exists items. split; [exact Hitems|].
    apply mapM_Some in Hitems.
    assert (Hk : forall k item, items !! k = Some item ->
               exists sh r, rs !! k = Some sh /\ reviews p !! k = Some r
                 /\ item = ReviewItem sh (mainText cfg sh) k (filled_stars r) (comment_of r)).
    { intros k item Hit.
      destruct (Forall2_lookup_r _ _ _ _ _ Hitems Hit) as ([k' sh] & Hx & Hrender).
      rewrite list_lookup_imap in Hx.
      destruct (rs !! k) as [sh'|] eqn:Hsh; [|discriminate]. cbn in Hx.
      injection Hx as <- <-. cbn [fst snd] in Hrender.
      apply lookup_lt_Some in Hsh as Hlt.
      destruct (lookup_lt_is_Some_2 (reviews p) k ltac:(lia)) as [r Hr].
      rewrite (render_item_in_range cfg p k sh' r Hr) in Hrender.
      injection Hrender as <-. eauto. }
    assert (Hlen' : length items = length rs).
    { apply Forall2_length in Hitems. rewrite length_imap in Hitems. lia. }
    assert (Hshown : shown <$> items = rs).
    { apply list_eq. intros k. rewrite list_lookup_fmap.
      destruct (items !! k) as [item|] eqn:Hit.
      - destruct (Hk k item Hit) as (sh & r & -> & _ & ->). reflexivity.
      - cbn. symmetry. apply lookup_ge_None. apply lookup_ge_None in Hit. lia. }
    split; [rewrite Hshown; exact Hperm|]. split.
    + apply list_eq. intros k. rewrite list_lookup_fmap.
      destruct (items !! k) as [item|] eqn:Hit.
      * destruct (Hk k item Hit) as (sh & r & _ & Hr & ->). cbn.
        symmetry. apply lookup_seq. apply lookup_lt_Some in Hr. split; [reflexivity|lia].
      * cbn. symmetry. apply lookup_ge_None. rewrite length_seq.
        apply lookup_ge_None in Hit. lia.
    + apply Forall2_same_length_lookup. split; [lia|].
      intros k item r Hit Hr.
      destruct (Hk k item Hit) as (sh & r' & _ & Hr' & ->).
      rewrite Hr in Hr'. injection Hr' as <-. cbn. auto.
Qed.

End RenderFacts.

(** ** The page after loading: outcome, position, navigation *)

Module PageFacts.
Import Model Progress Filters Workspace Page.
Import FilterFacts NavigationFacts LoadFacts RenderFacts.

(** [indexOf] returns -1 for a value that does not occur, and the first
    position of one that does. *)
Lemma indexOf_found (l : list nat) (x : nat) :
  (indexOf l x = (-1)%Z /\ x ∉ l)
  \/ exists k : nat,
       indexOf l x = Z.of_nat k /\ l !! k = Some x
       /\ forall j : nat, (j < k)%nat -> l !! j <> Some x.
Proof.
  induction l as [|y l IH].
  - left. split; [reflexivity|]. apply not_elem_of_nil.
  - cbn [indexOf]. destruct (Nat.eqb_spec y x) as [->|Hne].
    + right. exists 0%nat. split; [reflexivity|]. split; [reflexivity|].
      intros j Hj. lia.
    + destruct IH as [[-> Hnot]|(k & -> & Hk & Hfirst)].
      * left. split; [reflexivity|]. apply not_elem_of_cons. split; [congruence|exact Hnot].
      * right. exists (S k). destruct (Z.ltb_spec (Z.of_nat k) 0); [lia|].
        split; [lia|]. split; [exact Hk|].
        intros [|j] Hj; cbn; [congruence|apply Hfirst; lia].
Qed.

Lemma indexOf_NoDup (l : list nat) (x k : nat) :
  NoDup l -> l !! k = Some x -> indexOf l x = Z.of_nat k.
Proof.
  intros Hnd Hk. destruct (indexOf_found l x) as [[_ Hnot]|(k' & -> & Hk' & _)].
  - exfalso. apply Hnot. apply list_elem_of_lookup. exists k. exact Hk.
  - f_equal. eapply NoDup_lookup; eassumption.
Qed.

(** The buttons and the handlers, for any list without repetitions. *)
Lemma navigation_bar_agrees (l : list nat) (x : nat) :
  NoDup l ->
  let cfi := indexOf l x in
  let bar := updateNavigationButtons l cfi in
  (prev_disabled bar = true <-> navigateToPreviousPaper l cfi = None)
  /\ (next_disabled bar = true <-> navigateToNextPaper l cfi = None)
  /\ (forall k : nat, l !! k = Some x ->
        position_text bar = (Z.of_nat k + 1, Z.of_nat (length l))%Z
        /\ navigateToNextPaper l cfi = l !! S k
        /\ navigateToPreviousPaper l cfi
           = match k with O => None | S k' => l !! k' end)
  /\ (x ∉ l ->
        position_text bar = (1, 1)%Z
        /\ prev_disabled bar = true
        /\ navigateToNextPaper l cfi = l !! 0%nat).
Proof.
  intros Hnd cfi bar.
  assert (Hnext : forall k : nat, cfi = Z.of_nat k -> (k < length l)%nat ->
            navigateToNextPaper l cfi = l !! S k
            /\ (next_disabled bar = true <-> l !! S k = None)).
  { intros k Hcfi Hk. unfold navigateToNextPaper, bar, updateNavigationButtons.
    cbn [next_disabled]. rewrite Hcfi.
    destruct (Z.ltb_spec (Z.of_nat k) (Z.of_nat (length l) - 1)) as [Hlt|Hge].
    - replace (Z.to_nat (Z.of_nat k + 1)) with (S k) by lia.
      split; [reflexivity|].
      destruct (Z.leb_spec (Z.of_nat (length l) - 1) (Z.of_nat k)); [lia|].
      destruct (lookup_lt_is_Some_2 l (S k) ltac:(lia)) as [y Hy]. rewrite Hy.
      split; discriminate.
    - assert (Hnone : l !! S k = None) by (apply lookup_ge_None; lia).
      rewrite Hnone. split; [reflexivity|].
      destruct (Z.leb_spec (Z.of_nat (length l) - 1) (Z.of_nat k)); [|lia].
      split; reflexivity. }
  assert (Hprev : forall k : nat, cfi = Z.of_nat k -> (k < length l)%nat ->
            navigateToPreviousPaper l cfi = match k with O => None | S k' => l !! k' end
            /\ (prev_disabled bar = true <-> k = 0%nat)).
  { intros k Hcfi Hk. unfold navigateToPreviousPaper, bar, updateNavigationButtons.
    cbn [prev_disabled]. rewrite Hcfi. destruct k as [|k'].
    - split; [reflexivity|]. split; reflexivity.
    - destruct (Z.ltb_spec 0 (Z.of_nat (S k'))); [|lia].
      replace (Z.to_nat (Z.of_nat (S k') - 1)) with k' by lia.
      split; [reflexivity|].
      destruct (Z.leb_spec (Z.of_nat (S k')) 0); [lia|]. split; discriminate. }
  assert (Habsent : cfi = (-1)%Z ->
            position_text bar = (1, 1)%Z /\ prev_disabled bar = true
            /\ navigateToNextPaper l cfi = l !! 0%nat
            /\ navigateToPreviousPaper l cfi = None
            /\ (next_disabled bar = true <-> l !! 0%nat = None)).
  { intros Hcfi. unfold navigateToNextPaper, navigateToPreviousPaper, bar,
      updateNavigationButtons. cbn [position_text prev_disabled next_disabled].
    rewrite Hcfi. split; [reflexivity|]. split; [reflexivity|].
    destruct l as [|y l'].
    - cbn. repeat split; reflexivity.
    - cbn [length]. destruct (Z.ltb_spec (-1) (Z.of_nat (S (length l')) - 1)); [|lia].
      destruct (Z.leb_spec (Z.of_nat (S (length l')) - 1) (-1)); [lia|].
      split; [reflexivity|]. split; [reflexivity|]. split; discriminate. }
  destruct (indexOf_found l x) as [[Hcfi Hnot]|(k & Hcfi & Hk & _)]; fold cfi in Hcfi.
  - destruct (Habsent Hcfi) as (Hpos & Hp & Hn & Hpn & Hnd').
    split; [rewrite Hp, Hpn; split; reflexivity|].
    split; [rewrite Hn; exact Hnd'|].
    split; [|intros _; auto].
    intros k Hk. exfalso. apply Hnot. apply list_elem_of_lookup. exists k. exact Hk.
  - apply lookup_lt_Some in Hk as Hlt.
    destruct (Hnext k Hcfi Hlt) as [Hn Hnd'].
    destruct (Hprev k Hcfi Hlt) as [Hp Hpd].
    split.
    { rewrite Hp, Hpd. destruct k as [|k']; [split; reflexivity|].
      destruct (lookup_lt_is_Some_2 l k' ltac:(lia)) as [y ->].
      split; [lia|discriminate]. }
    split; [rewrite Hn; exact Hnd'|].
    split.
    + intros k2 Hk2.
      assert (k2 = k) by (eapply NoDup_lookup; eassumption). subst k2.
      split; [|split; assumption].
      unfold bar, updateNavigationButtons. cbn [position_text]. rewrite Hcfi.
      destruct (Z.leb_spec 0 (Z.of_nat k)); [reflexivity|lia].
    + intros Hnot. exfalso. apply Hnot. apply list_elem_of_lookup. exists k. exact Hk.
Qed.

Lemma filtered_lookup (keep : paper -> bool) (l : list paper) :
  forall pre : list paper,
    (fun i => (pre ++ l) !! i)
      <$> (List.filter (fun e => keep e.2)
             (imap (fun i p => ((length pre + i)%nat, p)) l)).*1
    = Some <$> List.filter keep l.
Proof.
  induction l as [|x l IH]; intros pre; [reflexivity|].
  cbn [imap List.filter snd].
  assert (Hext : imap ((fun i p => ((length pre + i)%nat, p)) ∘ S) l
                 = imap (fun i p => ((length (pre ++ [x]) + i)%nat, p)) l).
  { apply imap_ext. intros i y _. cbn. rewrite length_app. cbn. f_equal. lia. }
  rewrite Hext. specialize (IH (pre ++ [x])).
  rewrite <- app_assoc in IH. cbn [app] in IH.
  destruct (keep x); [|exact IH].
  cbn [fmap list_fmap fst]. f_equal; [|exact IH].
  rewrite Nat.add_0_r. apply list_lookup_middle. reflexivity.
Qed.

Lemma lookup_all_indices {A : Type} (l : list A) :
  (fun i => l !! i) <$> seq 0 (length l) = Some <$> l.
Proof.
  apply list_eq. intros i. rewrite !list_lookup_fmap.
  destruct (l !! i) as [x|] eqn:Hx.
  - apply lookup_lt_Some in Hx as Hlt.
    rewrite (lookup_seq_lt 0 (length l) i Hlt). cbn. rewrite Hx. reflexivity.
  - apply lookup_ge_None in Hx.
    rewrite (lookup_seq_ge 0 (length l) i Hx). reflexivity.
Qed.

Section WithLowercase.
Context `{Lowercase}.

(** X4.  The navigation bar agrees with the navigation handlers: a button
    is disabled exactly when its handler (also reached from the keyboard)
    would do nothing.  When the open paper is the [k]-th of the filtered
    list (counted from 0) the position reads [k + 1] of the list's length
    and the handlers lead to its neighbours in the list.  When the open
    paper does not pass the stored filters the position reads "1 / 1",
    Previous is disabled and Next leads to the first filtered paper. *)
Theorem X4_buttons_agree_with_navigation (saved : stored_filters)
    (allPapers : list paper) (paperIndex : nat) :
  let f := getFilteredPapers saved allPapers in
  let cfi := indexOf f paperIndex in
  let bar := updateNavigationButtons f cfi in
  (prev_disabled bar = true <-> navigateToPreviousPaper f cfi = None)
  /\ (next_disabled bar = true <-> navigateToNextPaper f cfi = None)
  /\ (forall k : nat, f !! k = Some paperIndex ->
        position_text bar = (Z.of_nat k + 1, Z.of_nat (length f))%Z
        /\ navigateToNextPaper f cfi = f !! S k
        /\ navigateToPreviousPaper f cfi
           = match k with O => None | S k' => f !! k' end)
  /\ (paperIndex ∉ f ->
        position_text bar = (1, 1)%Z
        /\ prev_disabled bar = true
        /\ navigateToNextPaper f cfi = f !! 0%nat).
Proof.
  intros f cfi bar. apply navigation_bar_agrees.
  apply StronglySorted_lt_NoDup. apply getFilteredPapers_sorted.
Qed.

(** X5.  The workspace and the catalog filter alike: the papers at the
    indices computed by [getFilteredPapers] from the stored filters are, in
    the same order, the papers [filterPapers] keeps for those filters; with
    nothing stored, or something unreadable, they are all papers. *)
Theorem X5_catalog_and_workspace_agree (saved : stored_filters)
    (allPapers : list paper) :
  (fun i => allPapers !! i) <$> getFilteredPapers saved allPapers
  = Some <$> match loadFilters saved with
             | Some fs => filterPapers fs allPapers
             | None => allPapers
             end.
Proof.
  destruct (loadFilters saved) as [fs|] eqn:Hload.
  - rewrite (getFilteredPapers_filtered fs saved allPapers Hload).
    apply (filtered_lookup (filterPapers_keep fs) allPapers []).
  - rewrite (getFilteredPapers_unfiltered saved allPapers Hload).
    apply lookup_all_indices.
Qed.

End WithLowercase.

End PageFacts.

(** ** The catalog's filters and their storage *)

Module CatalogFacts.
Import Model Filters Workspace Catalog Dashboard.
Import FilterFacts PageFacts.

Lemma new_Set_elements (s : gset string) :
  new_Set (FieldItems (elements s)) = Some s.
Proof. cbn. f_equal. apply list_to_set_elements_L. Qed.

Lemma loadSavedFilters_saved (fs fs0 : filters) :
  loadSavedFilters (saveFilters fs) fs0 = fs.
Proof.
  unfold loadSavedFilters, saveFilters. rewrite !new_Set_elements.
  destruct fs. reflexivity.
Qed.

Lemma loadFilters_saved (fs : filters) :
  loadFilters (as_stored_filters (saveFilters fs)) = Some fs.
Proof.
  destruct fs. cbn. unfold to_set. cbn. rewrite !list_to_set_elements_L. reflexivity.
Qed.

(** X6.  Saving and loading the filters is a round trip: whatever the
    global filters held before, [loadSavedFilters] (catalog) restores
    exactly the five sets that [saveFilters] wrote, and [loadFilters]
    (workspace) returns the same five sets; so both pages list the same
    papers as before the reload. *)
Theorem X6_filters_round_trip `{Lowercase} (fs fs0 : filters)
    (allPapers : list paper) :
  loadSavedFilters (saveFilters fs) fs0 = fs
  /\ loadFilters (as_stored_filters (saveFilters fs)) = Some fs
  /\ filterPapers (loadSavedFilters (saveFilters fs) fs0) allPapers
     = filterPapers fs allPapers
  /\ (fun i => allPapers !! i)
       <$> getFilteredPapers (as_stored_filters (saveFilters fs)) allPapers
     = Some <$> filterPapers fs allPapers.
Proof.
  split; [apply loadSavedFilters_saved|]. split; [apply loadFilters_saved|].
  split; [rewrite loadSavedFilters_saved; reflexivity|].
  rewrite (getFilteredPapers_filtered fs _ allPapers (loadFilters_saved fs)).
  apply (filtered_lookup (filterPapers_keep fs) allPapers []).
Qed.

(** X7.  The two pages read the stored item alike whenever the workspace
    accepts it: if [loadFilters] returns filters, [loadSavedFilters] sets
    the global filters to the same five sets, whatever they held.  If
    nothing is stored, or the text is not JSON or is [null], the catalog
    keeps its filters as they are and the workspace does not filter.  For
    any other stored value the workspace loads no filters exactly when one
    of the five fields cannot be iterated, whichever it is; the catalog
    replaces a set exactly when its field and the fields before it, in the
    order evaluators, areas, keywords, title keywords, statuses, can all be
    read, and keeps the set it had otherwise. *)
Theorem X7_loaders_agree (saved : stored_item) (fs0 : filters) :
  (forall fs : filters,
     loadFilters (as_stored_filters saved) = Some fs ->
     loadSavedFilters saved fs0 = fs)
  /\ (saved = ItemAbsent \/ saved = ItemNotJSON \/ saved = ItemNull ->
      loadSavedFilters saved fs0 = fs0
      /\ loadFilters (as_stored_filters saved) = None)
  /\ (forall e a k t s : stored_field,
        saved = ItemValue e a k t s ->
        (loadFilters (as_stored_filters saved) = None
         <-> e = FieldNotIterable \/ a = FieldNotIterable \/ k = FieldNotIterable
             \/ t = FieldNotIterable \/ s = FieldNotIterable)
        /\ f_evaluators (loadSavedFilters saved fs0)
           = match new_Set e with
             | Some set => set
             | None => f_evaluators fs0
             end
        /\ f_areas (loadSavedFilters saved fs0)
           = match new_Set e, new_Set a with
             | Some _, Some set => set
             | _, _ => f_areas fs0
             end
        /\ f_keywords (loadSavedFilters saved fs0)
           = match new_Set e, new_Set a, new_Set k with
             | Some _, Some _, Some set => set
             | _, _, _ => f_keywords fs0
             end
        /\ f_titleKeywords (loadSavedFilters saved fs0)
           = match new_Set e, new_Set a, new_Set k, new_Set t with
             | Some _, Some _, Some _, Some set => set
             | _, _, _, _ => f_titleKeywords fs0
             end
        /\ f_statuses (loadSavedFilters saved fs0)
           = match new_Set e, new_Set a, new_Set k, new_Set t, new_Set s with
             | Some _, Some _, Some _, Some _, Some set => set
             | _, _, _, _, _ => f_statuses fs0
             end).
Proof.
  split; [|split].
  - intros fs. destruct saved as [| | |e a k t s]; cbn; try discriminate.
    destruct e, a, k, t, s; cbn; try discriminate; intros [= <-]; reflexivity.
  - intros [->|[->| ->]]; split; reflexivity.
  - intros e a k t s ->. split.
    + destruct e, a, k, t, s; cbn;
        (split; [try discriminate; intros _; auto 6
                |try reflexivity;
                 intros [Hf|[Hf|[Hf|[Hf|Hf]]]]; discriminate Hf]).
    + destruct e, a, k, t, s; cbn; repeat split; reflexivity.
Qed.

(** A value whose keywords cannot be iterated: the catalog takes the
    evaluators and the areas and keeps its other three sets; the workspace
    loads no filters. *)
Example keywords_not_iterable :
  let saved := ItemValue (FieldItems ["a"%string]) FieldFalsy FieldNotIterable
                         (FieldItems ["t"%string]) FieldFalsy in
  let fs0 := FilterState {["x"%string]} {["y"%string]} {["z"%string]} ∅
                         {["completed"%string]} in
  loadSavedFilters saved fs0
  = FilterState (list_to_set ["a"%string]) ∅ {["z"%string]} ∅ {["completed"%string]}
  /\ loadFilters (as_stored_filters saved) = None.
Proof. split; reflexivity. Qed.

Section WithTrim.
Variable trim : string -> string.

Lemma handle_in_sync (s : page_state) (e : event) :
  open_page (reviewFilters s) = s ->
  open_page (reviewFilters (handle trim s e)) = handle trim s e.
Proof.
  intros Hs.
  assert (Hchanged : forall fs, open_page (reviewFilters (changed fs)) = changed fs).
  { intros fs. unfold open_page, changed. cbn [reviewFilters].
    rewrite loadSavedFilters_saved. reflexivity. }
  destruct e as [type value checked|key value|key value|kw|kw|value checked];
    cbn [handle]; try apply Hchanged.
  - destruct (_ && _); [apply Hchanged|exact Hs].
  - destruct (_ && _); [apply Hchanged|exact Hs].
Qed.

(** X8.  The catalog keeps the stored filters in step with the filters
    in memory: after opening the page on any stored item and any sequence
    of filter actions (checkboxes, keywords entered or removed, status
    boxes), opening the page again on what is then stored gives the very
    same filters, hence the same list of papers. *)
Theorem X8_reload_restores_filters `{Lowercase} (storage : stored_item)
    (es : list event) (allPapers : list paper) :
  let s := handle_all trim (open_page storage) es in
  open_page (reviewFilters s) = s
  /\ filterPapers (current (open_page (reviewFilters s))) allPapers
     = filterPapers (current s) allPapers.
Proof.
  cbv zeta.
  assert (Hsync : open_page (reviewFilters (handle_all trim (open_page storage) es))
                  = handle_all trim (open_page storage) es).
  { unfold handle_all.
    assert (Hinit : open_page (reviewFilters (open_page storage)) = open_page storage)
      by reflexivity.
    revert Hinit. generalize (open_page storage).
    induction es as [|e es IH]; intros s Hs; [exact Hs|].
    cbn [foldl]. apply IH. apply handle_in_sync. exact Hs. }
  split; [exact Hsync|]. rewrite Hsync. reflexivity.
Qed.

(** The keyword boxes add the trimmed text, and only on Enter with a
    text that is not blank. *)
Lemma keyword_keypress (s : page_state) (key value : string) :
  handle trim s (KeywordSearchKeypress key value) <> s ->
  key = "Enter"%string /\ trim value <> EmptyString
  /\ trim value ∈ f_keywords (current (handle trim s (KeywordSearchKeypress key value))).
Proof.
  cbn [handle]. destruct (String.eqb_spec key "Enter") as [->|Hk];
    [|intros Hne; cbn in Hne; congruence].
  destruct (String.eqb_spec (trim value) EmptyString) as [He|He];
    [intros Hne; cbn in Hne; congruence|].
  intros _. cbn. split; [reflexivity|]. split; [exact He|]. set_solver.
Qed.

End WithTrim.

(** *** Statistics *)

Lemma updateStatistics_from (papers : list paper) :
  forall st : stats,
    let st' := foldl count_status st papers in
    stats_total st' = stats_total st
    /\ stats_completed st'
       = (stats_completed st
          + length (List.filter (fun p => String.eqb (status p) "completed") papers))%nat
    /\ stats_in_progress st'
       = (stats_in_progress st
          + length (List.filter (fun p => String.eqb (status p) "in_progress") papers))%nat
    /\ stats_not_started st'
       = (stats_not_started st
          + length (List.filter
                      (fun p => negb (String.eqb (status p) "completed")
                                && negb (String.eqb (status p) "in_progress"))
                      papers))%nat.
Proof.
  induction papers as [|p papers IH]; intros st.
  - cbn. repeat split; lia.
  - cbn [foldl List.filter]. cbv zeta in IH |- *.
    destruct (IH (count_status st p)) as (H1 & H2 & H3 & H4).
    rewrite H1, H2, H3, H4. clear IH H1 H2 H3 H4. unfold count_status.
    destruct (String.eqb_spec (status p) "completed") as [Hc|Hc];
      destruct (String.eqb_spec (status p) "in_progress") as [Hi|Hi];
      [congruence|..];
      cbn [stats_total stats_completed stats_in_progress stats_not_started
           negb andb length];
      repeat split; lia.
Qed.

(** X10.  The statistics bar: the total is the number of papers listed,
    the completed and in-progress counts are the numbers of papers with
    exactly that status, every other paper (whatever its status field
    holds) is counted as not started, and the three counts add up to the
    total. *)
Theorem X10_statistics_add_up (papers : list paper) :
  let st := updateStatistics papers in
  stats_total st = length papers
  /\ stats_completed st
     = length (List.filter (fun p => String.eqb (status p) "completed") papers)
  /\ stats_in_progress st
     = length (List.filter (fun p => String.eqb (status p) "in_progress") papers)
  /\ stats_not_started st
     = length (List.filter
                 (fun p => negb (String.eqb (status p) "completed")
                           && negb (String.eqb (status p) "in_progress"))
                 papers)
  /\ (stats_completed st + stats_in_progress st + stats_not_started st)%nat
     = stats_total st.
Proof.
  cbv zeta. unfold updateStatistics.
  destruct (updateStatistics_from papers (Stats (length papers) 0 0 0))
    as (H1 & H2 & H3 & H4).
  cbv zeta in *.
  cbn [stats_total stats_completed stats_in_progress stats_not_started] in *.
  split; [exact H1|]. split; [exact H2|]. split; [exact H3|]. split; [exact H4|].
  rewrite H1, H2, H3, H4. cbn [Nat.add]. clear.
  induction papers as [|p papers IH]; [reflexivity|].
  cbn [List.filter length].
  destruct (String.eqb_spec (status p) "completed") as [Hc|Hc];
    destruct (String.eqb_spec (status p) "in_progress") as [Hi|Hi];
    [congruence|..]; cbn [negb andb length]; lia.
Qed.

(** *** From the dashboard to the catalog *)

Lemma singleton_filter_keep `{Lowercase} (e : string) (p : paper) :
  filterPapers_keep (FilterState (list_to_set [e]) (list_to_set []) (list_to_set [])
                                 (list_to_set []) (list_to_set [])) p
  = array_includes (evaluators p) e.
Proof.
  unfold filterPapers_keep. cbn [f_evaluators f_areas f_keywords f_titleKeywords
                                 f_statuses list_to_set].
  assert (Hne : nonempty ({[e]} ∪ ∅ : gset string) = true)
    by (apply nonempty_spec; set_solver).
  assert (He : nonempty (∅ : gset string) = false) by reflexivity.
  rewrite Hne, He. cbn [andb].
  assert (Hhas : hasEvaluator (FilterState ({[e]} ∪ ∅) ∅ ∅ ∅ ∅) p
                 = array_includes (evaluators p) e).
  { unfold hasEvaluator, array_includes. cbn [f_evaluators].
    induction (evaluators p) as [|x l IH]; [reflexivity|].
    cbn [existsb]. rewrite IH. f_equal. unfold has.
    destruct (String.eqb_spec e x) as [->|Hne'].
    - apply bool_decide_eq_true. apply elem_of_union_l, elem_of_singleton. reflexivity.
    - apply bool_decide_eq_false. intros Hin.
      apply elem_of_union in Hin as [Hin|Hin];
        [apply elem_of_singleton in Hin; congruence|].
      exact (not_elem_of_empty x Hin). }
  rewrite Hhas. destruct (array_includes (evaluators p) e); reflexivity.
Qed.

(** X9.  "Continue evaluation" hands the dashboard's selection to the
    other pages: with an evaluator selected, the item it stores makes the
    catalog list exactly the papers the dashboard listed for that
    evaluator, in the same order, and makes the workspace navigate over
    exactly those papers; the statistics of both pages agree. *)
Theorem X9_continue_shows_evaluator_papers `{Lowercase} (e : string)
    (allPapers : list paper) (fs0 : filters) :
  e <> EmptyString ->
  exists item : stored_item,
    continue_evaluation (Some e) = Some item
    /\ filterPapers (loadSavedFilters item fs0) allPapers = evaluatorPapers e allPapers
    /\ (fun i => allPapers !! i) <$> getFilteredPapers (as_stored_filters item) allPapers
       = Some <$> evaluatorPapers e allPapers
    /\ updateStatistics (filterPapers (loadSavedFilters item fs0) allPapers)
       = updateStatistics (evaluatorPapers e allPapers).
Proof.
  intros He. unfold continue_evaluation.
  destruct (String.eqb_spec e EmptyString) as [Heq|_]; [contradiction|].
  eexists. split; [reflexivity|].
  assert (Hcat : filterPapers
                   (loadSavedFilters
                      (ItemValue (FieldItems [e]) (FieldItems []) (FieldItems [])
                                 (FieldItems []) (FieldItems [])) fs0) allPapers
                 = evaluatorPapers e allPapers).
  { unfold filterPapers, evaluatorPapers. cbn [loadSavedFilters new_Set].
    cbn [f_evaluators f_areas f_keywords f_titleKeywords f_statuses].
    apply List.filter_ext. intros p. apply singleton_filter_keep. }
  split; [exact Hcat|]. split; [|rewrite Hcat; reflexivity].
  rewrite <- Hcat.
  rewrite (getFilteredPapers_filtered
             (FilterState (list_to_set [e]) (list_to_set []) (list_to_set [])
                          (list_to_set []) (list_to_set []))
             (as_stored_filters
                (ItemValue (FieldItems [e]) (FieldItems []) (FieldItems [])
                           (FieldItems []) (FieldItems [])))
             allPapers eq_refl).
  apply (filtered_lookup _ allPapers []).
Qed.

Lemma X9_continue_shows_evaluator_papers_witness :
  let p0 := Paper "a" None None ["ann"; "bob"] [] [] "completed" [] in
  let p1 := Paper "b" None None ["bob"] [] [] "not_started" [] in
  exists item : stored_item,
    continue_evaluation (Some "ann"%string) = Some item
    /\ filterPapers (H := ascii_toLowerCase) (loadSavedFilters item initial_filters)
                    [p0; p1]
       = evaluatorPapers "ann" [p0; p1]
    /\ (fun i => [p0; p1] !! i)
         <$> getFilteredPapers (H := ascii_toLowerCase) (as_stored_filters item) [p0; p1]
       = Some <$> evaluatorPapers "ann" [p0; p1]
    /\ updateStatistics
         (filterPapers (H := ascii_toLowerCase) (loadSavedFilters item initial_filters)
                       [p0; p1])
       = updateStatistics (evaluatorPapers "ann" [p0; p1]).
Proof.
  intros p0 p1.
  apply (X9_continue_shows_evaluator_papers (H := ascii_toLowerCase) "ann"
           [p0; p1] initial_filters).
  discriminate.
Defined.

End CatalogFacts.

(** ** Invariants of an editing session *)

Module SessionFacts.
Import Model Progress Filters Workspace Session.
Import ProgressFacts HandlerFacts DebounceFacts.

Lemma Forall2_trans {A : Type} (R : A -> A -> Prop) :
  (forall x y z, R x y -> R y z -> R x z) ->
  forall l1 l2 l3 : list A, Forall2 R l1 l2 -> Forall2 R l2 l3 -> Forall2 R l1 l3.
Proof.
  intros HR l1 l2 l3 H12. revert l3.
  induction H12 as [|x y l1 l2 Hxy _ IH]; intros l3 H23;
    inversion H23; subst; constructor; eauto.
Qed.

Lemma same_review_refl (r : review) : same_review r r.
Proof. repeat split. Qed.

Lemma same_paper_refl (p : paper) : same_paper p p.
Proof.
  repeat split. apply Forall2_same_length_lookup. split; [reflexivity|].
  intros i r r' Hr Hr'. rewrite Hr in Hr'. injection Hr' as <-. apply same_review_refl.
Qed.

Lemma same_review_trans (r1 r2 r3 : review) :
  same_review r1 r2 -> same_review r2 r3 -> same_review r1 r3.
Proof. intros (?&?&?) (?&?&?). repeat split; congruence. Qed.

Lemma same_paper_trans (p1 p2 p3 : paper) :
  same_paper p1 p2 -> same_paper p2 p3 -> same_paper p1 p3.
Proof.
  intros (?&?&?&?&?&?&H12) (?&?&?&?&?&?&H23).
  repeat split; try congruence.
  eapply Forall2_trans; [|exact H12|exact H23].
  intros r1 r2 r3. apply same_review_trans.
Qed.

Lemma same_collection_refl (i : nat) (ps : list paper) : same_collection i ps ps.
Proof.
  split; [|reflexivity]. apply Forall2_same_length_lookup. split; [reflexivity|].
  intros j p p' Hp Hp'. rewrite Hp in Hp'. injection Hp' as <-. apply same_paper_refl.
Qed.

Lemma same_collection_trans (i : nat) (ps1 ps2 ps3 : list paper) :
  same_collection i ps1 ps2 -> same_collection i ps2 ps3 -> same_collection i ps1 ps3.
Proof.
  intros [H12 E12] [H23 E23]. split.
  - eapply Forall2_trans; [|exact H12|exact H23].
    intros p1 p2 p3. apply same_paper_trans.
  - intros j Hj. rewrite (E23 j Hj). apply E12. exact Hj.
Qed.

Lemma same_collection_edit (i : nat) (ps : list paper) (p p' : paper) :
  ps !! i = Some p -> same_paper p p' -> same_collection i ps (<[i := p']> ps).
Proof.
  intros Hp Hsame. split.
  - rewrite <- (list_insert_id ps i p Hp) at 1.
    apply Forall2_insert; [|exact Hsame].
    apply (same_collection_refl i ps).
  - intros j Hj. apply list_lookup_insert_ne. congruence.
Qed.

Lemma update_metrics_same_paper (k : nat) (f : metrics -> metrics) (p p' : paper) :
  update_metrics k f p = Some p' -> same_paper p p' /\ status p' = status p.
Proof.
  unfold update_metrics. destruct (reviews p !! k) as [r|] eqn:Hr; [|discriminate].
  intros [= <-]. split; [|reflexivity]. repeat split. cbn [reviews with_reviews].
  rewrite <- (list_insert_id (reviews p) k r Hr) at 1.
  apply Forall2_insert; [|repeat split].
  apply Forall2_same_length_lookup. split; [reflexivity|].
  intros j r1 r2 H1 H2. rewrite H1 in H2. injection H2 as <-. apply same_review_refl.
Qed.

Lemma updatePaperStatus_same_paper (p : paper) : same_paper p (updatePaperStatus p).
Proof. apply (same_paper_refl p). Qed.

(** What one event does to the collection: nothing, or one edit of the
    current paper through one of the handlers. *)
Lemma step_edit (s : state) (e : event) (s' : state) :
  step s e = Some s' ->
  paperIndex s' = paperIndex s
  /\ (saves s' = saves s
      \/ exists cause, saves s' = (saves s ++ [(cause, allPapers s')])%list)
  /\ (allPapers s' = allPapers s
      \/ exists p p' : paper,
           allPapers s !! paperIndex s = Some p
           /\ allPapers s' = <[paperIndex s := p']> (allPapers s)
           /\ match e with
              | InputComment k _ | BlurComment k =>
                  exists v, update_metrics k (set_comment v) p = Some p'
              | ClickStar k key v => clickStar k key v p = Some p'
              | ClickSource k v => clickSource k v p = Some p'
              | ClickClear k confirmed =>
                  confirmed = true /\ update_metrics k cleared p = Some p'
              | _ => False
              end).
Proof.
  destruct e as [dt|id|k v|k|k key v|k v|k confirmed]; cbn [step]; intros Hstep.
  - injection Hstep as <-. auto.
  - destruct (timers s !! id) as [[due k]|] eqn:Hid; [|discriminate].
    destruct (Nat.leb_spec due (now s)); [|discriminate].
    injection Hstep as <-. split; [reflexivity|]. split; [right; eexists; reflexivity|].
    left. reflexivity.
  - destruct (store_comment k (set_textarea k v s)) as [s1|] eqn:Hs1; [|discriminate].
    cbn in Hstep. injection Hstep as <-.
    destruct (store_comment_view _ _ _ Hs1) as (p & p' & Hp & Hu & ->).
    split; [reflexivity|]. split; [left; reflexivity|].
    right. exists p, p'. split; [exact Hp|]. split; [reflexivity|]. eauto.
  - destruct (store_comment k (forget_pending k (cancel_pending k s)))
      as [s1|] eqn:Hs1; [|discriminate].
    cbn in Hstep. injection Hstep as <-.
    destruct (store_comment_view _ _ _ Hs1) as (p & p' & Hp & Hu & ->).
    split; [reflexivity|]. split; [right; eexists; reflexivity|].
    right. exists p, p'. split; [exact Hp|]. split; [reflexivity|]. eauto.
  - unfold currentPaper in Hstep.
    destruct (allPapers s !! paperIndex s) as [p|] eqn:Hp; [|discriminate].
    cbn in Hstep. destruct (clickStar k key v p) as [p'|] eqn:Hc; [|discriminate].
    injection Hstep as <-. split; [reflexivity|]. split; [right; eexists; reflexivity|].
    right. exists p, p'. auto.
  - unfold currentPaper in Hstep.
    destruct (allPapers s !! paperIndex s) as [p|] eqn:Hp; [|discriminate].
    cbn in Hstep. destruct (clickSource k v p) as [p'|] eqn:Hc; [|discriminate].
    injection Hstep as <-. split; [reflexivity|]. split; [right; eexists; reflexivity|].
    right. exists p, p'. auto.
  - unfold currentPaper at 1 in Hstep.
    destruct (allPapers s !! paperIndex s) as [p|] eqn:Hp; [|discriminate].
    cbn in Hstep. destruct (clickClear k confirmed p) as [p'|] eqn:Hc; [|discriminate].
    cbn in Hstep. destruct confirmed; injection Hstep as <-; [|auto].
    assert (Hreb : forall t : state,
              paperIndex (rebuild_textareas t) = paperIndex t
              /\ saves (rebuild_textareas t) = saves t
              /\ allPapers (rebuild_textareas t) = allPapers t).
    { intros t. unfold rebuild_textareas. destruct (currentPaper t); auto. }
    destruct (Hreb (saveEvaluation ClearSave (set_currentPaper p' s))) as (-> & -> & ->).
    split; [reflexivity|]. split; [right; eexists; reflexivity|].
    right. exists p, p'. auto.
Qed.

Lemma step_same_collection (s : state) (e : event) (s' : state) :
  step s e = Some s' ->
  same_collection (paperIndex s) (allPapers s) (allPapers s').
Proof.
  intros Hstep. destruct (step_edit s e s' Hstep) as (_ & _ & [->|(p & p' & Hp & -> & He)]).
  - apply same_collection_refl.
  - apply (same_collection_edit _ _ p p' Hp).
    destruct e as [dt|id|k v|k|k key v|k v|k confirmed]; try contradiction.
    + destruct He as (v' & Hu). apply (update_metrics_same_paper _ _ _ _ Hu).
    + destruct He as (v' & Hu). apply (update_metrics_same_paper _ _ _ _ Hu).
    + unfold clickStar in He.
      destruct (update_metrics k (set_metric key v) p) as [p1|] eqn:Hu; [|discriminate].
      injection He as <-. apply (update_metrics_same_paper _ _ _ _ Hu).
    + unfold clickSource in He.
      destruct (update_metrics k (set_source v) p) as [p1|] eqn:Hu; [|discriminate].
      injection He as <-. apply (update_metrics_same_paper _ _ _ _ Hu).
    + destruct He as (_ & Hu). apply (update_metrics_same_paper _ _ _ _ Hu).
Qed.

(** X13.  An editing session changes nothing but ratings: after any
    sequence of events the collection has the same papers in the same
    places, every paper other than the open one is untouched, and the open
    paper keeps its title, abstract, URL, evaluators, areas, keywords and
    its reviews' texts, reviewers and harmonizations; no review is added or
    removed.  Saves are only appended, and the body of every save sent is
    such a collection as well. *)
Theorem X13_session_changes_only_ratings (s : state) (es : list event) (s' : state) :
  run s es = Some s' ->
  paperIndex s' = paperIndex s
  /\ same_collection (paperIndex s) (allPapers s) (allPapers s')
  /\ exists sent : list (save_cause * list paper),
       saves s' = (saves s ++ sent)%list
       /\ Forall (fun sv => same_collection (paperIndex s) (allPapers s) sv.2) sent.
Proof.
  revert s. induction es as [|e es IH]; intros s Hrun.
  - cbn in Hrun. injection Hrun as <-. split; [reflexivity|].
    split; [apply same_collection_refl|]. exists []. split; [|constructor].
    symmetry. apply app_nil_r.
  - cbn [run] in Hrun. destruct (step s e) as [s1|] eqn:Hstep; [|discriminate].
    cbn in Hrun. destruct (IH s1 Hrun) as (Hidx & Hcoll & sent & Hsent & Hall).
    pose proof (step_same_collection s e s1 Hstep) as Hone.
    destruct (step_edit s e s1 Hstep) as (Hidx1 & Hsaves & _).
    rewrite Hidx1 in *. split; [exact Hidx|].
    split; [eapply same_collection_trans; eassumption|].
    assert (Hall' : Forall (fun sv => same_collection (paperIndex s) (allPapers s) sv.2)
                           sent).
    { eapply Forall_impl; [exact Hall|]. intros sv Hsv.
      eapply same_collection_trans; eassumption. }
    destruct Hsaves as [Heq|(cause & Heq)]; rewrite Heq in Hsent.
    + exists sent. split; assumption.
    + exists ((cause, allPapers s1) :: sent). split.
      * rewrite Hsent, <- app_assoc. reflexivity.
      * constructor; [exact Hone|exact Hall'].
Qed.

Lemma X13_session_changes_only_ratings_witness :
  let p := Paper "t" None None ["ann"] ["NLP"] [] "not_started"
                 [Review "a" None [] (Metrics None None None None None None None)] in
  let s := initial None [p] 0 in
  let s' := State [Paper "t" None None ["ann"] ["NLP"] [] "not_started"
                     [Review "a" None []
                        (Metrics (Some 4%Z) None None None None None None)]]
                  0 None 0 (textareas s) ∅ ∅ 1%positive
                  [(StarSave,
                    [Paper "t" None None ["ann"] ["NLP"] [] "not_started"
                       [Review "a" None []
                          (Metrics (Some 4%Z) None None None None None None)]])] in
  paperIndex s' = paperIndex s
  /\ same_collection (paperIndex s) (allPapers s) (allPapers s')
  /\ exists sent : list (save_cause * list paper),
       saves s' = (saves s ++ sent)%list
       /\ Forall (fun sv => same_collection (paperIndex s) (allPapers s) sv.2) sent.
Proof.
  intros p s s'.
  apply (X13_session_changes_only_ratings s [ClickStar 0 Coverage 4] s').
  reflexivity.
Defined.

(** *** The status field *)

Lemma count_completed_replaced (rs : list review) (k : nat) (r r' : review) :
  rs !! k = Some r ->
  (count_completed (<[k := r']> rs) + (if is_complete r then 1 else 0))%nat
  = (count_completed rs + (if is_complete r' then 1 else 0))%nat.
Proof.
  intros Hr. apply lookup_lt_Some in Hr as Hlt.
  rewrite (insert_take_drop rs k r' Hlt).
  rewrite <- (take_drop_middle rs k r Hr) at 3.
  rewrite !count_completed_app.
  change (r' :: drop (S k) rs) with ([r'] ++ drop (S k) rs)%list.
  change (r :: drop (S k) rs) with ([r] ++ drop (S k) rs)%list.
  rewrite !count_completed_app, !count_completed_one. lia.
Qed.

Lemma update_metrics_progress (k : nat) (f : metrics -> metrics) (p p' : paper) :
  update_metrics k f p = Some p' ->
  exists r : review,
    reviews p !! k = Some r
    /\ total (calculateProgress p') = total (calculateProgress p)
    /\ (completed (calculateProgress p') + (if hasAllMetrics (review_metrics r) then 1 else 0))%nat
       = (completed (calculateProgress p)
          + (if hasAllMetrics (f (review_metrics r)) then 1 else 0))%nat.
Proof.
  unfold update_metrics. destruct (reviews p !! k) as [r|] eqn:Hr; [|discriminate].
  intros [= <-]. exists r. split; [reflexivity|].
  rewrite !calculateProgress_counts. cbn [reviews with_reviews total completed].
  split; [apply length_insert|].
  exact (count_completed_replaced (reviews p) k r
           (with_metrics (f (review_metrics r)) r) Hr).
Qed.

Lemma comment_keeps_status (k : nat) (v : string) (p p' : paper) :
  update_metrics k (set_comment v) p = Some p' ->
  status_consistent p -> status_consistent p'.
Proof.
  intros Hu Hc. unfold status_consistent in *.
  destruct (update_metrics_same_paper _ _ _ _ Hu) as [_ Hst].
  destruct (update_metrics_progress _ _ _ _ Hu) as (r & _ & Htot & Hcomp).
  change (hasAllMetrics (set_comment v (review_metrics r)))
    with (hasAllMetrics (review_metrics r)) in Hcomp.
  rewrite Hst, Hc. unfold status_of. rewrite Htot.
  replace (completed (calculateProgress p')) with (completed (calculateProgress p)) by lia.
  reflexivity.
Qed.

Lemma step_status (s : state) (e : event) (s' : state) :
  step s e = Some s' -> not_a_clear e ->
  Forall status_consistent (allPapers s) ->
  Forall status_consistent (allPapers s').
Proof.
  intros Hstep Hnc Hall.
  destruct (step_edit s e s' Hstep) as (_ & _ & [->|(p & p' & Hp & -> & He)]);
    [exact Hall|].
  assert (Hpc : status_consistent p).
  { rewrite Forall_forall in Hall. apply Hall. apply list_elem_of_lookup. eauto. }
  apply Forall_insert; [exact Hall|].
  destruct e as [dt|id|k v|k|k key v|k v|k confirmed]; try contradiction.
  - destruct He as (v' & Hu). exact (comment_keeps_status _ _ _ _ Hu Hpc).
  - destruct He as (v' & Hu). exact (comment_keeps_status _ _ _ _ Hu Hpc).
  - exact (clickStar_recomputes _ _ _ _ _ He).
  - exact (clickSource_recomputes _ _ _ _ He).
  - destruct He as [-> _]. contradiction.
Qed.

(** X14.  The status fields stay right as long as no evaluation is
    cleared: if every paper's status is the one [updatePaperStatus] would
    compute, then after any sequence of events without a confirmed clear
    (time passing, timers, comments, stars, source buttons, declined
    clears) it still is, in memory and in the body of every save sent on
    the way.  And whatever the status was before, a click on a star or on a
    source button leaves the open paper with the recomputed status. *)
Theorem X14_status_stays_consistent (s : state) (es : list event) (s' : state) :
  run s es = Some s' ->
  Forall not_a_clear es ->
  Forall status_consistent (allPapers s) ->
  Forall status_consistent (allPapers s')
  /\ (exists sent : list (save_cause * list paper),
        saves s' = (saves s ++ sent)%list
        /\ Forall (fun sv => Forall status_consistent sv.2) sent)
  /\ (forall (t t' : state) (e : event),
        (exists k key v, e = ClickStar k key v) \/ (exists k v, e = ClickSource k v) ->
        step t e = Some t' ->
        exists p' : paper, currentPaper t' = Some p' /\ status_consistent p').
Proof.
  intros Hrun Hes Hall. split; [|split].
  - revert s Hrun Hall. induction Hes as [|e es He Hes IH]; intros s Hrun Hall.
    + cbn in Hrun. injection Hrun as <-. exact Hall.
    + cbn [run] in Hrun. destruct (step s e) as [s1|] eqn:Hstep; [|discriminate].
      cbn in Hrun. apply (IH s1 Hrun). exact (step_status s e s1 Hstep He Hall).
  - revert s Hrun Hall. induction Hes as [|e es He Hes IH]; intros s Hrun Hall.
    + cbn in Hrun. injection Hrun as <-. exists []. split; [|constructor].
      symmetry. apply app_nil_r.
    + cbn [run] in Hrun. destruct (step s e) as [s1|] eqn:Hstep; [|discriminate].
      cbn in Hrun. pose proof (step_status s e s1 Hstep He Hall) as Hall1.
      destruct (IH s1 Hrun Hall1) as (sent & Hsent & Hok).
      destruct (step_edit s e s1 Hstep) as (_ & [Heq|(cause & Heq)] & _);
        rewrite Heq in Hsent.
      * exists sent. split; assumption.
      * exists ((cause, allPapers s1) :: sent). split.
        -- rewrite Hsent, <- app_assoc. reflexivity.
        -- constructor; [exact Hall1|exact Hok].
  - intros t t' e He Hstep.
    destruct (step_edit t e t' Hstep) as (Hidx & _ & Hed).
    assert (Hcur : exists p p', allPapers t !! paperIndex t = Some p
                     /\ allPapers t' = <[paperIndex t := p']> (allPapers t)
                     /\ status_consistent p').
    { destruct He as [(k & key & v & ->)|(k & v & ->)].
      - cbn [step] in Hstep. unfold currentPaper in Hstep.
        destruct (allPapers t !! paperIndex t) as [p|] eqn:Hp; [|discriminate].
        cbn in Hstep. destruct (clickStar k key v p) as [p'|] eqn:Hc; [|discriminate].
        injection Hstep as <-. exists p, p'. split; [reflexivity|].
        split; [reflexivity|]. exact (clickStar_recomputes _ _ _ _ _ Hc).
      - cbn [step] in Hstep. unfold currentPaper in Hstep.
        destruct (allPapers t !! paperIndex t) as [p|] eqn:Hp; [|discriminate].
        cbn in Hstep. destruct (clickSource k v p) as [p'|] eqn:Hc; [|discriminate].
        injection Hstep as <-. exists p, p'. split; [reflexivity|].
        split; [reflexivity|]. exact (clickSource_recomputes _ _ _ _ Hc). }
    destruct Hcur as (p & p' & Hp & Hall' & Hc). exists p'. split; [|exact Hc].
    unfold currentPaper. rewrite Hidx, Hall'.
    apply list_lookup_insert_eq. eapply lookup_lt_Some. exact Hp.
Qed.

Lemma X14_status_stays_consistent_witness :
  let p := Paper "t" None None [] [] [] "not_started"
                 [Review "a" None [] (Metrics None None None None None None None)] in
  let s := initial None [p] 0 in
  let s' := State [Paper "t" None None [] [] [] "not_started"
                     [Review "a" None []
                        (Metrics (Some 4%Z) None None None None None None)]]
                  0 None 0 (textareas s) ∅ ∅ 1%positive
                  [(StarSave,
                    [Paper "t" None None [] [] [] "not_started"
                       [Review "a" None []
                          (Metrics (Some 4%Z) None None None None None None)]])] in
  Forall status_consistent (allPapers s')
  /\ (exists sent : list (save_cause * list paper),
        saves s' = (saves s ++ sent)%list
        /\ Forall (fun sv => Forall status_consistent sv.2) sent)
  /\ (forall (t t' : state) (e : event),
        (exists k key v, e = ClickStar k key v) \/ (exists k v, e = ClickSource k v) ->
        step t e = Some t' ->
        exists p' : paper, currentPaper t' = Some p' /\ status_consistent p').
Proof.
  intros p s s'.
  apply (X14_status_stays_consistent s [ClickStar 0 Coverage 4] s').
  - reflexivity.
  - repeat constructor.
  - repeat constructor.
Defined.

(** *** Progress under rating *)

Lemma set_metric_keeps_complete (key : metric_key) (v : Z) (m : metrics) :
  (0 < v)%Z -> hasAllMetrics m = true -> hasAllMetrics (set_metric key v m) = true.
Proof.
  intros Hv. unfold hasAllMetrics. rewrite !andb_true_iff.
  intros (((((H1 & H2) & H3) & H4) & H5) & H6).
  assert (Hpos : positive_metric (Some v) = true) by (cbn; lia).
  destruct key; cbn; rewrite ?Hpos; repeat split; assumption.
Qed.

Lemma set_source_keeps_complete (v : string) (m : metrics) :
  v = "ai"%string \/ v = "human"%string ->
  hasAllMetrics m = true -> hasAllMetrics (set_source v m) = true.
Proof.
  intros Hv. unfold hasAllMetrics. rewrite !andb_true_iff.
  intros (((((H1 & H2) & H3) & H4) & H5) & H6).
  repeat split; try assumption. destruct Hv as [->| ->]; reflexivity.
Qed.

(** X15.  Rating never loses progress: a click on a star (values 1 to
    5) or on a source button ('ai' or 'human') leaves the number of reviews
    unchanged and the number of complete reviews unchanged or one higher;
    it is one higher exactly when the rated review was incomplete and is
    complete after the click. *)
Theorem X15_rating_never_loses_progress (k : nat) (p p' : paper) :
  (exists key v, (0 < v)%Z /\ clickStar k key v p = Some p')
  \/ (exists v, (v = "ai"%string \/ v = "human"%string) /\ clickSource k v p = Some p') ->
  exists r r' : review,
    reviews p !! k = Some r /\ reviews p' !! k = Some r'
    /\ total (calculateProgress p') = total (calculateProgress p)
    /\ (completed (calculateProgress p) <= completed (calculateProgress p'))%nat
    /\ (completed (calculateProgress p') <= completed (calculateProgress p) + 1)%nat
    /\ (completed (calculateProgress p') = (completed (calculateProgress p) + 1)%nat
        <-> is_complete r = false /\ is_complete r' = true).
Proof.
  intros Hclick.
  assert (Hu : exists f, (forall m, hasAllMetrics m = true -> hasAllMetrics (f m) = true)
                 /\ exists p1, update_metrics k f p = Some p1 /\ p' = updatePaperStatus p1).
  { destruct Hclick as [(key & v & Hv & Hc)|(v & Hv & Hc)].
    - exists (set_metric key v). split; [intros m; apply set_metric_keeps_complete; exact Hv|].
      unfold clickStar in Hc.
      destruct (update_metrics k (set_metric key v) p) as [p1|]; [|discriminate].
      injection Hc as <-. eauto.
    - exists (set_source v). split; [intros m; apply set_source_keeps_complete; exact Hv|].
      unfold clickSource in Hc.
      destruct (update_metrics k (set_source v) p) as [p1|]; [|discriminate].
      injection Hc as <-. eauto. }
  destruct Hu as (f & Hkeep & p1 & Hu & ->).
  destruct (update_metrics_progress _ _ _ _ Hu) as (r & Hr & Htot & Hcomp).
  assert (Hr1 : reviews p1 !! k = Some (with_metrics (f (review_metrics r)) r)).
  { unfold update_metrics in Hu. rewrite Hr in Hu. injection Hu as <-.
    cbn [reviews with_reviews]. apply list_lookup_insert_eq.
    eapply lookup_lt_Some. exact Hr. }
  exists r, (with_metrics (f (review_metrics r)) r).
  split; [exact Hr|]. split; [exact Hr1|].
  assert (Hsame : calculateProgress (updatePaperStatus p1) = calculateProgress p1)
    by reflexivity.
  rewrite Hsame. split; [exact Htot|].
  unfold is_complete. cbn [review_metrics with_metrics].
  specialize (Hkeep (review_metrics r)).
  destruct (hasAllMetrics (review_metrics r));
    destruct (hasAllMetrics (f (review_metrics r)));
    try (specialize (Hkeep eq_refl); discriminate);
    repeat split; try lia; try (intros [? ?]; discriminate); try (intros ?; lia).
Qed.

Lemma X15_rating_never_loses_progress_witness :
  let almost := Metrics (Some 5%Z) (Some 4%Z) (Some 3%Z) (Some 2%Z) None
                        (Some "human") None in
  let p := Paper "t" None None [] [] [] "not_started" [Review "a" None [] almost] in
  let p' := Paper "t" None None [] [] [] "completed"
                  [Review "a" None [] (set_metric Stance 1 almost)] in
  exists r r' : review,
    reviews p !! 0%nat = Some r /\ reviews p' !! 0%nat = Some r'
    /\ total (calculateProgress p') = total (calculateProgress p)
    /\ (completed (calculateProgress p) <= completed (calculateProgress p'))%nat
    /\ (completed (calculateProgress p') <= completed (calculateProgress p) + 1)%nat
    /\ (completed (calculateProgress p') = (completed (calculateProgress p) + 1)%nat
        <-> is_complete r = false /\ is_complete r' = true).
Proof.
  intros almost p p'.
  apply (X15_rating_never_loses_progress 0 p p').
  left. exists Stance, 1%Z. split; [lia|reflexivity].
Defined.

(** *** The text of the main pane *)

Lemma findIndex_model_spec (name : string) (hs : list harmonized) :
  match findIndex_model name hs with
  | Some k =>
      exists h, hs !! k = Some h /\ model h = name
        /\ forall j h', (j < k)%nat -> hs !! j = Some h' -> model h' <> name
  | None => forall h, h ∈ hs -> model h <> name
  end.
Proof.
  induction hs as [|h hs IH]; cbn [findIndex_model].
  - intros h Hin. apply elem_of_nil in Hin. contradiction.
  - destruct (String.eqb_spec (model h) name) as [Heq|Hne].
    + exists h. split; [reflexivity|]. split; [exact Heq|]. intros j h' Hj. lia.
    + destruct (findIndex_model name hs) as [k|]; cbn.
      * destruct IH as (h0 & Hk & Hm & Hfirst). exists h0.
        split; [exact Hk|]. split; [exact Hm|].
        intros [|j] h' Hj Hl; cbn in Hl; [congruence|].
        apply (Hfirst j h'); [lia|exact Hl].
      * intros h' Hin. apply elem_of_cons in Hin as [->|Hin]; [exact Hne|].
        apply IH. exact Hin.
Qed.

(** X16.  The main pane of a review shows the original text when the
    review has no harmonization or harmonized text is not shown by
    default.  Otherwise it shows the text of the first harmonization whose
    model is the configured default model, and, when no harmonization has
    that model, the text of the first harmonization. *)
Theorem X16_main_text (cfg : option config) (r : review) :
  (harmonization r = [] \/ config_flag showHarmonizedByDefault cfg = false ->
   mainText cfg r = text r)
  /\ (harmonization r <> [] -> config_flag showHarmonizedByDefault cfg = true ->
      exists (c : config) (k : nat) (h : harmonized),
        cfg = Some c
        /\ harmonization r !! k = Some h
        /\ mainText cfg r = harmonized_text h
        /\ ((model h = defaultHarmonizationModel c
             /\ forall j h', (j < k)%nat -> harmonization r !! j = Some h' ->
                  model h' <> defaultHarmonizationModel c)
            \/ (k = 0%nat
                /\ forall h', h' ∈ harmonization r ->
                     model h' <> defaultHarmonizationModel c))).
Proof.
  unfold mainText. split.
  - intros [Hnil|Hflag].
    + rewrite Hnil. reflexivity.
    + rewrite Hflag. rewrite andb_false_r. reflexivity.
  - intros Hne Hflag. rewrite Hflag.
    rewrite bool_decide_eq_false_2 by exact Hne. cbn [negb andb].
    destruct cfg as [c|]; [|discriminate]. exists c.
    pose proof (findIndex_model_spec (defaultHarmonizationModel c) (harmonization r))
      as Hspec.
    destruct (findIndex_model (defaultHarmonizationModel c) (harmonization r)) as [k|].
    + destruct Hspec as (h & Hk & Hm & Hfirst). exists k, h. cbn [default from_option id].
      rewrite Hk. split; [reflexivity|]. split; [reflexivity|]. split; [reflexivity|].
      left. split; assumption.
    + destruct (harmonization r) as [|h hs] eqn:Eh; [contradiction|].
      exists 0%nat, h. cbn. split; [reflexivity|]. split; [reflexivity|].
      split; [reflexivity|]. right. split; [reflexivity|exact Hspec].
Qed.

End SessionFacts.

(** ** The chart *)

Module ChartFacts.
Import Model Chart.

Lemma increment_recorded (area b : string) (entries : list (string * nat)) :
  recorded b (increment area entries)
  = (recorded b entries + (if String.eqb area b then 1 else 0))%nat.
Proof.
  induction entries as [|[a n] rest IH]; cbn [increment recorded].
  - destruct (String.eqb area b); reflexivity.
  - destruct (String.eqb_spec a area) as [->|Hne]; cbn [recorded].
    + destruct (String.eqb area b); lia.
    + destruct (String.eqb_spec a b) as [->|Hab].
      * destruct (String.eqb_spec area b) as [->|_]; [contradiction|lia].
      * exact IH.
Qed.

Lemma increment_keys (area : string) (entries : list (string * nat)) :
  (increment area entries).*1
  = if bool_decide (area ∈ entries.*1) then entries.*1
    else (entries.*1 ++ [area])%list.
Proof.
  induction entries as [|[a n] rest IH]; cbn [increment fmap list_fmap fst].
  - rewrite bool_decide_eq_false_2 by apply not_elem_of_nil. reflexivity.
  - destruct (String.eqb_spec a area) as [->|Hne]; cbn [fmap list_fmap fst].
    + rewrite bool_decide_eq_true_2 by apply list_elem_of_here. reflexivity.
    + change (list_fmap _ _ fst (increment area rest)) with ((increment area rest).*1).
      change (list_fmap _ _ fst rest) with (rest.*1).
      rewrite IH. destruct (decide (area ∈ rest.*1)) as [Hin|Hnin].
      * rewrite !bool_decide_eq_true_2; [reflexivity|apply list_elem_of_further|];
          assumption.
      * rewrite !bool_decide_eq_false_2; [reflexivity| |assumption].
        intros Hin. apply elem_of_cons in Hin as [->|Hin]; contradiction.
Qed.

Lemma increment_NoDup (area : string) (entries : list (string * nat)) :
  NoDup entries.*1 -> NoDup (increment area entries).*1.
Proof.
  intros Hnd. rewrite increment_keys.
  destruct (decide (area ∈ entries.*1)) as [Hin|Hnin].
  - rewrite bool_decide_eq_true_2 by assumption. exact Hnd.
  - rewrite bool_decide_eq_false_2 by assumption.
    apply NoDup_app. split; [exact Hnd|]. split; [|apply NoDup_singleton].
    intros x Hx Hx'. apply list_elem_of_singleton in Hx'. subst x. contradiction.
Qed.

Lemma increment_positive (area : string) (entries : list (string * nat)) :
  Forall (fun e => (1 <= e.2)%nat) entries ->
  Forall (fun e => (1 <= e.2)%nat) (increment area entries).
Proof.
  induction 1 as [|[a n] rest Hn Hrest IH]; cbn [increment].
  - constructor; [cbn; lia|constructor].
  - destruct (String.eqb a area); constructor; try assumption; cbn in *; lia.
Qed.

Lemma recorded_elem_of (area : string) (n : nat) (entries : list (string * nat)) :
  NoDup entries.*1 -> (area, n) ∈ entries -> recorded area entries = n.
Proof.
  induction entries as [|[a m] rest IH]; intros Hnd Hin.
  - apply elem_of_nil in Hin. contradiction.
  - cbn [fmap list_fmap fst] in Hnd. apply NoDup_cons in Hnd as [Hnotin Hnd].
    cbn [recorded]. apply elem_of_cons in Hin as [[= <- <-]|Hin].
    + rewrite String.eqb_refl. reflexivity.
    + destruct (String.eqb_spec a area) as [->|_]; [|apply IH; assumption].
      exfalso. apply Hnotin. apply (list_elem_of_fmap_2 fst) in Hin. exact Hin.
Qed.

Lemma recorded_found (area : string) (entries : list (string * nat)) :
  recorded area entries <> 0%nat -> (area, recorded area entries) ∈ entries.
Proof.
  induction entries as [|[a m] rest IH]; cbn [recorded]; [congruence|].
  destruct (String.eqb_spec a area) as [->|_]; intros Hne.
  - apply list_elem_of_here.
  - apply list_elem_of_further. apply IH. exact Hne.
Qed.

(** The entries after counting a list of plain keys. *)
Lemma count_tags (tags : list string) :
  Forall (fun a => plain_key a = true) tags ->
  forall entries : list (string * nat),
    NoDup entries.*1 -> Forall (fun e => (1 <= e.2)%nat) entries ->
    exists entries' : list (string * nat),
      foldl count_area (Some entries) tags = Some entries'
      /\ NoDup entries'.*1
      /\ Forall (fun e => (1 <= e.2)%nat) entries'
      /\ forall b : string,
           recorded b entries'
           = (recorded b entries + length (List.filter (String.eqb b) tags))%nat.
Proof.
  induction 1 as [|a tags Ha _ IH]; intros entries Hnd Hpos.
  - exists entries. cbn. repeat split; try assumption. intros b. lia.
  - cbn [foldl count_area]. rewrite Ha.
    destruct (IH (increment a entries) (increment_NoDup a entries Hnd)
                 (increment_positive a entries Hpos))
      as (entries' & Hfold & Hnd' & Hpos' & Hrec).
    exists entries'. split; [exact Hfold|]. split; [exact Hnd'|]. split; [exact Hpos'|].
    intros b. rewrite Hrec, increment_recorded. cbn [List.filter].
    rewrite (String.eqb_sym b a). destruct (String.eqb a b); cbn [length]; lia.
Qed.

Lemma foldl_nested {A B C : Type} (f : A -> C -> A) (g : B -> list C) (l : list B) :
  forall init : A,
    foldl (fun acc x => foldl f acc (g x)) init l = foldl f init (concat (g <$> l)).
Proof.
  induction l as [|x l IH]; intros init; [reflexivity|].
  cbn [foldl fmap list_fmap concat]. rewrite foldl_app. apply IH.
Qed.

Lemma areaCounts_counts (papers : list paper) :
  Forall (fun p => Forall (fun a => plain_key a = true) (primary_area p)) papers ->
  exists entries : list (string * nat),
    areaCounts papers = Some entries
    /\ NoDup entries.*1
    /\ Forall (fun e => (1 <= e.2)%nat) entries
    /\ forall b : string, recorded b entries = occurrences b papers.
Proof.
  intros Hplain. unfold areaCounts, occurrences.
  rewrite (foldl_nested count_area primary_area papers (Some [])).
  assert (Htags : Forall (fun a => plain_key a = true) (concat (primary_area <$> papers))).
  { apply Forall_concat. apply Forall_fmap. exact Hplain. }
  destruct (count_tags _ Htags [] (NoDup_nil_2) ltac:(constructor))
    as (entries & Hfold & Hnd & Hpos & Hrec).
  exists entries. repeat split; assumption.
Qed.

(** *** Sorting *)

Lemma insert_by_count_perm (e : string * nat) (l : list (string * nat)) :
  insert_by_count e l ≡ₚ e :: l.
Proof.
  induction l as [|x l IH]; cbn [insert_by_count]; [reflexivity|].
  destruct (x.2 <=? e.2)%nat; [reflexivity|].
  rewrite IH. apply Permutation_swap.
Qed.

Lemma insert_by_count_sorted (e : string * nat) (l : list (string * nat)) :
  StronglySorted by_count l -> StronglySorted by_count (insert_by_count e l).
Proof.
  induction 1 as [|x l Hs IH Hall]; cbn [insert_by_count].
  - constructor; constructor.
  - destruct (Nat.leb_spec x.2 e.2) as [Hle|Hgt].
    + constructor; [constructor; assumption|].
      constructor; [exact Hle|].
      eapply Forall_impl; [exact Hall|]. unfold by_count. intros y Hy. lia.
    + constructor; [exact IH|].
      rewrite (insert_by_count_perm e l). constructor; [unfold by_count; lia|exact Hall].
Qed.

Lemma sort_by_count_perm (l : list (string * nat)) : sort_by_count l ≡ₚ l.
Proof.
  induction l as [|e l IH]; [reflexivity|].
  cbn [sort_by_count foldr]. rewrite insert_by_count_perm. constructor. exact IH.
Qed.

Lemma sort_by_count_sorted (l : list (string * nat)) :
  StronglySorted by_count (sort_by_count l).
Proof.
  induction l as [|e l IH]; [constructor|].
  apply insert_by_count_sorted. exact IH.
Qed.

Lemma sorted_lookup {A : Type} (R : A -> A -> Prop) (l : list A) :
  StronglySorted R l ->
  forall (i j : nat) (x y : A),
    l !! i = Some x -> l !! j = Some y -> (i < j)%nat -> R x y.
Proof.
  induction 1 as [|a l Hs IH Hall]; intros i j x y Hi Hj Hlt; [discriminate|].
  destruct j as [|j]; [lia|]. cbn in Hj. destruct i as [|i].
  - cbn in Hi. injection Hi as <-. rewrite Forall_forall in Hall. apply Hall.
    apply list_elem_of_lookup. exists j. exact Hj.
  - cbn in Hi. apply (IH i j); [assumption..|lia].
Qed.

Lemma elem_of_take_full {A : Type} (x : A) (n : nat) (l : list A) :
  x ∈ take n l -> x ∈ l.
Proof.
  intros Hx. apply elem_of_take in Hx as (i & Hi & _).
  apply list_elem_of_lookup. exists i. exact Hi.
Qed.

Lemma sorted_take {A : Type} (R : A -> A -> Prop) (l : list A) (n : nat) :
  StronglySorted R l -> StronglySorted R (take n l).
Proof.
  intros Hs. revert n. induction Hs as [|a l Hs IH Hall]; intros [|n]; cbn;
    try constructor.
  - apply IH.
  - rewrite Forall_forall in *. intros y Hy. apply Hall.
    apply (elem_of_take_full _ _ _ Hy).
Qed.

Lemma sorted_fmap {A B : Type} (f : A -> B) (R : B -> B -> Prop) (l : list A) :
  StronglySorted (fun x y => R (f x) (f y)) l -> StronglySorted R (f <$> l).
Proof.
  induction 1 as [|a l Hs IH Hall]; cbn; constructor; [exact IH|].
  apply Forall_fmap. exact Hall.
Qed.

(** *** Labels *)

Lemma length_append (s t : string) :
  String.length (s ++ t) = (String.length s + String.length t)%nat.
Proof.
  induction s as [|c s IH]; [reflexivity|].
  change (S (String.length (s ++ t)) = S (String.length s + String.length t)).
  f_equal. exact IH.
Qed.

Lemma length_substring_le (n : nat) (s : string) :
  (String.length (String.substring 0 n s) <= n)%nat.
Proof.
  revert s. induction n as [|n IH]; intros [|c s]; cbn; try lia.
  specialize (IH s). lia.
Qed.

Lemma substring_prefix (n : nat) (s : string) :
  String.prefix (String.substring 0 n s) s = true.
Proof.
  revert s. induction n as [|n IH]; intros [|c s]; cbn; try reflexivity.
  destruct (ascii_dec c c) as [_|Hne]; [apply IH|contradiction].
Qed.

Lemma area_label_length (area : string) : (String.length (area_label area) <= 40)%nat.
Proof.
  unfold area_label. destruct (Nat.ltb_spec 40 (String.length area)); [|lia].
  rewrite length_append. pose proof (length_substring_le 37 area). cbn. lia.
Qed.

(** X11.  The chart of research areas.  For papers whose area names
    are plain keys, [updateChart] shows at most ten areas, each once, with
    the number of times the evaluator's papers name it, in descending order
    of that number; an area that is named but not shown is named no more
    often than any area shown, and then ten areas are shown.  No label is
    longer than 40 characters; a name of at most 40 characters is its own
    label, a longer one is cut to its first 37 characters and an
    ellipsis. *)
Theorem X11_chart_top_areas (papers : list paper) :
  Forall (fun p => Forall (fun a => plain_key a = true) (primary_area p)) papers ->
  exists chart : chart_data,
    updateChart papers = Some chart
    /\ (length (sortedAreas chart) <= 10)%nat
    /\ NoDup (sortedAreas chart).*1
    /\ data chart = (sortedAreas chart).*2
    /\ StronglySorted ge (data chart)
    /\ (forall area n, (area, n) ∈ sortedAreas chart ->
          n = occurrences area papers /\ (1 <= n)%nat)
    /\ (forall area, (1 <= occurrences area papers)%nat ->
          area ∉ (sortedAreas chart).*1 ->
          length (sortedAreas chart) = 10%nat
          /\ Forall (fun n => (occurrences area papers <= n)%nat) (data chart))
    /\ labels chart = (fun e => area_label e.1) <$> sortedAreas chart
    /\ Forall (fun label => (String.length label <= 40)%nat) (labels chart)
    /\ (forall area, (String.length area <= 40)%nat -> area_label area = area)
    /\ (forall area, (40 < String.length area)%nat ->
          area_label area = (String.substring 0 37 area ++ "...")%string
          /\ String.prefix (String.substring 0 37 area) area = true).
Proof.
  intros Hplain.
  destruct (areaCounts_counts papers Hplain) as (entries & Hcounts & Hnd & Hpos & Hrec).
  unfold updateChart. rewrite Hcounts. cbn [mbind option_bind].
  eexists. split; [reflexivity|]. cbn [sortedAreas labels data].
  set (sorted := sort_by_count entries).
  assert (Hperm : sorted ≡ₚ entries) by apply sort_by_count_perm.
  assert (Hsorted : StronglySorted by_count sorted) by apply sort_by_count_sorted.
  assert (Hnd' : NoDup sorted.*1) by (rewrite Hperm; exact Hnd).
  assert (Hin : forall area n, (area, n) ∈ sorted ->
            n = occurrences area papers /\ (1 <= n)%nat).
  { intros area n Hin. rewrite Hperm in Hin. split.
    - rewrite <- Hrec. symmetry. apply recorded_elem_of; assumption.
    - rewrite Forall_forall in Hpos. apply (Hpos (area, n) Hin). }
  split; [rewrite length_take; lia|].
  split.
  { rewrite <- (take_drop 10 sorted) in Hnd'. rewrite fmap_app in Hnd'.
    apply NoDup_app in Hnd' as [Hnd' _]. exact Hnd'. }
  split; [reflexivity|].
  split.
  { apply sorted_fmap. apply sorted_take. exact Hsorted. }
  split.
  { intros area n Hin'. apply Hin. apply (elem_of_take_full _ _ _ Hin'). }
  split.
  { intros area Hocc Hnot.
    assert (Hmem : (area, occurrences area papers) ∈ sorted).
    { rewrite Hperm, <- Hrec. apply recorded_found. rewrite Hrec. lia. }
    apply list_elem_of_lookup in Hmem as [j Hj].
    assert (Hj10 : (10 <= j)%nat).
    { destruct (Nat.le_gt_cases 10 j) as [|Hlt]; [assumption|].
      exfalso. apply Hnot. apply list_elem_of_fmap.
      exists (area, occurrences area papers). split; [reflexivity|].
      apply list_elem_of_lookup. exists j. rewrite lookup_take_lt by exact Hlt. exact Hj. }
    apply lookup_lt_Some in Hj as Hlen.
    split; [rewrite length_take; lia|].
    apply Forall_fmap. apply Forall_forall. intros [a n] Hx.
    apply list_elem_of_lookup in Hx as [i Hi].
    assert (Hi10 : (i < 10)%nat).
    { apply lookup_lt_Some in Hi. rewrite length_take in Hi. lia. }
    rewrite lookup_take_lt in Hi by exact Hi10.
    exact (sorted_lookup by_count sorted Hsorted i j _ _ Hi Hj ltac:(lia)). }
  split; [reflexivity|].
  split.
  { apply Forall_fmap. apply Forall_forall. intros e _. apply area_label_length. }
  split.
  { intros area Hlen. unfold area_label.
    destruct (Nat.ltb_spec 40 (String.length area)); [lia|reflexivity]. }
  intros area Hlen. split; [|apply substring_prefix]. unfold area_label.
  destruct (Nat.ltb_spec 40 (String.length area)); [reflexivity|lia].
Qed.

Lemma X11_chart_top_areas_witness :
  let papers := [Paper "a" None None [] ["NLP"; "Vision"] [] "completed" [];
                 Paper "b" None None [] ["Vision"] [] "not_started" []] in
  exists chart : chart_data,
    updateChart papers = Some chart
    /\ (length (sortedAreas chart) <= 10)%nat
    /\ NoDup (sortedAreas chart).*1
    /\ data chart = (sortedAreas chart).*2
    /\ StronglySorted ge (data chart)
    /\ (forall area n, (area, n) ∈ sortedAreas chart ->
          n = occurrences area papers /\ (1 <= n)%nat)
    /\ (forall area, (1 <= occurrences area papers)%nat ->
          area ∉ (sortedAreas chart).*1 ->
          length (sortedAreas chart) = 10%nat
          /\ Forall (fun n => (occurrences area papers <= n)%nat) (data chart))
    /\ labels chart = (fun e => area_label e.1) <$> sortedAreas chart
    /\ Forall (fun label => (String.length label <= 40)%nat) (labels chart)
    /\ (forall area, (String.length area <= 40)%nat -> area_label area = area)
    /\ (forall area, (40 < String.length area)%nat ->
          area_label area = (String.substring 0 37 area ++ "...")%string
          /\ String.prefix (String.substring 0 37 area) area = true).
Proof.
  intros papers. apply (X11_chart_top_areas papers).
  repeat constructor.
Defined.

(** Entries with equal counts keep the order in which the areas were first
    met; the greater count comes first. *)
Example chart_ties :
  updateChart [Paper "a" None None [] ["NLP"; "Vision"] [] "completed" [];
               Paper "b" None None [] ["Theory"; "Vision"] [] "not_started" []]
  = Some (ChartData [("Vision", 2); ("NLP", 1); ("Theory", 1)]%nat
                    ["Vision"; "NLP"; "Theory"] [2; 1; 1]%nat).
Proof. reflexivity. Qed.

End ChartFacts.

(** ** The theme switch *)

Module ThemeFacts.
Import Theme.
Local Open Scope string_scope.

Lemma toggleTheme_view (b : browser) :
  toggleTheme b
  = Browser (negb (theme_dark b))
            (Some (if theme_dark b then "light" else "dark"))
            (Some (if theme_dark b then "light" else "dark"))
            (media_matches b).
Proof. unfold toggleTheme, applyTheme. destruct (theme_dark b); reflexivity. Qed.

(** With a preference stored, neither a change of the system preference
    nor a reload changes the theme or the stored preference. *)
Lemma stored_preference_kept (dark : bool) (b : browser) (e : event) :
  is_click e = false ->
  reviewTheme b = Some (if dark then "dark" else "light") ->
  theme_dark b = dark ->
  data_theme b = Some (if dark then "dark" else "light") ->
  reviewTheme (handle b e) = Some (if dark then "dark" else "light")
  /\ theme_dark (handle b e) = dark
  /\ data_theme (handle b e) = Some (if dark then "dark" else "light").
Proof.
  intros He Hstored Hdark Hattr. destruct e as [|matches|]; [discriminate| |].
  - cbn [handle]. destruct (media_matches b); [|auto].
    unfold handleSystemChange, readStoredPreference. cbn [reviewTheme]. rewrite Hstored.
    destruct dark; cbn; auto.
  - cbn [handle]. unfold initialise, resolveInitialTheme, readStoredPreference, applyTheme.
    cbn [reviewTheme media_matches]. rewrite Hstored. destruct dark; cbn; auto.
Qed.

(** X12.  A click on the theme switch is an explicit choice that
    lasts: it turns the theme into the other one and stores it, and
    afterwards no change of the system preference and no reload changes the
    theme, the [data-theme] attribute or the stored preference, until the
    switch is clicked again.  Two clicks in a row restore the theme. *)
Theorem X12_theme_choice_persists (b : browser) (es : list event) :
  Forall (fun e => is_click e = false) es ->
  let chosen := negb (theme_dark b) in
  let b' := foldl handle (toggleTheme b) es in
  theme_dark b' = chosen
  /\ data_theme b' = Some (if chosen then "dark" else "light")
  /\ reviewTheme b' = Some (if chosen then "dark" else "light")
  /\ theme_dark (toggleTheme (toggleTheme b)) = theme_dark b.
Proof.
  intros Hes chosen b'.
  assert (Hinv : reviewTheme b' = Some (if chosen then "dark" else "light")
                 /\ theme_dark b' = chosen
                 /\ data_theme b' = Some (if chosen then "dark" else "light")).
  { subst b'.
    assert (Hstart : reviewTheme (toggleTheme b)
                     = Some (if chosen then "dark" else "light")
                     /\ theme_dark (toggleTheme b) = chosen
                     /\ data_theme (toggleTheme b)
                        = Some (if chosen then "dark" else "light")).
    { rewrite toggleTheme_view. subst chosen. destruct (theme_dark b); cbn; auto. }
    clearbody chosen. revert Hstart. generalize (toggleTheme b).
    induction Hes as [|e es He _ IH]; intros b0 Hstart; [exact Hstart|].
    cbn [foldl]. apply IH. destruct Hstart as (H1 & H2 & H3).
    exact (stored_preference_kept chosen b0 e He H1 H2 H3). }
  destruct Hinv as (H1 & H2 & H3).
  split; [exact H2|]. split; [exact H3|]. split; [exact H1|].
  rewrite !toggleTheme_view. cbn. apply negb_involutive.
Qed.

Lemma X12_theme_choice_persists_witness :
  let b := Browser false (Some "light") None (Some false) in
  let b' := foldl handle (toggleTheme b) [SystemChange true; Reload; SystemChange false] in
  theme_dark b' = true
  /\ data_theme b' = Some "dark"
  /\ reviewTheme b' = Some "dark"
  /\ theme_dark (toggleTheme (toggleTheme b)) = false.
Proof.
  intros b b'.
  apply (X12_theme_choice_persists b [SystemChange true; Reload; SystemChange false]).
  repeat constructor.
Defined.

(** X17.  Without a usable stored preference (nothing stored, or
    anything other than 'dark' and 'light') the theme follows the system:
    on load it is dark exactly when the media query matches, light in a
    browser without media queries, and every later change of the system
    preference is applied; none of this stores a preference. *)
Theorem X17_theme_follows_system (b : browser) (matches : bool) :
  readStoredPreference b = None ->
  theme_dark (handle b Reload) = bool_decide (media_matches b = Some true)
  /\ reviewTheme (handle b Reload) = reviewTheme b
  /\ readStoredPreference (handle b Reload) = None
  /\ (is_Some (media_matches b) ->
      theme_dark (handle b (SystemChange matches)) = matches
      /\ data_theme (handle b (SystemChange matches))
         = Some (if matches then "dark" else "light")
      /\ reviewTheme (handle b (SystemChange matches)) = reviewTheme b).
Proof.
  intros Hnone.
  assert (Hload : handle b Reload
                  = Browser (bool_decide (media_matches b = Some true))
                            (Some (systemPreference b)) (reviewTheme b)
                            (media_matches b)).
  { cbn [handle]. unfold initialise, resolveInitialTheme.
    assert (Hn : readStoredPreference (Browser false None (reviewTheme b) (media_matches b))
                 = None) by exact Hnone.
    rewrite Hn. cbn [default from_option id]. unfold applyTheme, systemPreference.
    cbn [reviewTheme media_matches].
    destruct (media_matches b) as [[|]|]; reflexivity. }
  rewrite Hload. cbn [theme_dark reviewTheme].
  split; [reflexivity|]. split; [reflexivity|]. split; [exact Hnone|].
  intros [m Hm]. cbn [handle]. rewrite Hm. unfold handleSystemChange.
  assert (Hn : readStoredPreference
                 (Browser (theme_dark b) (data_theme b) (reviewTheme b) (Some matches))
               = None) by exact Hnone.
  rewrite Hn. destruct matches; cbn; auto.
Qed.

Lemma X17_theme_follows_system_witness :
  let b := Browser false None (Some "blue") (Some true) in
  theme_dark (handle b Reload) = bool_decide (media_matches b = Some true)
  /\ reviewTheme (handle b Reload) = reviewTheme b
  /\ readStoredPreference (handle b Reload) = None
  /\ (is_Some (media_matches b) ->
      theme_dark (handle b (SystemChange false)) = false
      /\ data_theme (handle b (SystemChange false)) = Some "light"
      /\ reviewTheme (handle b (SystemChange false)) = reviewTheme b).
Proof.
  intros b. apply (X17_theme_follows_system b false). reflexivity.
Defined.

End ThemeFacts.

(** ** Expanding and collapsing the reviews; the PDF pane *)

Module ControlsFacts.
Import Controls.
Local Open Scope string_scope.

Lemma existsb_uniform (v : bool) (l : list bool) :
  l <> [] -> existsb (fun item => item) ((fun _ => v) <$> l) = v.
Proof.
  intros Hne. destruct v.
  - destruct l as [|x l]; [exfalso; apply Hne; reflexivity|reflexivity].
  - clear Hne. induction l as [|y l IH]; [reflexivity|exact IH].
Qed.

Lemma toggleAllReviews_uniform (v : bool) (l : list bool) (t : string) :
  l <> [] ->
  toggleAllReviews (ReviewsList ((fun _ => v) <$> l) t)
  = ReviewsList ((fun _ => negb v) <$> l)
                (if v then "Expand All" else "Collapse All").
Proof.
  intros Hne. unfold toggleAllReviews. cbn [item_open].
  rewrite (existsb_uniform v l Hne).
  destruct l as [|x l]; [exfalso; apply Hne; reflexivity|].
  cbn [fmap list_fmap]. destruct v; cbn [negb]; f_equal; f_equal;
    rewrite <- list_fmap_compose; reflexivity.
Qed.

(** X18.  "Expand all / collapse all" on a list with at least one
    review: after a click all reviews are in the same state, collapsed if
    any of them was open and expanded otherwise, their number is unchanged,
    and the button then names the opposite action; a further click inverts
    the state of every review, and two further clicks change nothing.  On
    an empty list a click does nothing. *)
Theorem X18_toggle_all_reviews (s : reviews_list) :
  let s1 := toggleAllReviews s in
  let anyOpen := existsb (fun item => item) (item_open s) in
  (item_open s = [] -> s1 = s)
  /\ (item_open s <> [] ->
      item_open s1 = (fun _ => negb anyOpen) <$> item_open s
      /\ toggle_text s1 = (if anyOpen then "Expand All" else "Collapse All")
      /\ item_open (toggleAllReviews s1) = negb <$> item_open s1
      /\ toggleAllReviews (toggleAllReviews s1) = s1).
Proof.
  cbv zeta. destruct s as [items text]. cbn [item_open].
  split.
  - intros ->. reflexivity.
  - intros Hne.
    assert (H1 : toggleAllReviews (ReviewsList items text)
                 = ReviewsList
                     ((fun _ => negb (existsb (fun item => item) items)) <$> items)
                     (if existsb (fun item => item) items
                      then "Expand All" else "Collapse All")).
    { unfold toggleAllReviews. cbn [item_open].
      destruct items as [|x items]; [exfalso; apply Hne; reflexivity|].
      destruct (existsb (fun item => item) (x :: items)); reflexivity. }
    rewrite H1. cbn [item_open toggle_text].
    split; [reflexivity|]. split; [reflexivity|].
    rewrite !(toggleAllReviews_uniform _ items _ Hne). cbn [item_open].
    split.
    + rewrite <- list_fmap_compose. reflexivity.
    + destruct (existsb (fun item => item) items); reflexivity.
Qed.

Section PdfViewer.
Variable trim : string -> string.
Variable encodeURIComponent : string -> string.

Lemma prefix_slash (s : string) :
  String.prefix "/" (if String.prefix "/" s then s else "/" ++ s) = true.
Proof.
  destruct (String.prefix "/" s) eqn:Hp; [exact Hp|].
  cbn. destruct s; reflexivity.
Qed.

(** X19.  The frame of the PDF pane is never given a relative address or
    an address with a scheme: the address it loads always begins with a
    slash.  An address that, once trimmed, begins with http:// or https://
    is loaded through the proxy, with the trimmed address encoded as the
    query; any other address is the trimmed one, with a slash put before it
    unless it begins with one.  The frame's address ends with the fragment
    that sets the view.  For a local address [pdfs/...] without surrounding
    blanks, the links of the pane and its frame point to the same place. *)
Theorem X19_pdf_address (pdfUrl : string) :
  let cleanUrl := trim pdfUrl in
  String.prefix "/" (viewUrl trim encodeURIComponent pdfUrl) = true
  /\ (String.prefix "http://" cleanUrl || String.prefix "https://" cleanUrl = true ->
      viewUrl trim encodeURIComponent pdfUrl
      = "/pdf-proxy?url=" ++ encodeURIComponent cleanUrl)
  /\ (String.prefix "http://" cleanUrl || String.prefix "https://" cleanUrl = false ->
      viewUrl trim encodeURIComponent pdfUrl
      = if String.prefix "/" cleanUrl then cleanUrl else "/" ++ cleanUrl)
  /\ viewer_src trim encodeURIComponent pdfUrl
     = viewUrl trim encodeURIComponent pdfUrl ++ "#view=FitH&navpanes=0&toolbar=1"
  /\ (cleanUrl = pdfUrl -> String.prefix "pdfs/" pdfUrl = true ->
      absoluteUrl pdfUrl = "/" ++ pdfUrl
      /\ viewUrl trim encodeURIComponent pdfUrl = absoluteUrl pdfUrl).
Proof.
  cbv zeta. unfold viewer_src, viewUrl.
  assert (Hexcl : String.prefix "http://" (trim pdfUrl)
                  || String.prefix "https://" (trim pdfUrl) = true ->
                  String.prefix "pdfs/" (trim pdfUrl)
                  || String.prefix "/pdfs/" (trim pdfUrl) = false).
  { destruct (trim pdfUrl) as [|c s]; [discriminate|].
    change (String.prefix "http://" (String c s))
      with (if ascii_dec "h" c then String.prefix "ttp://" s else false).
    change (String.prefix "https://" (String c s))
      with (if ascii_dec "h" c then String.prefix "ttps://" s else false).
    change (String.prefix "pdfs/" (String c s))
      with (if ascii_dec "p" c then String.prefix "dfs/" s else false).
    change (String.prefix "/pdfs/" (String c s))
      with (if ascii_dec "/" c then String.prefix "pdfs/" s else false).
    destruct (ascii_dec "h" c) as [<-|_]; [|discriminate].
    intros _. reflexivity. }
  split; [|split; [|split; [|split]]].
  - destruct (String.prefix "pdfs/" (trim pdfUrl) || String.prefix "/pdfs/" (trim pdfUrl));
      [apply prefix_slash|].
    destruct (String.prefix "http://" (trim pdfUrl)
              || String.prefix "https://" (trim pdfUrl));
      [reflexivity|apply prefix_slash].
  - intros Hhttp. rewrite (Hexcl Hhttp), Hhttp. reflexivity.
  - intros Hhttp. rewrite Hhttp.
    destruct (String.prefix "pdfs/" (trim pdfUrl) || String.prefix "/pdfs/" (trim pdfUrl));
      reflexivity.
  - reflexivity.
  - intros Hclean Hlocal. rewrite Hclean. unfold absoluteUrl. rewrite Hlocal.
    split; [reflexivity|]. cbn [orb].
    destruct pdfUrl as [|c s]; [discriminate|].
    change (String.prefix "pdfs/" (String c s))
      with (if ascii_dec "p" c then String.prefix "dfs/" s else false) in Hlocal.
    change (String.prefix "/" (String c s))
      with (if ascii_dec "/" c then String.prefix EmptyString s else false).
    destruct (ascii_dec "p" c) as [<-|_]; [|discriminate]. reflexivity.
Qed.

End PdfViewer.

End ControlsFacts.

(** ** Comment fields, pending saves, and the order of filters *)

Module RelationFacts.
Import Model Progress Filters Workspace Session Relations.
Import FilterFacts HandlerFacts DebounceFacts SessionFacts.

Lemma lookup_comment_fields (g : review -> string) (l : list review) :
  forall off k : nat,
    (list_to_map (imap (fun i r => ((off + i)%nat, g r)) l) : gmap nat string) !! k
    = if decide (off <= k)%nat then g <$> l !! (k - off)%nat else None.
Proof.
  induction l as [|x l IH]; intros off k.
  - cbn. rewrite lookup_empty. destruct (decide (off <= k)%nat); reflexivity.
  - cbn [imap list_to_map foldr].
    assert (Hext : imap ((fun i r => ((off + i)%nat, g r)) ∘ S) l
                   = imap (fun i r => ((S off + i)%nat, g r)) l).
    { apply imap_ext. intros i y _. cbn. f_equal. lia. }
    rewrite Hext. cbn [fst snd]. rewrite Nat.add_0_r.
    destruct (decide (k = off)) as [->|Hne].
    + rewrite lookup_insert_eq. rewrite decide_True by lia.
      rewrite Nat.sub_diag. reflexivity.
    + rewrite lookup_insert_ne by congruence. rewrite IH.
      destruct (decide (S off <= k)%nat) as [Hle|Hgt].
      * rewrite decide_True by lia.
        replace (k - off)%nat with (S (k - S off)) by lia. reflexivity.
      * rewrite decide_False by lia. reflexivity.
Qed.

Lemma rebuild_shows_comments (s : state) : fields_show_comments (rebuild_textareas s).
Proof.
  unfold fields_show_comments, rebuild_textareas, currentPaper.
  intros p k r Hp Hr.
  destruct (allPapers s !! paperIndex s) as [p0|] eqn:Hp0; cbn in Hp.
  - rewrite Hp0 in Hp. injection Hp as <-. cbn [textareas].
    pose proof (lookup_comment_fields comment_of (reviews p0) 0 k) as Hl.
    cbn [Nat.add] in Hl. rewrite Hl.
    rewrite decide_True by lia. rewrite Nat.sub_0_r, Hr. reflexivity.
  - rewrite Hp0 in Hp. discriminate.
Qed.

Lemma edit_keeps_fields (s : state) (k : nat) (f : metrics -> metrics)
    (p p' : paper) (fields : gmap nat string) :
  allPapers s !! paperIndex s = Some p ->
  update_metrics k f p = Some p' ->
  (forall (j : nat) (r : review), reviews p !! j = Some r -> j <> k ->
     fields !! j = Some (comment_of r)) ->
  (forall r : review, reviews p !! k = Some r ->
     fields !! k = Some (default EmptyString (comment (f (review_metrics r))))) ->
  forall (q : paper) (j : nat) (r : review),
    <[paperIndex s := p']> (allPapers s) !! paperIndex s = Some q ->
    reviews q !! j = Some r ->
    fields !! j = Some (comment_of r).
Proof.
  intros Hp Hu Hother Hk q j r Hq Hr.
  rewrite list_lookup_insert_eq in Hq by (eapply lookup_lt_Some; exact Hp).
  injection Hq as <-. unfold update_metrics in Hu.
  destruct (reviews p !! k) as [r0|] eqn:Hr0; [|discriminate].
  injection Hu as <-. cbn [reviews with_reviews] in Hr.
  destruct (decide (j = k)) as [->|Hne].
  - rewrite list_lookup_insert_eq in Hr by (eapply lookup_lt_Some; exact Hr0).
    injection Hr as <-. unfold comment_of. cbn [review_metrics with_metrics].
    apply Hk. reflexivity.
  - rewrite list_lookup_insert_ne in Hr by congruence. apply Hother; assumption.
Qed.

Lemma step_shows_comments (s : state) (e : event) (s' : state) :
  step s e = Some s' -> fields_show_comments s -> fields_show_comments s'.
Proof.
  intros Hstep Hinv.
  destruct e as [dt|id|k v|k|k key v|k v|k confirmed]; cbn [step] in Hstep.
  - injection Hstep as <-. exact Hinv.
  - destruct (timers s !! id) as [[due k]|]; [|discriminate].
    destruct (due <=? now s)%nat; [|discriminate].
    injection Hstep as <-. exact Hinv.
  - destruct (store_comment k (set_textarea k v s)) as [s1|] eqn:Hs1; [|discriminate].
    cbn in Hstep. injection Hstep as <-.
    destruct (store_comment_view _ _ _ Hs1) as (p & p' & Hp & Hu & ->).
    cbn [set_textarea textareas allPapers paperIndex] in Hp, Hu.
    rewrite lookup_insert_eq in Hu. cbn [default from_option id] in Hu.
    intros q j r Hq Hr. unfold currentPaper in Hq.
    cbn [schedule_save cancel_pending set_currentPaper set_textarea allPapers
         paperIndex textareas] in Hq |- *.
    apply (edit_keeps_fields s k (set_comment v) p p' _ Hp Hu) with (q := q);
      [| |exact Hq|exact Hr].
    + intros j' r' Hr' Hne. rewrite lookup_insert_ne by congruence.
      apply (Hinv p j' r' Hp Hr').
    + intros r' _. rewrite lookup_insert_eq. reflexivity.
  - destruct (store_comment k (forget_pending k (cancel_pending k s)))
      as [s1|] eqn:Hs1; [|discriminate].
    cbn in Hstep. injection Hstep as <-.
    destruct (store_comment_view _ _ _ Hs1) as (p & p' & Hp & Hu & ->).
    cbn [forget_pending cancel_pending textareas allPapers paperIndex] in Hp, Hu.
    intros q j r Hq Hr. unfold currentPaper in Hq.
    cbn [saveEvaluation set_currentPaper forget_pending cancel_pending allPapers
         paperIndex textareas] in Hq |- *.
    apply (edit_keeps_fields s k _ p p' _ Hp Hu) with (q := q);
      [| |exact Hq|exact Hr].
    + intros j' r' Hr' _. apply (Hinv p j' r' Hp Hr').
    + intros r' Hr'. cbn [set_comment comment default from_option id].
      rewrite (Hinv p k r' Hp Hr'). reflexivity.
  - unfold currentPaper in Hstep.
    destruct (allPapers s !! paperIndex s) as [p|] eqn:Hp; [|discriminate].
    cbn in Hstep. unfold clickStar in Hstep.
    destruct (update_metrics k (set_metric key v) p) as [p1|] eqn:Hu; [|discriminate].
    cbn in Hstep. injection Hstep as <-.
    intros q j r Hq Hr. unfold currentPaper in Hq.
    cbn [saveEvaluation set_currentPaper allPapers paperIndex textareas] in Hq |- *.
    rewrite list_lookup_insert_eq in Hq by (eapply lookup_lt_Some; exact Hp).
    injection Hq as <-. cbn [updatePaperStatus with_status reviews] in Hr.
    apply (edit_keeps_fields s k (set_metric key v) p p1 _ Hp Hu) with (q := p1);
      [| | |exact Hr].
    + intros j' r' Hr' _. apply (Hinv p j' r' Hp Hr').
    + intros r' Hr'. rewrite (Hinv p k r' Hp Hr'). destruct key; reflexivity.
    + apply list_lookup_insert_eq. eapply lookup_lt_Some. exact Hp.
  - unfold currentPaper in Hstep.
    destruct (allPapers s !! paperIndex s) as [p|] eqn:Hp; [|discriminate].
    cbn in Hstep. unfold clickSource in Hstep.
    destruct (update_metrics k (set_source v) p) as [p1|] eqn:Hu; [|discriminate].
    cbn in Hstep. injection Hstep as <-.
    intros q j r Hq Hr. unfold currentPaper in Hq.
    cbn [saveEvaluation set_currentPaper allPapers paperIndex textareas] in Hq |- *.
    rewrite list_lookup_insert_eq in Hq by (eapply lookup_lt_Some; exact Hp).
    injection Hq as <-. cbn [updatePaperStatus with_status reviews] in Hr.
    apply (edit_keeps_fields s k (set_source v) p p1 _ Hp Hu) with (q := p1);
      [| | |exact Hr].
    + intros j' r' Hr' _. apply (Hinv p j' r' Hp Hr').
    + intros r' Hr'. rewrite (Hinv p k r' Hp Hr'). reflexivity.
    + apply list_lookup_insert_eq. eapply lookup_lt_Some. exact Hp.
  - destruct (currentPaper s) as [p|]; [|discriminate]. cbn in Hstep.
    destruct (clickClear k confirmed p) as [p'|]; [|discriminate]. cbn in Hstep.
    destruct confirmed; injection Hstep as <-; [|exact Hinv].
    apply rebuild_shows_comments.
Qed.

Lemma reachable_shows_comments (s : state) :
  reachable s -> fields_show_comments s.
Proof.
  induction 1 as [cfg ps i|s e s' _ IH Hstep].
  - apply rebuild_shows_comments.
  - exact (step_shows_comments s e s' Hstep IH).
Qed.

(** X20.  What a comment field shows is what is stored: in every state
    the workspace can reach, the comment field of each review holds exactly
    the comment stored in memory for that review (the empty text if none
    is stored); and the body of a save sent by any event holds, for each
    review of the open paper, the text its comment field shows when the
    handler has run.  An event is a handler run to its end, for a confirmed
    clear with the re-rendering that follows its save. *)
Theorem X20_fields_show_stored_comments (s : state) :
  reachable s ->
  fields_show_comments s
  /\ forall (e : event) (s' : state) (cause : save_cause) (body : list paper),
       step s e = Some s' ->
       saves s' = (saves s ++ [(cause, body)])%list ->
       forall (p : paper) (k : nat) (r : review),
         body !! paperIndex s' = Some p -> reviews p !! k = Some r ->
         textareas s' !! k = Some (comment_of r).
Proof.
  intros Hreach. pose proof (reachable_shows_comments s Hreach) as Hinv.
  split; [exact Hinv|].
  intros e s' cause body Hstep Hsaves p k r Hp Hr.
  pose proof (step_shows_comments s e s' Hstep Hinv) as Hinv'.
  destruct (step_edit s e s' Hstep) as (_ & [Hsame|(cause' & Hsent)] & _).
  - rewrite Hsame in Hsaves. exfalso.
    apply (f_equal length) in Hsaves. rewrite length_app in Hsaves. cbn in Hsaves. lia.
  - rewrite Hsent in Hsaves. apply app_inv_head in Hsaves. injection Hsaves as _ <-.
    exact (Hinv' p k r Hp Hr).
Qed.

Lemma X20_fields_show_stored_comments_witness :
  let s := initial None
             [Paper "t" None None [] [] [] "not_started"
                [Review "a" None []
                   (Metrics None None None None None None (Some "kept"%string))]] 0 in
  fields_show_comments s
  /\ forall (e : event) (s' : state) (cause : save_cause) (body : list paper),
       step s e = Some s' ->
       saves s' = (saves s ++ [(cause, body)])%list ->
       forall (p : paper) (k : nat) (r : review),
         body !! paperIndex s' = Some p -> reviews p !! k = Some r ->
         textareas s' !! k = Some (comment_of r).
Proof.
  intros s. apply X20_fields_show_stored_comments. constructor.
Defined.

(** *** Pending saves *)

Lemma cancel_timer_lookup (recorded : gmap nat positive)
    (pending : gmap positive (nat * nat)) (k : nat) (id : positive) (x : nat * nat) :
  cancel_timer recorded pending k !! id = Some x -> pending !! id = Some x.
Proof.
  unfold cancel_timer. destruct (recorded !! k); [|auto].
  intros Hid. apply lookup_delete_Some in Hid as [_ Hid]. exact Hid.
Qed.

(** A timer pending after an event was pending before it, or was set by
    the event, a keystroke, for 600 ms later. *)
Lemma step_timer_origin (s : state) (e : event) (s' : state) :
  step s e = Some s' ->
  (now s <= now s')%nat
  /\ forall id due k,
       timers s' !! id = Some (due, k) ->
       timers s !! id = Some (due, k)
       \/ (due = (now s + 600)%nat
           /\ exists p r, currentPaper s' = Some p /\ reviews p !! k = Some r).
Proof.
  intros Hstep. pose proof (step_view s e s' Hstep) as [Hidx Hview].
  destruct e as [dt|id0|k0 v|k0|k0 key v|k0 v|k0 confirmed].
  - destruct Hview as (-> & _ & Ht & _). split; [lia|].
    intros id due k Hid. rewrite Ht in Hid. auto.
  - destruct Hview as (due0 & k1 & _ & _ & -> & _ & Ht & _). split; [lia|].
    intros id due k Hid. rewrite Ht in Hid.
    apply lookup_delete_Some in Hid as [_ Hid]. auto.
  - destruct Hview as (-> & _ & Ht & _ & _ & Hcomment & _). split; [lia|].
    intros id due k Hid. rewrite Ht in Hid.
    apply lookup_insert_Some in Hid as [[_ [= <- <-]]|[_ Hid]].
    + right. split; [reflexivity|]. unfold stored_comment in Hcomment.
      unfold currentPaper.
      destruct (allPapers s' !! paperIndex s') as [p|]; [|discriminate].
      cbn in Hcomment. destruct (reviews p !! k0) as [r|] eqn:Hr; [|discriminate].
      exists p, r. split; [reflexivity|exact Hr].
    + apply cancel_timer_lookup in Hid. auto.
  - destruct Hview as (-> & _ & Ht & _). split; [lia|].
    intros id due k Hid. rewrite Ht in Hid. apply cancel_timer_lookup in Hid. auto.
  - destruct Hview as (-> & _ & Ht & _). split; [lia|].
    intros id due k Hid. rewrite Ht in Hid. auto.
  - destruct Hview as (-> & _ & Ht & _). split; [lia|].
    intros id due k Hid. rewrite Ht in Hid. auto.
  - destruct Hview as (-> & _ & Ht & _). split; [lia|].
    intros id due k Hid. rewrite Ht in Hid. auto.
Qed.

Lemma step_keeps_reviews (s : state) (e : event) (s' : state) (p : paper)
    (k : nat) (r : review) :
  step s e = Some s' ->
  currentPaper s = Some p -> reviews p !! k = Some r ->
  exists p' r', currentPaper s' = Some p' /\ reviews p' !! k = Some r'.
Proof.
  intros Hstep Hp Hr. unfold currentPaper in *.
  destruct (step_edit s e s' Hstep) as (Hidx & _ & _).
  destruct (step_same_collection s e s' Hstep) as [Hall _].
  destruct (Forall2_lookup_l _ _ _ _ _ Hall Hp) as (p' & Hp' & Hsame).
  destruct Hsame as (_ & _ & _ & _ & _ & _ & Hrev).
  destruct (Forall2_lookup_l _ _ _ _ _ Hrev Hr) as (r' & Hr' & _).
  exists p', r'. rewrite Hidx. split; assumption.
Qed.

Lemma reachable_timers_accounted (s : state) :
  reachable s ->
  forall id due k,
    timers s !! id = Some (due, k) ->
    (due <= now s + 600)%nat
    /\ exists p r, currentPaper s = Some p /\ reviews p !! k = Some r.
Proof.
  induction 1 as [cfg ps i|s e s' _ IH Hstep].
  - intros id due k Hid. unfold initial, rebuild_textareas in Hid.
    destruct (currentPaper _) in Hid; cbn in Hid; rewrite lookup_empty in Hid;
      discriminate.
  - intros id due k Hid.
    destruct (step_timer_origin s e s' Hstep) as [Hnow Horigin].
    destruct (Horigin id due k Hid) as [Hold|[-> Hnew]].
    + destruct (IH id due k Hold) as (Hdue & p & r & Hp & Hr).
      split; [lia|]. exact (step_keeps_reviews s e s' p k r Hstep Hp Hr).
    + split; [lia|exact Hnew].
Qed.

(** X21.  The bookkeeping of delayed saves matches the browser's
    timers: in every state the workspace can reach, every pending timer is
    the one recorded in [commentSaveTimeouts] for its review, belongs to a
    review of the open paper, and is due no later than 600 ms from now; and
    every timer recorded in [commentSaveTimeouts] is still pending, never
    one that has fired or was cancelled. *)
Theorem X21_pending_saves_accounted (s : state) :
  reachable s ->
  (forall id due k,
     timers s !! id = Some (due, k) ->
     commentSaveTimeouts s !! k = Some id
     /\ (due <= now s + 600)%nat
     /\ exists p r, currentPaper s = Some p /\ reviews p !! k = Some r)
  /\ (forall k id,
        commentSaveTimeouts s !! k = Some id ->
        exists due, timers s !! id = Some (due, k)).
Proof.
  intros Hreach.
  pose proof (reachable_consistent s Hreach) as (Hrec & Hpend & _).
  split; [|exact Hpend].
  intros id due k Hid. split; [exact (Hrec id due k Hid)|].
  exact (reachable_timers_accounted s Hreach id due k Hid).
Qed.

(** X25.  A delayed save that is due can always be delivered, and
    delivers what the field shows: in every reachable state, a pending
    timer whose time has come fires; it sends exactly one save, caused by
    the timer of its review, whose body is the collection in memory, in
    which the review's comment is the text its field shows; memory is not
    changed, and afterwards no timer is pending or recorded for that
    review. *)
Theorem X25_due_timer_delivers (s : state) (id : positive) (due k : nat) :
  reachable s ->
  timers s !! id = Some (due, k) ->
  (due <= now s)%nat ->
  exists (s' : state) (p : paper) (r : review),
    step s (TimerFires id) = Some s'
    /\ currentPaper s = Some p /\ reviews p !! k = Some r
    /\ textareas s !! k = Some (comment_of r)
    /\ saves s' = (saves s ++ [(TimerSave k, allPapers s)])%list
    /\ allPapers s' = allPapers s
    /\ commentSaveTimeouts s' !! k = None
    /\ forall id' due', timers s' !! id' <> Some (due', k).
Proof.
  intros Hreach Hid Hdue.
  pose proof (reachable_consistent s Hreach) as (Hrec & _ & _).
  destruct (reachable_timers_accounted s Hreach id due k Hid) as (_ & p & r & Hp & Hr).
  pose proof (reachable_shows_comments s Hreach p k r Hp Hr) as Hfield.
  eexists. exists p, r. cbn [step]. rewrite Hid.
  destruct (Nat.leb_spec due (now s)) as [_|Hlt]; [|lia].
  split; [reflexivity|]. split; [exact Hp|]. split; [exact Hr|].
  split; [exact Hfield|]. split; [reflexivity|]. split; [reflexivity|].
  cbn [saveEvaluation forget_pending commentSaveTimeouts timers].
  split; [apply lookup_delete_eq|].
  intros id' due' Hid'. apply lookup_delete_Some in Hid' as [Hne Hid'].
  apply Hrec in Hid'. apply Hrec in Hid. congruence.
Qed.

Lemma X25_due_timer_delivers_witness :
  let p := Paper "t" None None [] [] [] "not_started"
                 [Review "a" None [] (Metrics None None None None None None None)] in
  let s1 := default (initial None [p] 0)
                    (step (initial None [p] 0) (InputComment 0 "x"%string)) in
  let s := default s1 (step s1 (Elapse 600)) in
  exists (s' : state) (p : paper) (r : review),
    step s (TimerFires 1%positive) = Some s'
    /\ currentPaper s = Some p /\ reviews p !! 0%nat = Some r
    /\ textareas s !! 0%nat = Some (comment_of r)
    /\ saves s' = (saves s ++ [(TimerSave 0, allPapers s)])%list
    /\ allPapers s' = allPapers s
    /\ commentSaveTimeouts s' !! 0%nat = None
    /\ forall id' due', timers s' !! id' <> Some (due', 0%nat).
Proof.
  intros p s1 s.
  apply (X25_due_timer_delivers s 1%positive 600 0).
  - apply (reachable_step s1 (Elapse 600) s);
      [apply (reachable_step (initial None [p] 0) (InputComment 0 "x"%string) s1);
         [apply reachable_initial|reflexivity]
      |reflexivity].
  - reflexivity.
  - cbn. lia.
Defined.

(** The witness: a state in which the timer of the one review is pending,
    200 ms after the keystroke that started it. *)
Lemma X21_pending_saves_accounted_witness :
  let p := Paper "t" None None [] [] [] "not_started"
                 [Review "a" None [] (Metrics None None None None None None None)] in
  let s1 := default (initial None [p] 0)
                    (step (initial None [p] 0) (InputComment 0 "x"%string)) in
  let s := default s1 (step s1 (Elapse 200)) in
  (reachable s
   /\ timers s !! 1%positive = Some (600%nat, 0%nat)
   /\ commentSaveTimeouts s !! 0%nat = Some 1%positive
   /\ now s = 200%nat)
  /\ (commentSaveTimeouts s !! 0%nat = Some 1%positive
      /\ (600 <= now s + 600)%nat
      /\ exists p r, currentPaper s = Some p /\ reviews p !! 0%nat = Some r)
  /\ (exists due, timers s !! 1%positive = Some (due, 0%nat))
  /\ (forall id due k,
        timers s !! id = Some (due, k) ->
        commentSaveTimeouts s !! k = Some id
        /\ (due <= now s + 600)%nat
        /\ exists p r, currentPaper s = Some p /\ reviews p !! k = Some r)
  /\ (forall k id,
        commentSaveTimeouts s !! k = Some id ->
        exists due, timers s !! id = Some (due, k)).
Proof.
  intros p s1 s.
  assert (Hreach : reachable s).
  { apply (reachable_step s1 (Elapse 200) s);
      [apply (reachable_step (initial None [p] 0) (InputComment 0 "x"%string) s1);
         [apply reachable_initial|reflexivity]
      |reflexivity]. }
  destruct (X21_pending_saves_accounted s Hreach) as [Htimers Hrecorded].
  split; [split; [exact Hreach|split; [reflexivity|split; reflexivity]]|].
  split; [apply (Htimers 1%positive 600%nat 0%nat); reflexivity|].
  split; [apply (Hrecorded 0%nat 1%positive); reflexivity|].
  split; [exact Htimers|exact Hrecorded].
Defined.

(** *** Stricter filters list fewer papers *)

Lemma filter_length_le {A : Type} (f g : A -> bool) (l : list A) :
  (forall x, f x = true -> g x = true) ->
  (length (List.filter f l) <= length (List.filter g l))%nat.
Proof.
  intros Himp. induction l as [|x l IH]; [reflexivity|]. cbn [List.filter].
  destruct (f x) eqn:Hf.
  - rewrite (Himp x Hf). cbn [length]. lia.
  - destruct (g x); cbn [length]; lia.
Qed.

Section WithLowercase.
Context `{Lowercase}.

Lemma stricter_passes (fs' fs : filters) (p : paper) :
  stricter fs' fs -> passes_filter fs' p -> passes_filter fs p.
Proof.
  intros (He & Ha & Hk & Ht & Hs) (Pe & Pa & Pk & Pt & Ps).
  repeat split.
  - intros Hne. destruct He as [He|[He Hsub]]; [contradiction|].
    destruct (Pe He) as (e & He1 & He2). exists e. split; [exact He1|].
    apply Hsub. exact He2.
  - intros Hne. destruct Ha as [Ha|[Ha Hsub]]; [contradiction|].
    destruct (Pa Ha) as (a & Ha1 & Ha2). exists a. split; [exact Ha1|].
    apply Hsub. exact Ha2.
  - intros _ kw Hkw. apply Pk; [|apply Hk; exact Hkw].
    intros Hempty. apply Hk in Hkw. rewrite Hempty in Hkw.
    exact (not_elem_of_empty kw Hkw).
  - intros _ kw Hkw. apply Pt; [|apply Ht; exact Hkw].
    intros Hempty. apply Ht in Hkw. rewrite Hempty in Hkw.
    exact (not_elem_of_empty kw Hkw).
  - intros Hne. destruct Hs as [Hs|[Hs Hsub]]; [contradiction|].
    apply Hsub. apply Ps. exact Hs.
Qed.

(** X22.  Filters compose as the interface suggests: adding a keyword or
    a title word (all must match), or removing a value from a non-empty
    selection of evaluators, areas or statuses while leaving at least one
    (any may match), or making a first selection where none was made, never
    adds a paper to the list: every paper listed under the stricter filters
    is listed under the others, and the list is no longer. *)
Theorem X22_stricter_filters_list_fewer (fs' fs : filters) (allPapers : list paper) :
  stricter fs' fs ->
  (forall p : paper, filterPapers_keep fs' p = true -> filterPapers_keep fs p = true)
  /\ (forall p : paper,
        p ∈ filterPapers fs' allPapers -> p ∈ filterPapers fs allPapers)
  /\ (length (filterPapers fs' allPapers) <= length (filterPapers fs allPapers))%nat.
Proof.
  intros Hstrict.
  assert (Himp : forall p : paper,
            filterPapers_keep fs' p = true -> filterPapers_keep fs p = true).
  { intros p Hp. apply filterPapers_keep_spec.
    apply (stricter_passes fs' fs p Hstrict). apply filterPapers_keep_spec. exact Hp. }
  split; [exact Himp|]. split.
  - intros p Hin. unfold filterPapers in *.
    apply list_elem_of_In, List.filter_In in Hin as [Hin Hkeep].
    apply list_elem_of_In, List.filter_In. split; [exact Hin|apply Himp; exact Hkeep].
  - apply filter_length_le. exact Himp.
Qed.

End WithLowercase.

Lemma X22_stricter_filters_list_fewer_witness :
  let fs := FilterState ({["ann"]} ∪ {["bob"]}) ∅ ∅ ∅ ∅ in
  let fs' := FilterState {["ann"]} ∅ {["graph"]} ∅ {["completed"]} in
  let papers := [Paper "a" None None ["ann"] [] ["Graphs"] "completed" [];
                 Paper "b" None None ["bob"] [] [] "not_started" []] in
  (forall p : paper,
     filterPapers_keep (H := ascii_toLowerCase) fs' p = true ->
     filterPapers_keep (H := ascii_toLowerCase) fs p = true)
  /\ (forall p : paper,
        p ∈ filterPapers (H := ascii_toLowerCase) fs' papers ->
        p ∈ filterPapers (H := ascii_toLowerCase) fs papers)
  /\ (length (filterPapers (H := ascii_toLowerCase) fs' papers)
      <= length (filterPapers (H := ascii_toLowerCase) fs papers))%nat.
Proof.
  intros fs fs' papers.
  apply (X22_stricter_filters_list_fewer (H := ascii_toLowerCase) fs' fs papers).
  unfold stricter, any_of_stricter. cbn [f_evaluators f_areas f_keywords
                                         f_titleKeywords f_statuses].
  split; [right; split; set_solver|].
  split; [left; reflexivity|]. split; [set_solver|]. split; [set_solver|].
  left. reflexivity.
Defined.

End RelationFacts.

(** ** Seeds of papers; the dashboard's selection; timers that fire *)

Module SelectionFacts.
Import F64 F64Facts Shuffle ShuffleFacts Model Progress Filters Workspace.
Import Catalog Dashboard Selection Relations.
Import DebounceFacts CatalogFacts RelationFacts.

Lemma paperSeed_exact (c : config) (paperIndex : Z) :
  (Z.abs (shuffleSeed c) <= 2 ^ 53 - 2 ^ 32)%Z ->
  (0 <= paperIndex < 2 ^ 32)%Z ->
  paperSeed c paperIndex = Fin (inject_Z (shuffleSeed c + paperIndex)).
Proof.
  intros Hseed Hidx. unfold paperSeed.
  rewrite (of_Z_exact (shuffleSeed c)) by lia.
  rewrite (of_Z_exact paperIndex) by lia. cbn [add].
  rewrite (round64_comp _ (inject_Z (shuffleSeed c + paperIndex)))
    by (rewrite inject_Z_plus; reflexivity).
  apply (of_Z_exact (shuffleSeed c + paperIndex)). lia.
Qed.

(** X23.  Distinct papers get distinct seeds: for a base seed of
    magnitude at most 2^53 - 2^32 the sum [shuffleSeed + paperIndex] is
    computed without rounding, so the seed given to [shuffleWithSeed] is
    the exact integer sum and differs between any two papers of the
    collection.  (At a base seed of 2^53 the papers 0 and 1 share a
    seed.) *)
Theorem X23_paper_seeds_distinct (c : config) (i j : Z) (p : paper) :
  (Z.abs (shuffleSeed c) <= 2 ^ 53 - 2 ^ 32)%Z ->
  (0 <= i < 2 ^ 32)%Z -> (0 <= j < 2 ^ 32)%Z ->
  paperSeed c i = Fin (inject_Z (shuffleSeed c + i))
  /\ (paperSeed c i = paperSeed c j -> i = j)
  /\ (shuffleReviews c = true ->
      reviewsToRender (Some c) i p
      = shuffled ← shuffleWithSeed None
                     (imap (fun idx review => Some (review, idx)) (reviews p))
                     (paperSeed c i);
        mapM (fun item : option (review * nat) => fst <$> item) shuffled)
  /\ paperSeed (Config true EmptyString false false false true (2 ^ 53)) 0
     = paperSeed (Config true EmptyString false false false true (2 ^ 53)) 1.
Proof.
  intros Hseed Hi Hj. split; [apply paperSeed_exact; assumption|].
  split; [|split].
  - rewrite (paperSeed_exact c i Hseed Hi), (paperSeed_exact c j Hseed Hj).
    intros Heq. injection Heq as Heq. lia.
  - intros Hsh. unfold reviewsToRender. rewrite Hsh. reflexivity.
  - vm_compute. reflexivity.
Qed.

Lemma X23_paper_seeds_distinct_witness :
  let c := Config true "gpt-4o-mini" false false false true 42 in
  let p := Paper "t" None None [] [] [] "not_started" [] in
  paperSeed c 3 = Fin (inject_Z (shuffleSeed c + 3))
  /\ (paperSeed c 3 = paperSeed c 7 -> 3 = 7)%Z
  /\ (shuffleReviews c = true ->
      reviewsToRender (Some c) 3 p
      = shuffled ← shuffleWithSeed None
                     (imap (fun idx review => Some (review, idx)) (reviews p))
                     (paperSeed c 3);
        mapM (fun item : option (review * nat) => fst <$> item) shuffled)
  /\ paperSeed (Config true EmptyString false false false true (2 ^ 53)) 0
     = paperSeed (Config true EmptyString false false false true (2 ^ 53)) 1.
Proof.
  intros c p. apply (X23_paper_seeds_distinct c 3 7 p); cbn; lia.
Defined.

(** *** The dashboard *)

Section WithPapers.
Variable allPapers : list paper.

Lemma open_dashboard_kept (stored : option string) :
  selection_kept allPapers (open_dashboard allPapers stored).
Proof.
  unfold open_dashboard, loadSavedEvaluator. cbn [storedEvaluator].
  destruct stored as [saved|]; [|split; intros ? [=]].
  destruct (String.eqb_spec saved EmptyString) as [->|Hne]; [split; intros ? [=]|].
  split.
  - intros e [= <-]. split; [exact Hne|reflexivity].
  - intros l [= <-]. exists saved. split; reflexivity.
Qed.

Lemma change_evaluator_kept (value : string) (d : dashboard) :
  selection_kept allPapers d ->
  selection_kept allPapers (change_evaluator allPapers value d).
Proof.
  intros [Hsel Hlist]. unfold change_evaluator.
  destruct (String.eqb_spec value EmptyString) as [->|Hne].
  - split; [exact Hsel|]. intros l [=].
  - split.
    + intros e [= <-]. split; [exact Hne|reflexivity].
    + intros l [= <-]. exists value. split; reflexivity.
Qed.

Lemma change_all_unselected (values : list string) :
  forall d : dashboard,
    selectedEvaluator (change_all allPapers d values) = None ->
    selectedEvaluator d = None /\ Forall (fun value => value = EmptyString) values.
Proof.
  unfold change_all.
  induction values as [|value values IH]; intros d Hnone;
    [split; [exact Hnone|constructor]|].
  cbn [foldl] in Hnone. destruct (IH _ Hnone) as [Hd Hall].
  unfold change_evaluator in Hd.
  destruct (String.eqb_spec value EmptyString) as [->|_]; [|discriminate].
  split; [exact Hd|]. constructor; [reflexivity|exact Hall].
Qed.

(** X24.  The dashboard remembers its evaluator: after opening the
    dashboard and any choices in the dropdown, a selected evaluator is
    never the empty one and is the one stored for the next visit; while the
    sections are shown they list exactly that evaluator's papers; and
    opening the dashboard again selects the same evaluator and lists the
    same papers, also after the placeholder option was chosen, which hides
    the sections without forgetting the selection.  No evaluator is
    selected only if none was stored and nothing but the placeholder was
    chosen. *)
Theorem X24_dashboard_selection_persists (stored : option string)
    (values : list string) :
  let d := change_all allPapers (open_dashboard allPapers stored) values in
  (forall e, selectedEvaluator d = Some e ->
     e <> EmptyString
     /\ storedEvaluator d = Some e
     /\ open_dashboard allPapers (storedEvaluator d)
        = DashboardState (Some e) (Some e) (Some (evaluatorPapers e allPapers)))
  /\ (forall l, listed d = Some l ->
        exists e, selectedEvaluator d = Some e /\ l = evaluatorPapers e allPapers)
  /\ (selectedEvaluator d = None ->
      loadSavedEvaluator (DashboardState None stored None) = None
      /\ Forall (fun value => value = EmptyString) values).
Proof.
  cbv zeta.
  assert (Hkept : selection_kept allPapers
                    (change_all allPapers (open_dashboard allPapers stored) values)).
  { unfold change_all. pose proof (open_dashboard_kept stored) as Hstart.
    revert Hstart. generalize (open_dashboard allPapers stored).
    induction values as [|value values IH]; intros d Hd; [exact Hd|].
    cbn [foldl]. apply IH. apply change_evaluator_kept. exact Hd. }
  destruct Hkept as [Hsel Hlist]. split; [|split; [exact Hlist|]].
  - intros e He. destruct (Hsel e He) as [Hne Hst]. split; [exact Hne|].
    split; [exact Hst|]. rewrite Hst. unfold open_dashboard, loadSavedEvaluator.
    cbn [storedEvaluator].
    destruct (String.eqb_spec e EmptyString) as [->|_]; [contradiction|]. reflexivity.
  - intros Hnone. destruct (change_all_unselected values _ Hnone) as [Hopen Hall].
    split; [|exact Hall]. unfold open_dashboard in Hopen.
    destruct (loadSavedEvaluator (DashboardState None stored None)); [discriminate|].
    reflexivity.
Qed.

End WithPapers.

End SelectionFacts.

(** ** The options offered *)

Module OptionsFacts.
Import Model Dashboard Options.
Import ChartFacts.

Lemma collect_from (tags : list string) :
  forall (set : gset string) (x : string),
    x ∈ foldl (fun set y => {[y]} ∪ set) set tags <-> x ∈ set \/ x ∈ tags.
Proof.
  induction tags as [|y tags IH]; intros set x; cbn [foldl].
  - split; [auto|]. intros [H|H]; [exact H|]. apply elem_of_nil in H. contradiction.
  - rewrite IH, elem_of_union, elem_of_singleton, elem_of_cons. tauto.
Qed.

Lemma elem_of_concat (x : string) (ls : list (list string)) :
  x ∈ concat ls <-> exists l, x ∈ l /\ l ∈ ls.
Proof.
  rewrite list_elem_of_In, in_concat. split.
  - intros (l & Hl & Hx). exists l. split; apply list_elem_of_In; assumption.
  - intros (l & Hx & Hl). exists l. split; apply list_elem_of_In; assumption.
Qed.

Lemma elem_of_collect (field : paper -> list string) (allPapers : list paper)
    (x : string) :
  x ∈ collect field allPapers <-> exists p, p ∈ allPapers /\ x ∈ field p.
Proof.
  unfold collect.
  rewrite (foldl_nested (fun set y => {[y]} ∪ set) field allPapers ∅).
  rewrite collect_from. split.
  - intros [Hempty|Hin]; [exfalso; exact (not_elem_of_empty x Hempty)|].
    apply elem_of_concat in Hin as (l & Hx & Hl).
    apply list_elem_of_fmap in Hl as (p & -> & Hp). eauto.
  - intros (p & Hp & Hx). right. apply elem_of_concat.
    exists (field p). split; [exact Hx|]. apply list_elem_of_fmap. eauto.
Qed.

Lemma insert_sorted_perm (x : string) (l : list string) :
  insert_sorted x l ≡ₚ x :: l.
Proof.
  induction l as [|y l IH]; cbn [insert_sorted]; [reflexivity|].
  destruct (String.leb x y); [reflexivity|]. rewrite IH. apply Permutation_swap.
Qed.

Lemma insert_sorted_sorted (x : string) (l : list string) :
  Sorted (fun a b => String.leb a b = true) l ->
  Sorted (fun a b => String.leb a b = true) (insert_sorted x l).
Proof.
  induction 1 as [|y l Hs IH Hhd]; cbn [insert_sorted].
  - repeat constructor.
  - destruct (String.leb x y) eqn:Hxy.
    + constructor; [constructor; assumption|]. constructor. exact Hxy.
    + constructor; [exact IH|].
      assert (Hyx : String.leb y x = true).
      { destruct (String.leb_total x y) as [H|H]; [congruence|exact H]. }
      destruct l as [|z l]; cbn [insert_sorted].
      * constructor. exact Hyx.
      * destruct (String.leb x z); constructor; [exact Hyx|].
        inversion Hhd; assumption.
Qed.

Lemma sort_strings_perm (l : list string) : sort_strings l ≡ₚ l.
Proof.
  induction l as [|x l IH]; [reflexivity|].
  cbn [sort_strings foldr]. rewrite insert_sorted_perm. constructor. exact IH.
Qed.

Lemma sort_strings_sorted (l : list string) :
  Sorted (fun a b => String.leb a b = true) (sort_strings l).
Proof.
  induction l as [|x l IH]; [constructor|]. apply insert_sorted_sorted. exact IH.
Qed.

Lemma array_includes_spec (l : list string) (x : string) :
  array_includes l x = true <-> x ∈ l.
Proof.
  unfold array_includes. induction l as [|y l IH]; cbn [existsb].
  - split; [discriminate|]. intros H. apply elem_of_nil in H. contradiction.
  - rewrite orb_true_iff, IH, elem_of_cons.
    destruct (String.eqb_spec x y) as [->|Hne]; split; auto.
    + intros [H|H]; [discriminate|auto].
    + intros [H|H]; [contradiction|auto].
Qed.

(** X26.  The evaluator dropdown of the dashboard and the checkbox
    lists of the catalog offer exactly the values that occur in some paper,
    each once, in ascending order.  Choosing an evaluator option whose
    value is not empty selects and stores that evaluator and lists its
    papers, of which there is at least one; every paper is listed after
    choosing any non-empty evaluator it names, which is an option.  An
    empty evaluator name is offered as an option too, but choosing it hides
    the sections and leaves the selection as it was: the papers that name
    it are listed under that option never. *)
Theorem X26_options_cover_the_papers (field : paper -> list string)
    (allPapers : list paper) (d : Selection.dashboard) :
  (forall x, x ∈ sorted_options field allPapers
             <-> exists p, p ∈ allPapers /\ x ∈ field p)
  /\ NoDup (sorted_options field allPapers)
  /\ Sorted (fun a b => String.leb a b = true) (sorted_options field allPapers)
  /\ (forall e, e ∈ sorted_options evaluators allPapers ->
        e <> EmptyString ->
        Selection.change_evaluator allPapers e d
        = Selection.DashboardState (Some e) (Some e)
                                   (Some (evaluatorPapers e allPapers))
        /\ evaluatorPapers e allPapers <> [])
  /\ (forall p e, p ∈ allPapers -> e ∈ evaluators p ->
        e <> EmptyString ->
        e ∈ sorted_options evaluators allPapers
        /\ exists l, Selection.listed (Selection.change_evaluator allPapers e d)
                     = Some l
                     /\ p ∈ l)
  /\ (forall p, p ∈ allPapers -> EmptyString ∈ evaluators p ->
        EmptyString ∈ sorted_options evaluators allPapers
        /\ p ∈ evaluatorPapers EmptyString allPapers
        /\ Selection.change_evaluator allPapers EmptyString d
           = Selection.DashboardState (Selection.selectedEvaluator d)
                                      (Selection.storedEvaluator d) None).
Proof.
  assert (Hmem : forall (f : paper -> list string) x,
            x ∈ sorted_options f allPapers <-> exists p, p ∈ allPapers /\ x ∈ f p).
  { intros f x. unfold sorted_options. rewrite sort_strings_perm, elem_of_elements.
    apply elem_of_collect. }
  assert (Hlisted : forall e p, p ∈ allPapers -> e ∈ evaluators p ->
            p ∈ evaluatorPapers e allPapers).
  { intros e p Hp He. unfold evaluatorPapers.
    apply list_elem_of_In, List.filter_In. split; [apply list_elem_of_In; exact Hp|].
    apply array_includes_spec. exact He. }
  assert (Hchoose : forall e, e <> EmptyString ->
            Selection.change_evaluator allPapers e d
            = Selection.DashboardState (Some e) (Some e)
                                       (Some (evaluatorPapers e allPapers))).
  { intros e Hne. unfold Selection.change_evaluator.
    destruct (String.eqb_spec e EmptyString) as [->|_]; [contradiction|reflexivity]. }
  split; [apply Hmem|]. split.
  { unfold sorted_options. rewrite sort_strings_perm. apply NoDup_elements. }
  split; [apply sort_strings_sorted|]. split; [|split].
  - intros e He Hne. split; [exact (Hchoose e Hne)|].
    apply Hmem in He as (p & Hp & Hin).
    intros Hnil. pose proof (Hlisted e p Hp Hin) as Hl. rewrite Hnil in Hl.
    apply elem_of_nil in Hl. contradiction.
  - intros p e Hp Hin Hne. split; [apply Hmem; eauto|].
    exists (evaluatorPapers e allPapers). rewrite (Hchoose e Hne).
    split; [reflexivity|exact (Hlisted e p Hp Hin)].
  - intros p Hp Hin. split; [apply Hmem; eauto|].
    split; [exact (Hlisted EmptyString p Hp Hin)|reflexivity].
Qed.

(** A paper that names only the empty evaluator: the option is offered,
    and choosing it lists nothing. *)
Example empty_evaluator_option :
  let p := Paper "t" None None [EmptyString] [] [] "not_started" [] in
  let d := Selection.open_dashboard [p] None in
  sorted_options evaluators [p] = [EmptyString]
  /\ evaluatorPapers EmptyString [p] = [p]
  /\ Selection.listed (Selection.change_evaluator [p] EmptyString d) = None.
Proof. vm_compute. repeat split. Qed.

End OptionsFacts.

(** ** The stored filters as JSON holds them *)

Module UntypedFacts.
Import Model Progress Filters Workspace.
Import FilterFacts RenderFacts.

(** *** Sets, [every] and [some] *)

Lemma elem_of_distinct (x : Untyped.item) (array : list Untyped.item) :
  forall seen : list Untyped.item,
    x ∈ Untyped.distinct seen array <-> x ∈ array /\ x ∉ seen.
Proof.
  induction array as [|y array IH]; intros seen; cbn [Untyped.distinct].
  - rewrite elem_of_nil. tauto.
  - destruct (bool_decide_reflect (y ∈ seen)) as [Hy|Hy].
    + rewrite IH, elem_of_cons. split; [tauto|].
      intros [[->|Hx] Hn]; [contradiction|tauto].
    + rewrite elem_of_cons, IH, !elem_of_cons.
      destruct (decide (x = y)) as [->|Hne]; tauto.
Qed.

Lemma forallb_elem_of {A : Type} (f : A -> bool) (l : list A) :
  forallb f l = true <-> forall x, x ∈ l -> f x = true.
Proof.
  rewrite forallb_forall. split; intros Hall x Hx; apply Hall, list_elem_of_In, Hx.
Qed.

Lemma forallb_same_members {A : Type} (f : A -> bool) (l1 l2 : list A) :
  (forall x, x ∈ l1 <-> x ∈ l2) -> forallb f l1 = forallb f l2.
Proof.
  intros Hmem. apply eq_true_iff_eq. rewrite !forallb_elem_of.
  split; intros Hall x Hx; apply Hall, Hmem, Hx.
Qed.

Lemma guarded_every {A : Type} (c : A -> Untyped.outcome) (l : list A) :
  (if (0 <? length l)%nat then Untyped.every c l else Untyped.Yes)
  = Untyped.every c l.
Proof. destruct l; reflexivity. Qed.

Section Callback.
Variable c : Untyped.item -> Untyped.outcome.
Variable g : string -> bool.
Hypothesis c_text : forall s, c (Untyped.Text s) = Untyped.of_bool (g s).
Hypothesis c_other : forall tag, c (Untyped.Other tag) <> Untyped.Yes.

Lemma every_texts (kws : list string) :
  Untyped.every c (Untyped.Text <$> kws) = Untyped.of_bool (forallb g kws).
Proof.
  induction kws as [|kw kws IH]; [reflexivity|].
  rewrite fmap_cons. cbn [Untyped.every forallb]. rewrite c_text.
  destruct (g kw); cbn; [exact IH|reflexivity].
Qed.

Lemma every_Yes (l : list Untyped.item) :
  Untyped.every c l = Untyped.Yes
  <-> exists kws, l = Untyped.Text <$> kws /\ forall kw, kw ∈ kws -> g kw = true.
Proof.
  induction l as [|x l IH]; cbn [Untyped.every].
  - split; [|reflexivity]. intros _. exists []. split; [reflexivity|].
    intros kw Hkw. apply elem_of_nil in Hkw. contradiction.
  - destruct x as [s|tag].
    + rewrite c_text. destruct (g s) eqn:Hg; cbn [Untyped.of_bool].
      * rewrite IH. split.
        -- intros (kws & -> & Hall). exists (s :: kws). split; [reflexivity|].
           intros kw Hkw. apply elem_of_cons in Hkw as [->|Hkw]; auto.
        -- intros (kws & Hl & Hall). destruct kws as [|kw kws]; [discriminate|].
           rewrite fmap_cons in Hl. injection Hl as Hs Hl. exists kws.
           split; [exact Hl|]. intros kw' Hkw'. apply Hall, elem_of_cons. auto.
      * split; [discriminate|]. intros (kws & Hl & Hall).
        destruct kws as [|kw kws]; [discriminate|].
        rewrite fmap_cons in Hl. injection Hl as Hs Hl. subst kw.
        rewrite Hall in Hg; [discriminate|apply list_elem_of_here].
    + destruct (c (Untyped.Other tag)) eqn:Hc; [exfalso; exact (c_other tag Hc)| |];
        (split; [discriminate|]; intros (kws & Hl & _); destruct kws; discriminate).
Qed.

Lemma every_Throws (l : list Untyped.item) :
  Untyped.every c l = Untyped.Throws
  <-> exists pre x post,
        l = ((Untyped.Text <$> pre) ++ x :: post)%list
        /\ (forall kw, kw ∈ pre -> g kw = true)
        /\ c x = Untyped.Throws.
Proof.
  induction l as [|x l IH]; cbn [Untyped.every].
  - split; [discriminate|]. intros (pre & x & post & Hl & _).
    destruct pre; discriminate.
  - destruct (c x) eqn:Hc.
    + rewrite IH. split.
      * intros (pre & y & post & -> & Hall & Hy).
        destruct x as [s|tag]; [|exfalso; exact (c_other tag Hc)].
        exists (s :: pre), y, post. split; [reflexivity|]. split; [|exact Hy].
        intros kw Hkw. apply elem_of_cons in Hkw as [->|Hkw]; [|auto].
        rewrite c_text in Hc. destruct (g s); [reflexivity|discriminate].
      * intros (pre & y & post & Hl & Hall & Hy). destruct pre as [|kw pre].
        -- cbn in Hl. injection Hl as Hx Hl. subst y. congruence.
        -- rewrite fmap_cons in Hl. cbn [app] in Hl. injection Hl as Hx Hl.
           exists pre, y, post. split; [exact Hl|]. split; [|exact Hy].
           intros kw' Hkw'. apply Hall, elem_of_cons. auto.
    + split; [discriminate|]. intros (pre & y & post & Hl & Hall & Hy).
      destruct pre as [|kw pre].
      * cbn in Hl. injection Hl as Hx Hl. subst y. congruence.
      * rewrite fmap_cons in Hl. cbn [app] in Hl. injection Hl as Hx Hl. subst x.
        rewrite c_text, Hall in Hc; [discriminate|apply list_elem_of_here].
    + split; [|reflexivity]. intros _. exists [], x, l. split; [reflexivity|].
      split; [|exact Hc]. intros kw Hkw. apply elem_of_nil in Hkw. contradiction.
Qed.

End Callback.

Lemma passes_set (set : list Untyped.item) (values : list string) :
  Untyped.nonempty set && negb (existsb (Untyped.has set) values) = false
  <-> set = [] \/ exists v, v ∈ values /\ Untyped.Text v ∈ set.
Proof.
  rewrite andb_false_iff, negb_false_iff, existsb_elem_of. unfold Untyped.nonempty.
  split.
  - intros [Hempty|(v & Hv & Hhas)].
    + left. destruct set; [reflexivity|discriminate].
    + right. exists v. split; [exact Hv|].
      unfold Untyped.has in Hhas. apply bool_decide_eq_true in Hhas. exact Hhas.
  - intros [->|(v & Hv & Hin)]; [left; reflexivity|].
    right. exists v. split; [exact Hv|]. apply bool_decide_eq_true. exact Hin.
Qed.

Section WithLowercase.
Context `{Lowercase}.

Lemma some_text (kw : string) (ks : list string) :
  Untyped.some (fun k => Untyped.includes_lowered (toLowerCase k) (Untyped.Text kw)) ks
  = Untyped.of_bool (existsb (fun k => includes (toLowerCase k) (toLowerCase kw)) ks).
Proof.
  induction ks as [|k ks IH]; [reflexivity|].
  cbn [Untyped.some Untyped.includes_lowered existsb].
  destruct (includes (toLowerCase k) (toLowerCase kw)); cbn; [reflexivity|exact IH].
Qed.

Lemma some_other (tag : nat) (ks : list string) :
  Untyped.some (fun k => Untyped.includes_lowered (toLowerCase k) (Untyped.Other tag)) ks
  = match ks with [] => Untyped.No | _ => Untyped.Throws end.
Proof. destruct ks; reflexivity. Qed.

Lemma keyword_throws (x : Untyped.item) (ks : list string) :
  Untyped.some (fun k => Untyped.includes_lowered (toLowerCase k) x) ks = Untyped.Throws
  <-> (exists tag, x = Untyped.Other tag) /\ ks <> [].
Proof.
  destruct x as [kw|tag].
  - rewrite some_text. split.
    + destruct (existsb _ ks); discriminate.
    + intros [[tag [=]] _].
  - rewrite some_other. destruct ks; split; try discriminate.
    + intros [_ Hne]. contradiction.
    + intros _. split; [eauto|discriminate].
    + reflexivity.
Qed.

Lemma title_throws (s : string) (x : Untyped.item) :
  Untyped.includes_lowered s x = Untyped.Throws <-> exists tag, x = Untyped.Other tag.
Proof.
  destruct x as [kw|tag]; cbn.
  - split; [destruct (includes _ _); discriminate|intros [tag [=]]].
  - split; [eauto|reflexivity].
Qed.

Lemma keywords_found_existsb (kws : list string) (p : paper) :
  (forall kw, kw ∈ kws ->
     existsb (fun k => includes (toLowerCase k) (toLowerCase kw)) (keywords p) = true)
  <-> Untyped.keywords_found kws p.
Proof.
  unfold Untyped.keywords_found.
  split; intros Hall kw Hkw; apply existsb_elem_of, Hall, Hkw.
Qed.

(** A round of the loop throws exactly when the paper gets as far as an
    item that is not a string; the indices collected so far play no part. *)
Lemma visit_throws (fs : Untyped.sets) (indices : list nat) (index : nat) (p : paper) :
  Untyped.getFilteredPapers_visit fs indices (index, p) = None
  <-> Untyped.reaches_other fs p.
Proof.
  set (ck := fun kw => Untyped.some
                         (fun k => Untyped.includes_lowered (toLowerCase k) kw)
                         (keywords p)).
  set (gk := fun kw => existsb (fun k => includes (toLowerCase k) (toLowerCase kw))
                               (keywords p)).
  set (ct := Untyped.includes_lowered (toLowerCase (title p))).
  set (gt := fun kw => includes (toLowerCase (title p)) (toLowerCase kw)).
  assert (Hck : forall s, ck (Untyped.Text s) = Untyped.of_bool (gk s))
    by (intros s; apply some_text).
  assert (Hck' : forall tag, ck (Untyped.Other tag) <> Untyped.Yes).
  { intros tag. unfold ck. rewrite some_other. destruct (keywords p); discriminate. }
  assert (Hct : forall s, ct (Untyped.Text s) = Untyped.of_bool (gt s))
    by reflexivity.
  assert (Hct' : forall tag, ct (Untyped.Other tag) <> Untyped.Yes) by discriminate.
  assert (Hsplit :
    Untyped.getFilteredPapers_visit fs indices (index, p) = None
    <-> Untyped.nonempty (Untyped.s_evaluators fs)
        && negb (Untyped.hasEvaluator fs p) = false
        /\ Untyped.nonempty (Untyped.s_areas fs)
           && negb (Untyped.hasArea fs p) = false
        /\ (Untyped.every ck (Untyped.s_keywords fs) = Untyped.Throws
            \/ (Untyped.every ck (Untyped.s_keywords fs) = Untyped.Yes
                /\ Untyped.every ct (Untyped.s_titleKeywords fs) = Untyped.Throws))).
  { unfold Untyped.getFilteredPapers_visit, Untyped.hasKeyword, Untyped.hasTitle.
    unfold Untyped.nonempty at 3 4. rewrite !guarded_every. fold ck ct.
    destruct (Untyped.nonempty (Untyped.s_evaluators fs)
              && negb (Untyped.hasEvaluator fs p));
      [split; [discriminate|intros [[=] _]]|].
    destruct (Untyped.nonempty (Untyped.s_areas fs) && negb (Untyped.hasArea fs p));
      [split; [discriminate|intros (_ & [=] & _)]|].
    destruct (Untyped.every ck (Untyped.s_keywords fs));
      [|split; [discriminate|intros (_ & _ & [[=]|[[=] _]])]
       |split; [intros _; auto|reflexivity]].
    destruct (Untyped.every ct (Untyped.s_titleKeywords fs));
      [|split; [discriminate|intros (_ & _ & [[=]|[_ [=]]])]
       |split; [intros _; auto|reflexivity]].
    destruct (Untyped.nonempty (Untyped.s_statuses fs)
              && negb (Untyped.has (Untyped.s_statuses fs) (status p)));
      (split; [discriminate|intros (_ & _ & [[=]|[_ [=]]])]). }
  rewrite Hsplit. unfold Untyped.reaches_other, Untyped.hasEvaluator, Untyped.hasArea.
  rewrite !passes_set.
  rewrite (every_Throws ck gk Hck Hck'), (every_Yes ck gk Hck Hck'),
    (every_Throws ct gt Hct Hct').
  split.
  - intros (He & Ha & Hkt). split; [exact He|]. split; [exact Ha|].
    destruct Hkt as [(pre & x & post & Hl & Hall & Hx)
                    |[(kws & Hl & Hall) (pre & x & post & Hl' & Hall' & Hx)]].
    + left. apply keyword_throws in Hx as [[tag ->] Hne].
      exists pre, tag, post. split; [exact Hl|]. split; [exact Hne|].
      apply keywords_found_existsb. exact Hall.
    + right. split.
      * exists kws. split; [exact Hl|]. apply keywords_found_existsb. exact Hall.
      * apply title_throws in Hx as [tag ->]. exists pre, tag, post.
        split; [exact Hl'|]. exact Hall'.
  - intros (He & Ha & Hkt). split; [exact He|]. split; [exact Ha|].
    destruct Hkt as [(pre & tag & post & Hl & Hne & Hall)
                    |[(kws & Hl & Hall) (pre & tag & post & Hl' & Hall')]].
    + left. exists pre, (Untyped.Other tag), post. split; [exact Hl|].
      split; [apply keywords_found_existsb; exact Hall|].
      apply keyword_throws. split; [eauto|exact Hne].
    + right. split.
      * exists kws. split; [exact Hl|]. apply keywords_found_existsb. exact Hall.
      * exists pre, (Untyped.Other tag), post. split; [exact Hl'|].
        split; [exact Hall'|reflexivity].
Qed.

Lemma thrown_stays_thrown (fs : Untyped.sets) (entries : list (nat * paper)) :
  foldl (fun indices entry =>
           indices ← indices; Untyped.getFilteredPapers_visit fs indices entry)
        None entries = None.
Proof. induction entries as [|e entries IH]; [reflexivity|exact IH]. Qed.

Lemma loop_throws (fs : Untyped.sets) (entries : list (nat * paper)) :
  forall indices : list nat,
    foldl (fun indices entry =>
             indices ← indices; Untyped.getFilteredPapers_visit fs indices entry)
          (Some indices) entries = None
    <-> exists entry, entry ∈ entries /\ Untyped.reaches_other fs entry.2.
Proof.
  induction entries as [|[index p] entries IH]; intros indices; cbn [foldl].
  - split; [discriminate|]. intros (e & He & _). apply elem_of_nil in He. contradiction.
  - cbn [mbind option_bind].
    destruct (Untyped.getFilteredPapers_visit fs indices (index, p)) as [indices'|] eqn:Hv.
    + rewrite IH. split.
      * intros (e & He & Hr). exists e. split; [apply elem_of_cons; auto|exact Hr].
      * intros (e & He & Hr). apply elem_of_cons in He as [->|He]; [|eauto].
        apply (visit_throws fs indices index p) in Hr. congruence.
    + rewrite thrown_stays_thrown. split; [|reflexivity]. intros _.
      exists (index, p). split; [apply list_elem_of_here|].
      apply (visit_throws fs indices index p). exact Hv.
Qed.

(** [getFilteredPapers] throws exactly when the filters were read and
    some paper of the collection gets as far as an item that is not a
    string. *)
Lemma getFilteredPapers_throws (saved : Untyped.stored) (allPapers : list paper) :
  Untyped.getFilteredPapers saved allPapers = None
  <-> exists fs p, Untyped.loadFilters saved = Some fs
                   /\ p ∈ allPapers /\ Untyped.reaches_other fs p.
Proof.
  unfold Untyped.getFilteredPapers.
  destruct (Untyped.loadFilters saved) as [fs|].
  - rewrite loop_throws. split.
    + intros ([index p] & He & Hr). exists fs, p. split; [reflexivity|].
      split; [|exact Hr].
      apply elem_of_lookup_imap in He as (i & q & [= _ ->] & Hq).
      apply list_elem_of_lookup. eauto.
    + intros (fs' & p & [= <-] & Hp & Hr).
      apply list_elem_of_lookup in Hp as [i Hi]. exists (i, p).
      split; [|exact Hr]. apply elem_of_lookup_imap. eauto.
  - split; [discriminate|]. intros (fs & p & [=] & _).
Qed.

(** *** Stored strings: the typed model *)

Lemma agree_has (set : list Untyped.item) (s : gset string) (x : string) :
  Untyped.agree set s -> Untyped.has set x = has s x.
Proof. intros [Hmem _]. apply bool_decide_ext, Hmem. Qed.

Lemma agree_nonempty (set : list Untyped.item) (s : gset string) :
  Untyped.agree set s -> Untyped.nonempty set = nonempty s.
Proof.
  intros [Hmem Hother]. unfold Untyped.nonempty, nonempty.
  destruct set as [|[x|tag] set].
  - assert (Hs : s = ∅).
    { apply set_eq. intros x. split.
      - intros Hx. apply Hmem, elem_of_nil in Hx. contradiction.
      - intros Hx. apply elem_of_empty in Hx. contradiction. }
    rewrite Hs, size_empty. reflexivity.
  - assert (Hx : x ∈ s) by (apply Hmem, list_elem_of_here).
    destruct (size s) eqn:Hsize; [|reflexivity].
    apply size_empty_iff in Hsize. rewrite Hsize in Hx.
    apply elem_of_empty in Hx. contradiction.
  - exfalso. apply (Hother tag), list_elem_of_here.
Qed.

Lemma agree_texts (set : list Untyped.item) (s : gset string) :
  Untyped.agree set s ->
  exists ws, set = Untyped.Text <$> ws /\ forall x, x ∈ ws <-> x ∈ s.
Proof.
  intros [Hmem Hother].
  assert (Hws : exists ws, set = Untyped.Text <$> ws).
  { clear Hmem. induction set as [|[x|tag] set IH].
    - exists []. reflexivity.
    - destruct IH as [ws ->].
      + intros tag Htag. apply (Hother tag), list_elem_of_further, Htag.
      + exists (x :: ws). reflexivity.
    - exfalso. apply (Hother tag), list_elem_of_here. }
  destruct Hws as [ws ->]. exists ws. split; [reflexivity|].
  intros x. rewrite <- Hmem, list_elem_of_fmap. split.
  - intros Hx. eauto.
  - intros (y & [= ->] & Hy). exact Hy.
Qed.

Lemma agree_every (c : Untyped.item -> Untyped.outcome) (g : string -> bool)
    (set : list Untyped.item) (s : gset string) :
  (forall x, c (Untyped.Text x) = Untyped.of_bool (g x)) ->
  Untyped.agree set s ->
  Untyped.every c set = Untyped.of_bool (forallb g (elements s)).
Proof.
  intros Hc Hagree. destruct (agree_texts set s Hagree) as (ws & -> & Hws).
  rewrite (every_texts c g Hc). f_equal. apply forallb_same_members.
  intros x. rewrite Hws, elem_of_elements. reflexivity.
Qed.

Lemma agree_field (f : Untyped.field) (d : option (list string)) :
  Untyped.readable f = true ->
  Untyped.field_texts f = Some d ->
  exists set, Untyped.new_Set f = Some set /\ Untyped.agree set (to_set d).
Proof.
  destruct f as [| |items]; cbn; [|discriminate|].
  - intros _ [= <-]. exists []. split; [reflexivity|]. split.
    + intros x. rewrite elem_of_nil. unfold to_set. cbn. set_solver.
    + intros tag. apply not_elem_of_nil.
  - intros _ Htexts. destruct (mapM Untyped.text items) as [ws|] eqn:Hws;
      [|discriminate]. cbn in Htexts. injection Htexts as <-.
    assert (Hitems : items = Untyped.Text <$> ws).
    { apply mapM_Some in Hws. induction Hws as [|x w items ws Hx _ IH]; [reflexivity|].
      rewrite fmap_cons, <- IH. destruct x; cbn in Hx; [|discriminate].
      injection Hx as ->. reflexivity. }
    exists (Untyped.distinct [] items). split; [reflexivity|]. split.
    + intros x. rewrite elem_of_distinct. unfold to_set. cbn [default].
      rewrite elem_of_list_to_set, Hitems, list_elem_of_fmap. split.
      * intros [(y & [= ->] & Hy) _]. exact Hy.
      * intros Hx. split; [eauto|apply not_elem_of_nil].
    + intros tag Htag. apply elem_of_distinct in Htag as [Htag _].
      rewrite Hitems in Htag. apply list_elem_of_fmap in Htag as (y & [=] & _).
Qed.

Lemma unreadable_field (f : Untyped.field) :
  Untyped.readable f = false -> Untyped.new_Set f = None.
Proof. destruct f; [discriminate|reflexivity|discriminate]. Qed.

Lemma readable_field (f : Untyped.field) :
  Untyped.readable f = true -> exists set, Untyped.new_Set f = Some set.
Proof. destruct f; [eauto|discriminate|cbn; eauto]. Qed.

(** [loadFilters] of both models on a stored value whose items are
    strings. *)
Lemma loadFilters_typed (saved : Untyped.stored) (t : stored_filters) :
  Untyped.typed saved = Some t ->
  match loadFilters t with
  | None => Untyped.loadFilters saved = None
  | Some fs' =>
      exists fs, Untyped.loadFilters saved = Some fs /\ Untyped.agree_sets fs fs'
  end.
Proof.
  destruct saved as [| | |e a k tk s]; cbn [Untyped.typed].
  - intros [= <-]. reflexivity.
  - intros [= <-]. reflexivity.
  - intros [= <-]. reflexivity.
  - destruct (Untyped.readable e) eqn:He; cbn [andb].
    2:{ intros [= <-]. cbn. rewrite (unreadable_field e He). reflexivity. }
    destruct (readable_field e He) as [se Hse].
    destruct (Untyped.readable a) eqn:Ha; cbn [andb].
    2:{ intros [= <-]. cbn. rewrite Hse, (unreadable_field a Ha). reflexivity. }
    destruct (readable_field a Ha) as [sa Hsa].
    destruct (Untyped.readable k) eqn:Hk; cbn [andb].
    2:{ intros [= <-]. cbn. rewrite Hse, Hsa, (unreadable_field k Hk). reflexivity. }
    destruct (readable_field k Hk) as [sk Hsk].
    destruct (Untyped.readable tk) eqn:Htk; cbn [andb].
    2:{ intros [= <-]. cbn. rewrite Hse, Hsa, Hsk, (unreadable_field tk Htk).
        reflexivity. }
    destruct (readable_field tk Htk) as [stk Hstk].
    destruct (Untyped.readable s) eqn:Hs; cbn [andb].
    2:{ intros [= <-]. cbn. rewrite Hse, Hsa, Hsk, Hstk, (unreadable_field s Hs).
        reflexivity. }
    destruct (Untyped.field_texts e) as [de|] eqn:Hde; [|discriminate].
    destruct (Untyped.field_texts a) as [da|] eqn:Hda; [|discriminate].
    destruct (Untyped.field_texts k) as [dk|] eqn:Hdk; [|discriminate].
    destruct (Untyped.field_texts tk) as [dtk|] eqn:Hdtk; [|discriminate].
    destruct (Untyped.field_texts s) as [ds|] eqn:Hds; [|discriminate].
    cbn. intros [= <-]. cbn [loadFilters d_evaluators d_areas d_keywords
                             d_titleKeywords d_statuses].
    destruct (agree_field e de He Hde) as (se' & Hse' & Age).
    destruct (agree_field a da Ha Hda) as (sa' & Hsa' & Aga).
    destruct (agree_field k dk Hk Hdk) as (sk' & Hsk' & Agk).
    destruct (agree_field tk dtk Htk Hdtk) as (stk' & Hstk' & Agtk).
    destruct (agree_field s ds Hs Hds) as (ss' & Hss' & Ags).
    rewrite Hse', Hsa', Hsk', Hstk', Hss'. cbn.
    eexists. split; [reflexivity|].
    exact (conj Age (conj Aga (conj Agk (conj Agtk Ags)))).
Qed.

Lemma visit_typed (fs : Untyped.sets) (fs' : filters) (indices : list nat)
    (entry : nat * paper) :
  Untyped.agree_sets fs fs' ->
  Untyped.getFilteredPapers_visit fs indices entry
  = Some (getFilteredPapers_visit fs' indices entry).
Proof.
  intros (Ae & Aa & Ak & At & As). destruct entry as [index p].
  unfold Untyped.getFilteredPapers_visit, getFilteredPapers_visit.
  assert (He : Untyped.hasEvaluator fs p = hasEvaluator fs' p).
  { unfold Untyped.hasEvaluator, hasEvaluator. induction (evaluators p) as [|x l IH];
      [reflexivity|]. cbn [existsb]. rewrite IH, (agree_has _ _ x Ae). reflexivity. }
  assert (Ha : Untyped.hasArea fs p = hasArea fs' p).
  { unfold Untyped.hasArea, hasArea. induction (primary_area p) as [|x l IH];
      [reflexivity|]. cbn [existsb]. rewrite IH, (agree_has _ _ x Aa). reflexivity. }
  assert (Hk : Untyped.hasKeyword fs p = Untyped.of_bool (hasKeyword fs' p)).
  { unfold Untyped.hasKeyword, hasKeyword.
    apply (agree_every _ (fun kw => existsb (fun k => includes (toLowerCase k)
                                                           (toLowerCase kw))
                                          (keywords p)));
      [intros x; apply some_text|exact Ak]. }
  assert (Ht : Untyped.hasTitle fs p = Untyped.of_bool (hasTitle fs' p)).
  { unfold Untyped.hasTitle, hasTitle.
    apply (agree_every _ (fun kw => includes (toLowerCase (title p)) (toLowerCase kw)));
      [reflexivity|exact At]. }
  rewrite He, Ha, Hk, Ht, (agree_has _ _ (status p) As),
    (agree_nonempty _ _ Ae), (agree_nonempty _ _ Aa), (agree_nonempty _ _ Ak),
    (agree_nonempty _ _ At), (agree_nonempty _ _ As).
  destruct (nonempty (f_evaluators fs') && negb (hasEvaluator fs' p)); [reflexivity|].
  destruct (nonempty (f_areas fs') && negb (hasArea fs' p)); [reflexivity|].
  destruct (nonempty (f_keywords fs')); cbn [andb];
    [destruct (hasKeyword fs' p); cbn [Untyped.of_bool negb]; [|reflexivity]|];
    (destruct (nonempty (f_titleKeywords fs')); cbn [andb];
     [destruct (hasTitle fs' p); cbn [Untyped.of_bool negb]; [|reflexivity]|];
     destruct (nonempty (f_statuses fs') && negb (has (f_statuses fs') (status p)));
     reflexivity).
Qed.

Lemma loop_typed (fs : Untyped.sets) (fs' : filters) (entries : list (nat * paper)) :
  Untyped.agree_sets fs fs' ->
  forall indices : list nat,
    foldl (fun indices entry =>
             indices ← indices; Untyped.getFilteredPapers_visit fs indices entry)
          (Some indices) entries
    = Some (foldl (getFilteredPapers_visit fs') indices entries).
Proof.
  intros Hagree. induction entries as [|e entries IH]; intros indices; [reflexivity|].
  cbn [foldl mbind option_bind]. rewrite (visit_typed fs fs' indices e Hagree).
  apply IH.
Qed.

(** On a stored value whose items are strings the two models list the same
    papers, and no exception is thrown. *)
Lemma getFilteredPapers_typed (saved : Untyped.stored) (t : stored_filters)
    (allPapers : list paper) :
  Untyped.typed saved = Some t ->
  Untyped.getFilteredPapers saved allPapers = Some (getFilteredPapers t allPapers).
Proof.
  intros Ht. pose proof (loadFilters_typed saved t Ht) as Hload.
  unfold Untyped.getFilteredPapers, getFilteredPapers.
  destruct (loadFilters t) as [fs'|].
  - destruct Hload as (fs & -> & Hagree). apply loop_typed. exact Hagree.
  - rewrite Hload. reflexivity.
Qed.

Lemma loadPapers_typed (configResponse : fetched (option config))
    (papersResponse : fetched (list paper)) (saved : Untyped.stored)
    (t : stored_filters) (paperParam : option Z) :
  Untyped.typed saved = Some t ->
  Untyped.loadPapers configResponse papersResponse saved paperParam
  = loadPapers configResponse papersResponse t paperParam.
Proof.
  intros Ht. unfold Untyped.loadPapers, loadPapers.
  destruct papersResponse as [|allPapers]; [reflexivity|].
  rewrite (getFilteredPapers_typed saved t allPapers Ht). reflexivity.
Qed.

(** *** The page after loading *)

(** The page for a paper index that names a paper, once the filters have
    been evaluated. *)
Lemma loadPapers_loads (configResponse : fetched (option config))
    (allPapers : list paper) (saved : Untyped.stored) (paperIndex : nat)
    (p : paper) (f : list nat) :
  allPapers !! paperIndex = Some p ->
  (Z.of_nat (length allPapers) < 2 ^ 32)%Z ->
  (Z.of_nat (length (reviews p)) < 2 ^ 32)%Z ->
  Untyped.getFilteredPapers saved allPapers = Some f ->
  exists items : list review_item,
    Untyped.loadPapers configResponse (Fetched allPapers) saved
                       (Some (Z.of_nat paperIndex))
    = Loaded (loadConfig configResponse) allPapers paperIndex f
             (indexOf f paperIndex) items
    /\ shown <$> items ≡ₚ reviews p
    /\ data_review <$> items = seq 0 (length (reviews p))
    /\ Forall2 (fun item r =>
                  main_text item = mainText (loadConfig configResponse) (shown item)
                  /\ stars item = filled_stars r
                  /\ comment_value item = comment_of r)
               items (reviews p).
Proof.
  intros Hp Hall Hrev Hf. apply lookup_lt_Some in Hp as Hlt.
  destruct (renderReviews_total (loadConfig configResponse) (Z.of_nat paperIndex) p
              ltac:(lia) Hrev) as (items & Hitems & Hrest).
  exists items. split; [|exact Hrest].
  unfold Untyped.loadPapers. cbv zeta. rewrite Hf.
  destruct (Z.leb_spec 0 (Z.of_nat paperIndex)); [|lia].
  destruct (Z.ltb_spec (Z.of_nat paperIndex) (Z.of_nat (length allPapers))); [|lia].
  cbn [andb]. rewrite Nat2Z.id, Hp, Hitems. reflexivity.
Qed.

Lemma loadPapers_thrown (configResponse : fetched (option config))
    (allPapers : list paper) (saved : Untyped.stored) (paperParam : option Z) :
  Untyped.getFilteredPapers saved allPapers = None ->
  Untyped.loadPapers configResponse (Fetched allPapers) saved paperParam
  = ErrorLoading.
Proof. intros Hf. unfold Untyped.loadPapers. rewrite Hf. reflexivity. Qed.

Lemma getFilteredPapers_evaluates (saved : Untyped.stored) (allPapers : list paper) :
  (forall fs q, Untyped.loadFilters saved = Some fs -> q ∈ allPapers ->
                ~ Untyped.reaches_other fs q) ->
  exists f, Untyped.getFilteredPapers saved allPapers = Some f.
Proof.
  intros Hnone.
  destruct (Untyped.getFilteredPapers saved allPapers) as [f|] eqn:Hf; [eauto|].
  apply getFilteredPapers_throws in Hf as (fs & q & Hfs & Hq & Hr).
  destruct (Hnone fs q Hfs Hq Hr).
Qed.

(** X2.  Whatever the configuration (fetched or not, shuffling or not,
    any integer seed), a paper index that names a paper of the collection
    loads the page unless evaluating the stored filters throws.  When no
    paper of the collection gets as far as a stored keyword or title
    keyword that is not a string, and so whenever every stored item is a
    string, rendering throws no exception, the items show every review of
    the paper exactly once, their [data-review] attributes are 0, 1, 2, ...
    in display order, and the stars and comment of the item in position [k]
    are those of the review stored at index [k].  When some paper does get
    that far, the page shows "Error loading paper" although the collection
    was fetched and the index names a paper. *)
Theorem X2_load_shows_every_review (configResponse : fetched (option config))
    (allPapers : list paper) (saved : Untyped.stored) (paperIndex : nat)
    (p : paper) :
  allPapers !! paperIndex = Some p ->
  (Z.of_nat (length allPapers) < 2 ^ 32)%Z ->
  (Z.of_nat (length (reviews p)) < 2 ^ 32)%Z ->
  ((forall fs q, Untyped.loadFilters saved = Some fs -> q ∈ allPapers ->
                 ~ Untyped.reaches_other fs q) ->
   exists (f : list nat) (items : list review_item),
     Untyped.getFilteredPapers saved allPapers = Some f
     /\ Untyped.loadPapers configResponse (Fetched allPapers) saved
                           (Some (Z.of_nat paperIndex))
        = Loaded (loadConfig configResponse) allPapers paperIndex f
                 (indexOf f paperIndex) items
     /\ shown <$> items ≡ₚ reviews p
     /\ data_review <$> items = seq 0 (length (reviews p))
     /\ Forall2 (fun item r =>
                   main_text item = mainText (loadConfig configResponse) (shown item)
                   /\ stars item = filled_stars r
                   /\ comment_value item = comment_of r)
                items (reviews p))
  /\ (forall t : stored_filters,
        Untyped.typed saved = Some t ->
        exists items : list review_item,
          Untyped.loadPapers configResponse (Fetched allPapers) saved
                             (Some (Z.of_nat paperIndex))
          = Loaded (loadConfig configResponse) allPapers paperIndex
                   (getFilteredPapers t allPapers)
                   (indexOf (getFilteredPapers t allPapers) paperIndex) items
          /\ shown <$> items ≡ₚ reviews p
          /\ data_review <$> items = seq 0 (length (reviews p))
          /\ Forall2 (fun item r =>
                        main_text item
                        = mainText (loadConfig configResponse) (shown item)
                        /\ stars item = filled_stars r
                        /\ comment_value item = comment_of r)
                     items (reviews p))
  /\ (forall fs q, Untyped.loadFilters saved = Some fs -> q ∈ allPapers ->
        Untyped.reaches_other fs q ->
        Untyped.loadPapers configResponse (Fetched allPapers) saved
                           (Some (Z.of_nat paperIndex))
        = ErrorLoading).
Proof.
  intros Hp Hall Hrev. split; [|split].
  - intros Hnone. destruct (getFilteredPapers_evaluates saved allPapers Hnone) as [f Hf].
    destruct (loadPapers_loads configResponse allPapers saved paperIndex p f
                Hp Hall Hrev Hf) as (items & Hitems).
    exists f, items. split; [exact Hf|exact Hitems].
  - intros t Ht.
    exact (loadPapers_loads configResponse allPapers saved paperIndex p _
             Hp Hall Hrev (getFilteredPapers_typed saved t allPapers Ht)).
  - intros fs q Hfs Hq Hr. apply loadPapers_thrown.
    apply getFilteredPapers_throws. eauto.
Qed.

(** X3.  For a collection and reviews of a size an array can have: the
    error page appears exactly when the collection could not be fetched, or
    it was fetched and evaluating the stored filters throws, which happens
    exactly when the filters were read and some paper of the collection
    gets as far as a stored keyword or title keyword that is not a string;
    it never appears because of the configuration or the shuffle, nor
    because of the filters when every stored item is a string.  "Paper not
    found" appears exactly when the collection was fetched, the filters do
    not throw, and the paper parameter is not a number, negative, or not
    below the number of papers. *)
Theorem X3_load_outcomes (configResponse : fetched (option config))
    (papersResponse : fetched (list paper)) (saved : Untyped.stored)
    (paperParam : option Z) :
  (forall allPapers : list paper,
     papersResponse = Fetched allPapers ->
     (Z.of_nat (length allPapers) < 2 ^ 32)%Z
     /\ Forall (fun p => (Z.of_nat (length (reviews p)) < 2 ^ 32)%Z) allPapers) ->
  (Untyped.loadPapers configResponse papersResponse saved paperParam = ErrorLoading
   <-> papersResponse = FetchFailed
       \/ exists (allPapers : list paper) (fs : Untyped.sets) (p : paper),
            papersResponse = Fetched allPapers
            /\ Untyped.loadFilters saved = Some fs
            /\ p ∈ allPapers
            /\ Untyped.reaches_other fs p)
  /\ (Untyped.loadPapers configResponse papersResponse saved paperParam = NotFound
      <-> exists allPapers : list paper,
            papersResponse = Fetched allPapers
            /\ (forall fs p, Untyped.loadFilters saved = Some fs -> p ∈ allPapers ->
                             ~ Untyped.reaches_other fs p)
            /\ match paperParam with
               | None => True
               | Some paperIndex =>
                   (paperIndex < 0)%Z \/ (Z.of_nat (length allPapers) <= paperIndex)%Z
               end)
  /\ (forall t : stored_filters,
        Untyped.typed saved = Some t ->
        (Untyped.loadPapers configResponse papersResponse saved paperParam
         = ErrorLoading
         <-> papersResponse = FetchFailed)).
Proof.
  intros Hsize. destruct papersResponse as [|allPapers].
  { cbn. split; [split; auto|]. split; [|split; reflexivity].
    split; [discriminate|]. intros (? & [=] & _). }
  destruct (Hsize allPapers eq_refl) as [Hlen Hrev].
  destruct (Untyped.getFilteredPapers saved allPapers) as [f|] eqn:Hf.
  - assert (Hnone : forall fs p, Untyped.loadFilters saved = Some fs ->
                                 p ∈ allPapers -> ~ Untyped.reaches_other fs p).
    { intros fs p Hfs Hp Hr.
      assert (Hthrown : Untyped.getFilteredPapers saved allPapers = None)
        by (apply getFilteredPapers_throws; eauto).
      congruence. }
    assert (Hcases :
      (Untyped.loadPapers configResponse (Fetched allPapers) saved paperParam = NotFound
       /\ match paperParam with
          | None => True
          | Some paperIndex =>
              (paperIndex < 0)%Z \/ (Z.of_nat (length allPapers) <= paperIndex)%Z
          end)
      \/ (exists (paperIndex : nat) items,
            paperParam = Some (Z.of_nat paperIndex)
            /\ (paperIndex < length allPapers)%nat
            /\ Untyped.loadPapers configResponse (Fetched allPapers) saved paperParam
               = Loaded (loadConfig configResponse) allPapers paperIndex f
                        (indexOf f paperIndex) items)).
    { destruct paperParam as [paperIndex|].
      2:{ left. unfold Untyped.loadPapers. rewrite Hf. auto. }
      destruct (Z_lt_dec paperIndex 0) as [Hneg|Hnn].
      { left. unfold Untyped.loadPapers. rewrite Hf.
        destruct (Z.leb_spec 0 paperIndex); [lia|]. auto. }
      destruct (Z_le_dec (Z.of_nat (length allPapers)) paperIndex) as [Hbig|Hsmall].
      { left. unfold Untyped.loadPapers. rewrite Hf.
        destruct (Z.leb_spec 0 paperIndex); [|lia].
        destruct (Z.ltb_spec paperIndex (Z.of_nat (length allPapers))); [lia|]. auto. }
      right.
      destruct (lookup_lt_is_Some_2 allPapers (Z.to_nat paperIndex) ltac:(lia))
        as [p Hp].
      rewrite Forall_forall in Hrev.
      assert (Hin : p ∈ allPapers) by (apply list_elem_of_lookup; eauto).
      destruct (loadPapers_loads configResponse allPapers saved (Z.to_nat paperIndex)
                  p f Hp Hlen (Hrev p Hin) Hf) as (items & Hitems & _).
      rewrite Z2Nat.id in Hitems by lia.
      exists (Z.to_nat paperIndex), items. rewrite Z2Nat.id by lia.
      split; [reflexivity|]. split; [lia|exact Hitems]. }
    assert (Herr : Untyped.loadPapers configResponse (Fetched allPapers) saved paperParam
                   <> ErrorLoading).
    { destruct Hcases as [[-> _]|(i & items & _ & _ & ->)]; discriminate. }
    split; [|split].
    + split; [intros Hl; contradiction|].
      intros [[=]|(all' & fs & p & [= <-] & Hfs & Hp & Hr)].
      destruct (Hnone fs p Hfs Hp Hr).
    + split.
      * intros Hnf. exists allPapers. split; [reflexivity|]. split; [exact Hnone|].
        destruct Hcases as [[_ Hparam]|(i & items & _ & _ & Hl)]; [exact Hparam|].
        congruence.
      * intros (all' & [= <-] & _ & Hparam).
        destruct Hcases as [[Hnf _]|(i & items & -> & Hi & _)]; [exact Hnf|]. lia.
    + intros t _. split; [intros Hl; contradiction|discriminate].
  - rewrite (loadPapers_thrown configResponse allPapers saved paperParam Hf).
    pose proof Hf as Hthrown.
    apply getFilteredPapers_throws in Hthrown as (fs & p & Hfs & Hp & Hr).
    split; [|split].
    + split; [|reflexivity]. intros _. right. exists allPapers, fs, p. auto.
    + split; [discriminate|]. intros (all' & [= <-] & Hnone & _).
      destruct (Hnone fs p Hfs Hp Hr).
    + intros t Ht. rewrite (getFilteredPapers_typed saved t allPapers Ht) in Hf.
      discriminate.
Qed.

End WithLowercase.

(** The witness of X2: two stored keywords, the same string twice, and a
    paper one of whose keywords holds it. *)
Lemma X2_load_shows_every_review_witness :
  let r0 := Review "first" None [] (Metrics (Some 3%Z) None None None None None None) in
  let r1 := Review "second" None [] (Metrics None None None None None None (Some "note")) in
  let p := Paper "t" None None [] [] ["cABd"] "not_started" [r0; r1] in
  let configResponse :=
    Fetched (Some (Config true "gpt-4o-mini" false false false true 42)) in
  let saved :=
    Untyped.Value Untyped.Falsy Untyped.Falsy
                  (Untyped.Items [Untyped.Text "ab"; Untyped.Text "ab"])
                  Untyped.Falsy Untyped.Falsy in
  let t := Parsed (FiltersData None None (Some ["ab"; "ab"]) None None) in
  Untyped.typed saved = Some t
  /\ Untyped.getFilteredPapers (H := ascii_toLowerCase) saved [p] = Some [0%nat]
  /\ exists items : list review_item,
       Untyped.loadPapers (H := ascii_toLowerCase) configResponse (Fetched [p]) saved
                          (Some (Z.of_nat 0))
       = Loaded (loadConfig configResponse) [p] 0
                (getFilteredPapers (H := ascii_toLowerCase) t [p])
                (indexOf (getFilteredPapers (H := ascii_toLowerCase) t [p]) 0) items
       /\ shown <$> items ≡ₚ reviews p
       /\ data_review <$> items = seq 0 (length (reviews p))
       /\ Forall2 (fun item r =>
                     main_text item = mainText (loadConfig configResponse) (shown item)
                     /\ stars item = filled_stars r
                     /\ comment_value item = comment_of r)
                  items (reviews p).
Proof.
  intros r0 r1 p configResponse saved t.
  split; [reflexivity|]. split; [reflexivity|].
  apply (X2_load_shows_every_review (H := ascii_toLowerCase) configResponse [p]
           saved 0 p).
  - reflexivity.
  - cbn. lia.
  - cbn. lia.
  - reflexivity.
Defined.

(** The witness of X3: the stored value [{titleKeywords: [5]}].  The
    collection is fetched and the index names a paper, and the page shows
    the error. *)
Lemma X3_load_outcomes_witness :
  let p := Paper "t" None None [] [] [] "not_started"
                 [Review "a" None [] (Metrics None None None None None None None)] in
  let saved :=
    Untyped.Value Untyped.Falsy Untyped.Falsy Untyped.Falsy
                  (Untyped.Items [Untyped.Other 5]) Untyped.Falsy in
  Untyped.loadPapers (H := ascii_toLowerCase) FetchFailed (Fetched [p]) saved
                     (Some 0%Z)
  = ErrorLoading
  /\ Untyped.typed saved = None.
Proof.
  intros p saved.
  split; [|reflexivity].
  apply (X3_load_outcomes (H := ascii_toLowerCase) FetchFailed (Fetched [p])
           saved (Some 0%Z)).
  - intros allPapers [= <-]. split; [cbn; lia|].
    constructor; [cbn; lia|constructor].
  - right. exists [p], (Untyped.Sets [] [] [] [Untyped.Other 5] []), p.
    split; [reflexivity|]. split; [reflexivity|].
    split; [apply list_elem_of_here|].
    split; [left; reflexivity|]. split; [left; reflexivity|].
    right. split.
    + exists []. split; [reflexivity|].
      intros kw Hkw. apply elem_of_nil in Hkw. contradiction.
    + exists [], 5%nat, []. split; [reflexivity|].
      intros kw Hkw. apply elem_of_nil in Hkw. contradiction.
Defined.

End UntypedFacts.
